(** * FilmTube: the transcode job pipeline

    A shallow embedding of the Go sources of the FilmTube worker and of the
    parts of the backend it shares with the API:

    - [models]  : [backend/internal/models/film.go]
    - [ffmpeg]  : the ffmpeg adapter ([GenerateMasterPlaylist],
                  [TranscodeToHLS], [Qualities], ...)
    - [r2]      : the object-store adapter ([UploadFile], [UploadHLSFile], ...)
    - [redis]   : the queue and status cache
    - [db]      : [backend/internal/db/queries.go] over the schema of
                  [migrations/001_init_schema.up.sql]
    - [jobs]    : [worker/internal/jobs/processor.go] ([ProcessJob],
                  [markFailed])
    - [api]     : [ConfirmUpload] of [backend/internal/api/handlers_films.go]
    - [site]    : the rest of the API server and the loop of the worker
                  ([AuthMiddleware], [RequireCreator], the film and auth
                  handlers, the routes, [workerLoop],
                  [DequeueTranscodeJob], ...), over a state [Site] that
                  extends [World]

    PostgreSQL, the R2 bucket, Redis and the ffmpeg executable are outside
    the repository.  Their contents are fields of [World]; whether a given
    call succeeds is read from an oracle [Env], indexed by the number of
    external actions performed so far, so that every interleaving of
    successes and failures is covered by quantifying over [Env]. *)

From Stdlib Require Import ZArith Lia.
From stdpp Require Import base option gmap strings list sorting pretty.

Local Open Scope Z_scope.

(** ** Basic types *)

(** [uuid.UUID], represented by its canonical text (what [%s] prints). *)
Abbreviation UUID := string (only parsing).
(** [time.Time] / [TIMESTAMP WITH TIME ZONE]. *)
Abbreviation Time := Z (only parsing).
(** [[]byte]. *)
Abbreviation bytes := string (only parsing).
(** Go's [error]: [None] is [nil]. *)
Abbreviation error := (option string) (only parsing).

(** A Go result pair [(T, error)]. *)
Inductive Result (A : Type) : Type :=
| Ok (a : A)
| Err (msg : string).
Arguments Ok {A} a.
Arguments Err {A} msg.

Definition nl : string := String (Ascii.ascii_of_nat 10) "".

(** The double quote, for messages that quote a name. *)
Definition quote : string := String (Ascii.ascii_of_nat 34) "".

(** ** package models *)

Module models.

Inductive FilmStatus : Set :=
| StatusDraft
| StatusUploaded
| StatusTranscoding
| StatusReady
| StatusFailed.

#[export] Instance FilmStatus_eq_dec : EqDecision FilmStatus.
Proof. solve_decision. Defined.

Definition FilmStatus_string (s : FilmStatus) : string :=
  match s with
  | StatusDraft => "DRAFT"
  | StatusUploaded => "UPLOADED"
  | StatusTranscoding => "TRANSCODING"
  | StatusReady => "READY"
  | StatusFailed => "FAILED"
  end.

(** A row of [films].  [thumbnail_url] and [hls_master_url] are nullable
    columns.  Columns the pipeline neither reads nor writes (description,
    duration, type, counters, timestamps) are left out. *)
Module Film.
Record t : Type := mk {
    ID : UUID;
    Title : string;
    Status : FilmStatus;
    ThumbnailURL : option string;
    HLSMasterURL : option string;
    CreatedByID : UUID
  }.
End Film.

(** A row of [video_assets]. *)
Module VideoAsset.
Record t : Type := mk {
    ID : UUID;
    FilmID : UUID;
    Quality : string;
    HLSIndexURL : string;
    SizeBytes : Z
  }.
End VideoAsset.

(** A row of [transcode_jobs]; [error], [started_at] and [completed_at]
    are nullable. *)
Module TranscodeJob.
Record t : Type := mk {
    ID : UUID;
    FilmID : UUID;
    Status : FilmStatus;
    Error : option string;
    Progress : Z;
    StartedAt : option Time;
    CompletedAt : option Time;
    CreatedAt : Time
  }.
End TranscodeJob.

End models.
Export models.

(** ** Types of package ffmpeg

    They are declared ahead of the package because the oracle [Env] speaks
    about them. *)

Record VideoInfo : Type := mkVideoInfo {
  Duration : Z;
  Width : Z;
  Height : Z
}.

Record QualityLevel : Type := mkQualityLevel {
  Name : string;
  QWidth : Z;
  QHeight : Z;
  Bitrate : string;
  Audio : string
}.

Record TranscodeResult : Type := mkTranscodeResult {
  Quality : string;
  IndexData : bytes
}.

(** ** The world outside the process *)

(** What the process did to the outside, one constructor per kind of call.
    The last argument tells whether the call succeeded. *)
Inductive Event : Type :=
| EvJobInsert (id filmID : UUID) (ok : bool)
| EvJobUpdate (id : UUID) (status : FilmStatus) (progress : Z)
              (errorMsg : string) (ok : bool)
| EvAssetUpsert (id filmID : UUID) (quality : string) (ok : bool)
| EvFilmSelect (id : UUID) (ok : bool)
| EvBeginTx (ok : bool)
| EvFilmStatus (id : UUID) (status : FilmStatus) (ok : bool)
| EvFilmHLS (id : UUID) (masterURL thumbnailURL : string) (ok : bool)
| EvDownload (key : string) (ok : bool)
| EvUpload (key : string) (content : bytes) (contentType : string) (ok : bool)
| EvProbe (ok : bool)
| EvThumbnail (ok : bool)
| EvTranscode (quality : string) (ok : bool)
| EvEnqueue (filmID : UUID) (ok : bool)
| EvCacheSet (key value : string) (ok : bool).

(** An object of the bucket: its bytes and its content type. *)
Record Object : Type := mkObject {
  Body : bytes;
  ContentType : string
}.

Record World : Type := mkWorld {
  films : gmap string Film.t;                  (* table films, by id *)
  transcode_jobs : gmap string TranscodeJob.t; (* table transcode_jobs, by id *)
  video_assets : gmap string VideoAsset.t;     (* table video_assets, by id *)
  bucket : gmap string Object;                 (* the R2 bucket, by key *)
  queue : list string;                         (* filmtube:transcode:queue *)
  cache : gmap string string;                  (* Redis string keys *)
  trace : list Event                           (* newest event first *)
}.

Definition set_films (f : gmap string Film.t) (w : World) : World :=
  mkWorld f (transcode_jobs w) (video_assets w) (bucket w) (queue w)
          (cache w) (trace w).
Definition set_transcode_jobs (j : gmap string TranscodeJob.t) (w : World)
  : World :=
  mkWorld (films w) j (video_assets w) (bucket w) (queue w) (cache w)
          (trace w).
Definition set_bucket (b : gmap string Object) (w : World) : World :=
  mkWorld (films w) (transcode_jobs w) (video_assets w) b (queue w) (cache w)
          (trace w).
Definition set_queue (q : list string) (w : World) : World :=
  mkWorld (films w) (transcode_jobs w) (video_assets w) (bucket w) q (cache w)
          (trace w).
Definition set_cache (c : gmap string string) (w : World) : World :=
  mkWorld (films w) (transcode_jobs w) (video_assets w) (bucket w) (queue w) c
          (trace w).
Definition emit (e : Event) (w : World) : World :=
  mkWorld (films w) (transcode_jobs w) (video_assets w) (bucket w) (queue w)
          (cache w) (e :: trace w).

(** The number of external actions performed so far. *)
Definition step (w : World) : nat := length (trace w).

(** The behaviour of the collaborators.  [n] is [step] at the call. *)
Record Env : Type := mkEnv {
  db_err : nat -> error;        (* the error of the statement run at n *)
  db_now : nat -> Time;         (* NOW() in the statement run at n *)
  r2_err : nat -> error;        (* the error of the bucket request at n *)
  redis_err : nat -> error;     (* the error of the Redis command at n *)
  ffmpeg_probe : nat -> bytes -> Result VideoInfo;
  ffmpeg_thumbnail : nat -> bytes -> Z -> Result bytes;
  ffmpeg_hls : nat -> bytes -> string -> QualityLevel -> error;
  publicURL : string;           (* r2.Client.publicURL *)
  uuid_Parse : string -> option string;
  uuid_New : nat -> string
}.

(** ** Sequencing *)

Definition M (A : Type) : Type := World -> A * World.

Definition ret {A} (a : A) : M A := fun w => (a, w).

Definition bind {A B} (m : M A) (k : A -> M B) : M B :=
  fun w => let '(a, w1) := m w in k a w1.

Notation "x <- c1 ;; c2" := (bind c1 (fun x => c2))
  (at level 100, c1 at next level, right associativity).
Notation "c1 ;;; c2" := (bind c1 (fun _ => c2))
  (at level 100, right associativity).

Definition is_nil (e : error) : bool :=
  match e with None => true | Some _ => false end.

(** ** package ffmpeg *)

Module ffmpeg.

(** [var Qualities]. *)
Definition Qualities : list QualityLevel :=
  [ mkQualityLevel "360p" 640 360 "800k" "128k";
    mkQualityLevel "720p" 1280 720 "2500k" "192k" ].

(** [GetVideoInfo] runs the tool and parses its diagnostics; the outcome
    of both is the oracle's. *)
Definition GetVideoInfo (env : Env) (data : bytes) : M (Result VideoInfo) :=
  fun w =>
    match ffmpeg_probe env (step w) data with
    | Ok info => (Ok info, emit (EvProbe true) w)
    | Err e => (Err e, emit (EvProbe false) w)
    end.

(** [readIndexFile] returns a fixed playlist. *)
Definition index_playlist : bytes :=
  "#EXTM3U" +:+ nl +:+ "#EXT-X-VERSION:3" +:+ nl +:+
  "#EXT-X-TARGETDURATION:10" +:+ nl +:+
  "#EXT-X-MEDIA-SEQUENCE:0" +:+ nl +:+
  "#EXT-X-PLAYLIST-TYPE:VOD" +:+ nl +:+
  "#EXTINF:10.0," +:+ nl +:+ "seg_00000.ts" +:+ nl +:+
  "#EXT-X-ENDLIST".

Definition readIndexFile (outputDir : string) : Result bytes :=
  Ok index_playlist.

Definition tempDir : string := "/tmp".

Definition TranscodeToHLS (env : Env) (data : bytes) (filmID : string)
    (quality : QualityLevel) : M (Result TranscodeResult) :=
  fun w =>
    let outputDir := tempDir +:+ "/hls_" +:+ filmID +:+ "_" +:+ Name quality in
    match ffmpeg_hls env (step w) data filmID quality with
    | Some e =>
        (Err ("ffmpeg transcoding failed: " +:+ e),
         emit (EvTranscode (Name quality) false) w)
    | None =>
        match readIndexFile outputDir with
        | Err e =>
            (Err ("failed to read index file: " +:+ e),
             emit (EvTranscode (Name quality) true) w)
        | Ok indexData =>
            (Ok (mkTranscodeResult (Name quality) indexData),
             emit (EvTranscode (Name quality) true) w)
        end
    end.

(** The two Go maps of [GenerateMasterPlaylist]; a missing key reads as
    the zero value. *)
Definition bitrates : gmap string Z :=
  <["360p" := 800000]> (<["720p" := 2500000]> ∅).

Definition resolutions : gmap string string :=
  <["360p" := "640x360"]> (<["720p" := "1280x720"]> ∅).

Definition master_header : string :=
  "#EXTM3U" +:+ nl +:+ "#EXT-X-VERSION:3" +:+ nl.

(** The two lines one iteration of the loop appends. *)
Definition master_entry (q : string) : string :=
  ("#EXT-X-STREAM-INF:BANDWIDTH=" +:+ pretty (default 0 (bitrates !! q)) +:+
   ",RESOLUTION=" +:+ default "" (resolutions !! q) +:+ nl) +:+
  (q +:+ "/" +:+ q +:+ "/index.m3u8" +:+ nl).

Definition GenerateMasterPlaylist (filmID : string) (qualities : list string)
  : Result bytes :=
  Ok (fold_left (fun master q => master +:+ master_entry q)
                qualities master_header).

(** [GenerateThumbnail]: one frame at [timestamp]. *)
Definition GenerateThumbnail (env : Env) (data : bytes) (timestamp : Z)
  : M (Result bytes) :=
  fun w =>
    match ffmpeg_thumbnail env (step w) data timestamp with
    | Ok img => (Ok img, emit (EvThumbnail true) w)
    | Err e =>
        (Err ("ffmpeg thumbnail failed: " +:+ e), emit (EvThumbnail false) w)
    end.

End ffmpeg.

(** ** package r2 *)

Module r2.

Definition OriginalPath : string := "original".
Definition ThumbnailPath : string := "thumb".
Definition HLSPath : string := "hls".

Definition UploadFile (env : Env) (key : string) (reader : bytes)
    (contentType : string) : M error :=
  fun w =>
    match r2_err env (step w) with
    | Some e => (Some e, emit (EvUpload key reader contentType false) w)
    | None =>
        (None,
         emit (EvUpload key reader contentType true)
              (set_bucket (<[key := mkObject reader contentType]> (bucket w))
                          w))
    end.

(** [filename[len(filename)-3:]]. *)
Definition suffix3 (filename : string) : string :=
  String.substring (String.length filename - 3) 3 filename.

Definition UploadHLSFile (env : Env) (filmID : UUID)
    (quality filename : string) (reader : bytes) : M error :=
  let key := HLSPath +:+ "/" +:+ filmID +:+ "/" +:+ quality +:+ "/" +:+ filename in
  let contentType :=
    if (4 <? Z.of_nat (String.length filename)) &&
       bool_decide (suffix3 filename = ".ts")
    then "video/mp2t" else "application/x-mpegURL" in
  UploadFile env key reader contentType.

Definition DownloadFile (env : Env) (key : string) : M (Result bytes) :=
  fun w =>
    match r2_err env (step w) with
    | Some e => (Err e, emit (EvDownload key false) w)
    | None =>
        match bucket w !! key with
        | Some o => (Ok (Body o), emit (EvDownload key true) w)
        | None => (Err "NoSuchKey", emit (EvDownload key false) w)
        end
    end.

Definition DownloadOriginalVideo (env : Env) (filmID : UUID)
  : M (Result bytes) :=
  DownloadFile env (OriginalPath +:+ "/" +:+ filmID +:+ "/source.mp4").

Definition GetPublicURL (env : Env) (key : string) : string :=
  publicURL env +:+ "/" +:+ key.

Definition GetHLSMasterURL (env : Env) (filmID : UUID) : string :=
  GetPublicURL env (HLSPath +:+ "/" +:+ filmID +:+ "/master.m3u8").

Definition GetThumbnailURL (env : Env) (filmID : UUID) : string :=
  GetPublicURL env (ThumbnailPath +:+ "/" +:+ filmID +:+ "/poster.jpg").

End r2.

(** ** package redis *)

Module redis.

Definition FilmStatusKey (filmID : UUID) : string :=
  "filmtube:film:status:" +:+ filmID.

(** [LPush]: the new item goes to the head of the list. *)
Definition EnqueueTranscodeJob (env : Env) (filmID : UUID) : M error :=
  fun w =>
    match redis_err env (step w) with
    | Some e => (Some e, emit (EvEnqueue filmID false) w)
    | None =>
        (None, emit (EvEnqueue filmID true) (set_queue (filmID :: queue w) w))
    end.

(** [Set] with a five-minute expiry; expiry is not modelled. *)
Definition SetFilmStatus (env : Env) (filmID : UUID) (status : FilmStatus)
  : M error :=
  fun w =>
    let key := FilmStatusKey filmID in
    let value := FilmStatus_string status in
    match redis_err env (step w) with
    | Some e => (Some e, emit (EvCacheSet key value false) w)
    | None =>
        (None,
         emit (EvCacheSet key value true)
              (set_cache (<[key := value]> (cache w)) w))
    end.

End redis.

(** ** package db *)

Module db.

(** The scan of a row of [films] into [models.Film].  The fields
    [ThumbnailURL] and [HLSMasterURL] of the struct are Go strings, which
    cannot take NULL: the scan of a row in which one of the two columns is
    NULL fails at that column ([thumbnail_url] is column 6 of [f.*],
    [hls_master_url] column 7).  The other columns are taken to scan. *)
Definition scan_film (film : Film.t) : error :=
  match Film.ThumbnailURL film, Film.HLSMasterURL film with
  | None, _ =>
      Some ("sql: Scan error on column index 6, name " +:+ quote +:+
            "thumbnail_url" +:+ quote +:+
            ": converting NULL to string is unsupported")
  | Some _, None =>
      Some ("sql: Scan error on column index 7, name " +:+ quote +:+
            "hls_master_url" +:+ quote +:+
            ": converting NULL to string is unsupported")
  | Some _, Some _ => None
  end.

(** [SELECT f.*, ... FROM films f ... WHERE f.id = $1], scanned into one
    [models.Film] by [GetContext]. *)
Definition GetFilmByID (env : Env) (id : UUID) : M (Result Film.t) :=
  fun w =>
    match db_err env (step w) with
    | Some e => (Err e, emit (EvFilmSelect id false) w)
    | None =>
        match films w !! id with
        | Some film =>
            match scan_film film with
            | Some e => (Err e, emit (EvFilmSelect id false) w)
            | None => (Ok film, emit (EvFilmSelect id true) w)
            end
        | None => (Err "sql: no rows in result set",
                   emit (EvFilmSelect id false) w)
        end
    end.

(** [BeginTx]: the error it returns; with an error the [tx] returned is
    nil. *)
Definition BeginTx (env : Env) : M error :=
  fun w =>
    match db_err env (step w) with
    | Some e => (Some e, emit (EvBeginTx false) w)
    | None => (None, emit (EvBeginTx true) w)
    end.

(** The [SET] clauses of the two statements on [films]. *)
Definition set_film_status (status : FilmStatus) (f : Film.t) : Film.t :=
  Film.mk (Film.ID f) (Film.Title f) status (Film.ThumbnailURL f)
          (Film.HLSMasterURL f) (Film.CreatedByID f).

Definition set_film_hls (masterURL thumbnailURL : string) (f : Film.t)
  : Film.t :=
  Film.mk (Film.ID f) (Film.Title f) StatusReady (Some thumbnailURL)
          (Some masterURL) (Film.CreatedByID f).

(** [UPDATE films SET status = $1 WHERE id = $2] on a transaction of the
    caller, with the [Commit] that follows.  In the handlers the transaction
    is opened by [BeginTx] above, a step of its own.  [ProcessJob] and
    [markFailed] drop the error of [BeginTx] and go on; for them opening the
    transaction is part of this action, and a transaction that cannot be
    opened counts as the statement failing.  The source panics at that
    point, in [tx.ExecContext] on the nil [tx]: what the run has done until
    then is what it has done here, and nothing of what follows here is done
    there. *)
Definition UpdateFilmStatus (env : Env) (id : UUID) (status : FilmStatus)
  : M error :=
  fun w =>
    match db_err env (step w) with
    | Some e => (Some e, emit (EvFilmStatus id status false) w)
    | None =>
        (None,
         emit (EvFilmStatus id status true)
              (set_films (alter (set_film_status status) id (films w)) w))
    end.

(** [UPDATE films SET hls_master_url = $1, thumbnail_url = $2,
    status = 'READY' WHERE id = $3], on a transaction of [ProcessJob], with
    the [Commit] or [Rollback] that follows; as for [UpdateFilmStatus] in
    [markFailed], opening the transaction is part of this action. *)
Definition UpdateFilmHLS (env : Env) (id : UUID)
    (masterURL thumbnailURL : string) : M error :=
  fun w =>
    match db_err env (step w) with
    | Some e => (Some e, emit (EvFilmHLS id masterURL thumbnailURL false) w)
    | None =>
        (None,
         emit (EvFilmHLS id masterURL thumbnailURL true)
              (set_films
                 (alter (set_film_hls masterURL thumbnailURL) id (films w))
                 w))
    end.

(** The constraints of [transcode_jobs] an [INSERT] can violate: the
    primary key, [UNIQUE (film_id)], the reference to [films], the check on
    [status] and the range of [progress], an [INTEGER] column. *)
Definition job_status_allowed (s : FilmStatus) : bool :=
  negb (bool_decide (s = StatusDraft)).

Definition fits_integer (n : Z) : bool :=
  (-2147483648 <=? n) && (n <=? 2147483647).

Definition film_has_job (jobs : gmap string TranscodeJob.t) (filmID : UUID)
  : bool :=
  bool_decide (map_Exists (fun _ j => TranscodeJob.FilmID j = filmID) jobs).

Definition insert_job_allowed (w : World) (job : TranscodeJob.t) : bool :=
  bool_decide (transcode_jobs w !! TranscodeJob.ID job = None) &&
  negb (film_has_job (transcode_jobs w) (TranscodeJob.FilmID job)) &&
  bool_decide (is_Some (films w !! TranscodeJob.FilmID job)) &&
  job_status_allowed (TranscodeJob.Status job) &&
  fits_integer (TranscodeJob.Progress job).

(** [INSERT INTO transcode_jobs (id, film_id, status, progress)]; the
    other columns take their defaults. *)
Definition CreateTranscodeJob (env : Env) (job : TranscodeJob.t) : M error :=
  fun w =>
    let id := TranscodeJob.ID job in
    let filmID := TranscodeJob.FilmID job in
    match db_err env (step w) with
    | Some e => (Some e, emit (EvJobInsert id filmID false) w)
    | None =>
        if insert_job_allowed w job then
          let row :=
            TranscodeJob.mk id filmID (TranscodeJob.Status job) None
                            (TranscodeJob.Progress job) None None
                            (db_now env (step w)) in
          (None,
           emit (EvJobInsert id filmID true)
                (set_transcode_jobs (<[id := row]> (transcode_jobs w)) w))
        else
          (Some "pq: constraint violation",
           emit (EvJobInsert id filmID false) w)
    end.

(** The [SET] clause of [UpdateTranscodeJobStatus] on one row. *)
Definition update_job_row (status : FilmStatus) (progress : Z)
    (errorMsg : string) (isStarted isCompleted : bool) (now : Time)
    (r : TranscodeJob.t) : TranscodeJob.t :=
  TranscodeJob.mk
    (TranscodeJob.ID r)
    (TranscodeJob.FilmID r)
    status
    (Some errorMsg)
    progress
    (if isStarted && bool_decide (TranscodeJob.StartedAt r = None)
     then Some now else TranscodeJob.StartedAt r)
    (if isCompleted then Some now else TranscodeJob.CompletedAt r)
    (TranscodeJob.CreatedAt r).

(** [UPDATE transcode_jobs SET ... WHERE id = $6].  The row is selected
    by its primary key [id].  A statement whose progress does not fit the
    column, or that would store a status the check constraint refuses, fails
    and changes nothing. *)
Definition UpdateTranscodeJobStatus (env : Env) (id : UUID)
    (status : FilmStatus) (progress : Z) (errorMsg : string) : M error :=
  fun w =>
    let isStarted := bool_decide (status = StatusTranscoding) in
    let isCompleted :=
      bool_decide (status = StatusReady) ||
      bool_decide (status = StatusFailed) in
    match db_err env (step w) with
    | Some e =>
        (Some e, emit (EvJobUpdate id status progress errorMsg false) w)
    | None =>
        if negb (fits_integer progress) ||
           (bool_decide (is_Some (transcode_jobs w !! id)) &&
            negb (job_status_allowed status))
        then
          (Some "pq: constraint violation",
           emit (EvJobUpdate id status progress errorMsg false) w)
        else
          (None,
           emit (EvJobUpdate id status progress errorMsg true)
                (set_transcode_jobs
                   (alter (update_job_row status progress errorMsg isStarted
                                          isCompleted (db_now env (step w)))
                          id (transcode_jobs w))
                   w))
    end.

(** [INSERT INTO video_assets ... ON CONFLICT (film_id, quality) DO
    UPDATE]: the row of the same film and quality, when there is one, keeps
    its id and takes the new URL and size. *)
Definition same_film_quality (a b : VideoAsset.t) : bool :=
  bool_decide (VideoAsset.FilmID a = VideoAsset.FilmID b) &&
  bool_decide (VideoAsset.Quality a = VideoAsset.Quality b).

Definition upsert_video_asset (asset : VideoAsset.t)
    (m : gmap string VideoAsset.t) : option (gmap string VideoAsset.t) :=
  let set (a : VideoAsset.t) :=
    if same_film_quality a asset
    then VideoAsset.mk (VideoAsset.ID a) (VideoAsset.FilmID a)
                       (VideoAsset.Quality a) (VideoAsset.HLSIndexURL asset)
                       (VideoAsset.SizeBytes asset)
    else a in
  if bool_decide (map_Exists (fun _ a => same_film_quality a asset = true) m)
  then Some (set <$> m)
  else if bool_decide (m !! VideoAsset.ID asset = None)
       then Some (<[VideoAsset.ID asset := asset]> m)
       else None.

Definition CreateVideoAsset (env : Env) (asset : VideoAsset.t) : M error :=
  fun w =>
    let ev := EvAssetUpsert (VideoAsset.ID asset) (VideoAsset.FilmID asset)
                            (VideoAsset.Quality asset) in
    match db_err env (step w) with
    | Some e => (Some e, emit (ev false) w)
    | None =>
        match upsert_video_asset asset (video_assets w) with
        | Some m =>
            (None,
             emit (ev true)
                  (mkWorld (films w) (transcode_jobs w) m (bucket w)
                           (queue w) (cache w) (trace w)))
        | None => (Some "pq: constraint violation", emit (ev false) w)
        end
    end.

End db.

(** ** package jobs: the processor *)

Module jobs.

Definition markFailed (env : Env) (filmID : UUID) (errorMsg : string)
  : M unit :=
  db.UpdateTranscodeJobStatus env filmID StatusFailed 0 errorMsg ;;;
  redis.SetFilmStatus env filmID StatusFailed ;;;
  db.UpdateFilmStatus env filmID StatusFailed ;;;
  ret tt.

Definition uploadHLSFiles (env : Env) (filmID : UUID) (quality : string)
    (indexData : bytes) : M error :=
  err <- r2.UploadHLSFile env filmID quality "index.m3u8" indexData ;;
  match err with
  | Some e => ret (Some e)
  | None => ret None
  end.

(** The body of [for i, quality := range ffmpeg.Qualities].  [nQ] is
    [len(ffmpeg.Qualities)], [i] the index of the head of [qs] and
    [completedQualities] the names appended so far.  The goroutine and the
    [select] of the source wait for the one result of [TranscodeToHLS].
    An early [return] of [ProcessJob] is the [Err] result. *)
Fixpoint transcodeLoop (env : Env) (filmID : UUID) (videoData : bytes)
    (nQ : Z) (i : Z) (qs : list QualityLevel)
    (completedQualities : list string) : M (Result (list string)) :=
  match qs with
  | [] => ret (Ok completedQualities)
  | quality :: rest =>
      r <- ffmpeg.TranscodeToHLS env videoData filmID quality ;;
      match r with
      | Err err =>
          markFailed env filmID
            ("failed to transcode to " +:+ Name quality +:+ ": " +:+ err) ;;;
          ret (Err ("transcoding failed for " +:+ Name quality +:+ ": "
                    +:+ err))
      | Ok result =>
          err <- uploadHLSFiles env filmID (Name quality)
                                (IndexData result) ;;
          match err with
          | Some err =>
              markFailed env filmID ("failed to upload HLS files: " +:+ err) ;;;
              ret (Err ("failed to upload HLS files: " +:+ err))
          | None =>
              let completedQualities :=
                completedQualities ++ [Name quality] in
              let baseProgress := 20 in
              let progressPerQuality := 60 `quot` nQ in
              let currentProgress :=
                baseProgress + (i + 1) * progressPerQuality in
              db.UpdateTranscodeJobStatus env filmID StatusTranscoding
                                          currentProgress "" ;;;
              transcodeLoop env filmID videoData nQ (i + 1) rest
                            completedQualities
          end
      end
  end.

(** [ProcessJob], for the tier list [Qualities] (the package variable
    [ffmpeg.Qualities] in the source).  The thumbnail timestamp is a tenth
    of the duration, computed in floating point in the source; only the
    external tool sees it, so the oracle is given the duration. *)
Definition ProcessJob (env : Env) (Qualities : list QualityLevel)
    (filmID : UUID) : M error :=
  err <- db.UpdateTranscodeJobStatus env filmID StatusTranscoding 10 "" ;;
  match err with
  | Some err => ret (Some ("failed to update job status: " +:+ err))
  | None =>
  r <- r2.DownloadOriginalVideo env filmID ;;
  match r with
  | Err err =>
      markFailed env filmID ("failed to download video: " +:+ err) ;;;
      ret (Some ("failed to download video: " +:+ err))
  | Ok videoData =>
  r <- ffmpeg.GetVideoInfo env videoData ;;
  match r with
  | Err err =>
      markFailed env filmID ("failed to get video info: " +:+ err) ;;;
      ret (Some ("failed to get video info: " +:+ err))
  | Ok videoInfo =>
  db.UpdateTranscodeJobStatus env filmID StatusTranscoding 20 "" ;;;
  r <- ffmpeg.GenerateThumbnail env videoData (Duration videoInfo) ;;
  match r with
  | Err _ => ret tt
  | Ok thumbnailData =>
      let thumbnailKey :=
        r2.ThumbnailPath +:+ "/" +:+ filmID +:+ "/poster.jpg" in
      r2.UploadFile env thumbnailKey thumbnailData "image/jpeg" ;;;
      ret tt
  end ;;;
  r <- transcodeLoop env filmID videoData
                     (Z.of_nat (length Qualities)) 0 Qualities [] ;;
  match r with
  | Err err => ret (Some err)
  | Ok completedQualities =>
  match ffmpeg.GenerateMasterPlaylist filmID completedQualities with
  | Err err =>
      markFailed env filmID
                 ("failed to generate master playlist: " +:+ err) ;;;
      ret (Some ("failed to generate master playlist: " +:+ err))
  | Ok masterData =>
  let masterKey := r2.HLSPath +:+ "/" +:+ filmID +:+ "/master.m3u8" in
  err <- r2.UploadFile env masterKey masterData "application/x-mpegURL" ;;
  match err with
  | Some err =>
      markFailed env filmID ("failed to upload master playlist: " +:+ err) ;;;
      ret (Some ("failed to upload master playlist: " +:+ err))
  | None =>
  let masterURL := r2.GetHLSMasterURL env filmID in
  let thumbnailURL := r2.GetThumbnailURL env filmID in
  err <- db.UpdateFilmHLS env filmID masterURL thumbnailURL ;;
  match err with
  | Some err =>
      markFailed env filmID ("failed to update film: " +:+ err) ;;;
      ret (Some ("failed to update film: " +:+ err))
  | None =>
  db.UpdateTranscodeJobStatus env filmID StatusReady 100 "" ;;;
  redis.SetFilmStatus env filmID StatusReady ;;;
  ret None
  end end end end end end end.

End jobs.

(** ** package api: ConfirmUpload *)

Module api.

(** What the handler reads of the request: the [:id] path parameter and
    the user id the auth middleware stored in the context, if any. *)
Record Request : Type := mkRequest {
  param_id : string;
  ctx_user_id : option string
}.

(** [c.JSON(code, gin.H{...})]; an answer without a body has [body = []]. *)
Record Response : Type := mkResponse {
  code : Z;
  body : list (string * string)
}.

Definition uuid_Nil : string := "00000000-0000-0000-0000-000000000000".

(** [userID, _ := GetUserID(c)]. *)
Definition GetUserID (req : Request) : string :=
  default uuid_Nil (ctx_user_id req).

Definition newUUID (env : Env) : M string :=
  fun w => (uuid_New env (step w), w).

(** The answer of [gin.Recovery] to a panic in a handler: status 500 and
    no body. *)
Definition recovered : Response := mkResponse 500 [].

Definition ConfirmUpload (env : Env) (req : Request) : M Response :=
  match uuid_Parse env (param_id req) with
  | None => ret (mkResponse 400 [("error", "invalid film ID")])
  | Some filmID =>
  r <- db.GetFilmByID env filmID ;;
  match r with
  | Err _ => ret (mkResponse 404 [("error", "film not found")])
  | Ok film =>
  let userID := GetUserID req in
  if negb (bool_decide (Film.CreatedByID film = userID)) then
    ret (mkResponse 403 [("error", "not authorized")])
  else
  id <- newUUID env ;;
  let job :=
    TranscodeJob.mk id filmID StatusUploaded None 0 None None 0 in
  err <- db.CreateTranscodeJob env job ;;
  match err with
  | Some _ =>
      ret (mkResponse 500 [("error", "failed to create transcode job")])
  | None =>
  err <- redis.EnqueueTranscodeJob env filmID ;;
  match err with
  | Some _ => ret (mkResponse 500 [("error", "failed to enqueue job")])
  | None =>
  (* tx, _ := BeginTx: with an error [tx] is nil, [UpdateFilmStatus]
     panics in [tx.ExecContext] and the handler is left there *)
  txErr <- db.BeginTx env ;;
  match txErr with
  | Some _ => ret recovered
  | None =>
  db.UpdateFilmStatus env filmID StatusTranscoding ;;;
  redis.SetFilmStatus env filmID StatusTranscoding ;;;
  ret (mkResponse 200
         [("message", "Upload confirmed. Transcoding started.");
          ("job_id", TranscodeJob.ID job)])
  end end end end end.

End api.

(** ** Reading a list of events (oldest first) *)

Definition events_of (w : World) : list Event := rev (trace w).

(** The status and progress of the job-status statements that succeeded. *)
Definition job_update_of (e : Event) : option (FilmStatus * Z) :=
  match e with
  | EvJobUpdate _ st p _ true => Some (st, p)
  | _ => None
  end.

Definition job_updates (evs : list Event) : list (FilmStatus * Z) :=
  omap job_update_of evs.

(** The status and progress of the job-status statements issued, whether
    they succeeded or not. *)
Definition job_statement_of (e : Event) : option (FilmStatus * Z) :=
  match e with
  | EvJobUpdate _ st p _ _ => Some (st, p)
  | _ => None
  end.

Definition job_statements (evs : list Event) : list (FilmStatus * Z) :=
  omap job_statement_of evs.

(** Key and content of the uploads that succeeded. *)
Definition upload_of (e : Event) : option (string * bytes) :=
  match e with
  | EvUpload key content _ true => Some (key, content)
  | _ => None
  end.

Definition uploads (evs : list Event) : list (string * bytes) :=
  omap upload_of evs.

(** The progress values stored by the job-status statements that
    succeeded, in order: all of them, and those of the statements that do not
    mark the job FAILED. *)
Definition progress_log (evs : list Event) : list Z :=
  map snd (job_updates evs).

Definition not_failed (u : FilmStatus * Z) : bool :=
  negb (bool_decide (u.1 = StatusFailed)).

Definition progress_log_unfailed (evs : list Event) : list Z :=
  map snd (List.filter not_failed (job_updates evs)).

(** Calls to the bucket and to the transcoder. *)
Definition external_io (e : Event) : bool :=
  match e with
  | EvDownload _ _ | EvUpload _ _ _ _ | EvProbe _ | EvThumbnail _
  | EvTranscode _ _ => true
  | _ => false
  end.

(** ** How a player reads the master manifest

    The URI lines of a playlist are its lines that are neither empty nor
    tags ([#...]); a relative URI is resolved against the location of the
    playlist, that is, appended to everything up to its last [/]. *)

Definition slash : Ascii.ascii := Ascii.ascii_of_nat 47.
Definition hash : Ascii.ascii := Ascii.ascii_of_nat 35.
Definition newline : Ascii.ascii := Ascii.ascii_of_nat 10.

Fixpoint split_on (c : Ascii.ascii) (s : string) : list string :=
  match s with
  | EmptyString => [ EmptyString ]
  | String a s' =>
      if Ascii.eqb a c then EmptyString :: split_on c s'
      else match split_on c s' with
           | [] => [ String a EmptyString ]
           | l :: ls => String a l :: ls
           end
  end.

Definition is_uri_line (l : string) : bool :=
  match l with
  | EmptyString => false
  | String a _ => negb (Ascii.eqb a hash)
  end.

Definition manifest_uris (playlist : bytes) : list string :=
  List.filter is_uri_line (split_on newline playlist).

Definition dirname (key : string) : string :=
  match removelast (split_on slash key) with
  | [] => EmptyString
  | parts => String.concat "/" parts +:+ "/"
  end.

Definition resolve_relative (base uri : string) : string :=
  dirname base +:+ uri.

(** ** The progress formula of the tier loop *)

(** [baseProgress + (i+1)*progressPerQuality] for tier [i] of [nQ]. *)
Definition tier_progress (nQ i : Z) : Z := 20 + (i + 1) * (60 `quot` nQ).

(** The job-status statements of the tiers from index [i] on. *)
Fixpoint tier_updates (nQ i : Z) (qs : list QualityLevel)
  : list (FilmStatus * Z) :=
  match qs with
  | [] => []
  | _ :: rest => (StatusTranscoding, tier_progress nQ i)
                 :: tier_updates nQ (i + 1) rest
  end.

(** The object keys of the tier index playlists, as [UploadHLSFile] builds
    them. *)
Definition index_key (fid : string) (q : QualityLevel) : string :=
  r2.HLSPath +:+ "/" +:+ fid +:+ "/" +:+ Name q +:+ "/" +:+ "index.m3u8".

Definition master_key (fid : string) : string :=
  r2.HLSPath +:+ "/" +:+ fid +:+ "/master.m3u8".

Definition source_key (fid : string) : string :=
  r2.OriginalPath +:+ "/" +:+ fid +:+ "/source.mp4".

Definition thumbnail_key (fid : string) : string :=
  r2.ThumbnailPath +:+ "/" +:+ fid +:+ "/poster.jpg".

(** Every call to the database and the bucket succeeds, the source of the
    film is in the bucket, the tool can read it and transcodes every tier.
    Nothing is asked of the thumbnail nor of Redis. *)
Definition collaborators_work (env : Env) (fid : string) (w : World)
    (src : Object) (info : VideoInfo) : Prop :=
  (forall n, db_err env n = None) /\
  (forall n, r2_err env n = None) /\
  bucket w !! source_key fid = Some src /\
  (forall n, ffmpeg_probe env n (Body src) = Ok info) /\
  (forall n q, ffmpeg_hls env n (Body src) fid q = None).

Definition terminal (s : FilmStatus) : Prop :=
  s = StatusReady \/ s = StatusFailed.

(** A sequence of job-status statements on one row, run in order. *)
Fixpoint run_updates (env : Env) (id : string)
    (us : list (FilmStatus * Z * string)) : M unit :=
  match us with
  | [] => ret tt
  | (st, p, msg) :: rest =>
      db.UpdateTranscodeJobStatus env id st p msg ;;;
      run_updates env id rest
  end.

(** ** Vocabulary of the statements *)

(** A relation between the world before and after holds of every run of a
    program. *)
Definition preserves {A} (R : World -> World -> Prop) (m : M A) : Prop :=
  forall w, R w (m w).2.

(** The table [video_assets] is the same. *)
Definition same_assets (w w' : World) : Prop :=
  video_assets w' = video_assets w.

(** The job rows under the ids other than [fid] are the same. *)
Definition same_other_jobs (fid : string) (w w' : World) : Prop :=
  forall id, id <> fid -> transcode_jobs w' !! id = transcode_jobs w !! id.

(** The trace has only grown. *)
Definition extends_trace (w w' : World) : Prop :=
  exists evs, trace w' = evs ++ trace w.

(** The job row under [fid], if there was one, is still there, with the
    same id, film and creation time. *)
Definition job_kept (fid : string) (w w' : World) : Prop :=
  forall j, transcode_jobs w !! fid = Some j ->
    exists j', transcode_jobs w' !! fid = Some j' /\
      TranscodeJob.ID j' = TranscodeJob.ID j /\
      TranscodeJob.FilmID j' = TranscodeJob.FilmID j /\
      TranscodeJob.CreatedAt j' = TranscodeJob.CreatedAt j.

(** The events of the tier loop from index [i] on, oldest first, when every
    tier is transcoded and uploaded. *)
Fixpoint tier_events (fid : string) (nQ i : Z) (qs : list QualityLevel)
  : list Event :=
  match qs with
  | [] => []
  | q :: rest =>
      [ EvTranscode (Name q) true;
        EvUpload (r2.HLSPath +:+ "/" +:+ fid +:+ "/" +:+ Name q +:+ "/"
                  +:+ "index.m3u8")
                 ffmpeg.index_playlist "application/x-mpegURL" true;
        EvJobUpdate fid StatusTranscoding (20 + (i + 1) * (60 `quot` nQ)) ""
                    true ]
      ++ tier_events fid nQ (i + 1) rest
  end.

(** The events of the thumbnail stage, by the outcome of the tool. *)
Definition thumb_events (fid : string) (r : Result bytes) : list Event :=
  match r with
  | Err _ => [ EvThumbnail false ]
  | Ok img =>
      [ EvThumbnail true;
        EvUpload (r2.ThumbnailPath +:+ "/" +:+ fid +:+ "/poster.jpg") img
                 "image/jpeg" true ]
  end.

Definition master_manifest (fid : string) (Q : list QualityLevel) : bytes :=
  match ffmpeg.GenerateMasterPlaylist fid (map Name Q) with
  | Ok b => b
  | Err _ => ""
  end.

(** The events of a run in which every stage but, possibly, the thumbnail
    succeeds, oldest first.  [tr] is the outcome of the thumbnail tool and
    [b] that of the final cache write. *)
Definition ok_events (env : Env) (fid : string) (Q : list QualityLevel)
    (tr : Result bytes) (b : bool) : list Event :=
  [ EvJobUpdate fid StatusTranscoding 10 "" true;
    EvDownload (r2.OriginalPath +:+ "/" +:+ fid +:+ "/source.mp4") true;
    EvProbe true;
    EvJobUpdate fid StatusTranscoding 20 "" true ]
  ++ thumb_events fid tr
  ++ tier_events fid (Z.of_nat (length Q)) 0 Q
  ++ [ EvUpload (r2.HLSPath +:+ "/" +:+ fid +:+ "/master.m3u8")
                (master_manifest fid Q) "application/x-mpegURL" true;
       EvFilmHLS fid (r2.GetHLSMasterURL env fid) (r2.GetThumbnailURL env fid)
                 true;
       EvJobUpdate fid StatusReady 100 "" true;
       EvCacheSet (redis.FilmStatusKey fid) "READY" b ].

(** A triple: from a world where [P] holds the program ends in a world
    where [Q] holds. *)
Definition hoare {A} (P : World -> Prop) (m : M A) (Q : World -> Prop) : Prop :=
  forall w, P w -> Q (m w).2.

(** Since the trace was [t0], the statements that did not mark the job
    FAILED stored non-decreasing values, none above [h], and those that
    marked it FAILED stored 0. *)
Definition Inv (t0 : list Event) (h : Z) (w : World) : Prop :=
  exists evs,
    trace w = rev evs ++ t0 /\
    StronglySorted Z.le (progress_log_unfailed evs) /\
    Forall (fun y => y <= h) (progress_log_unfailed evs) /\
    Forall (fun u => u.1 = StatusFailed -> u.2 = 0) (job_updates evs).


(** The URI line [GenerateMasterPlaylist] writes for a tier. *)
Definition playlist_uri (q : string) : string :=
  q +:+ "/" +:+ q +:+ "/index.m3u8".

(** ** Sample data *)

Module sample.

Definition fid : string := "3f2a0c1e-0000-4000-8000-00000000f11a".
Definition jid : string := "9b1d7e42-0000-4000-8000-0000000000b0".
Definition uid : string := "5c5c5c5c-0000-4000-8000-0000000005e7".

Definition film0 : Film.t :=
  Film.mk fid "A short film" StatusUploaded None None uid.

Definition film_ready : Film.t :=
  Film.mk fid "A short film" StatusReady
          (Some "https://cdn.example/thumb/3f2a0c1e-0000-4000-8000-00000000f11a/poster.jpg")
          (Some "https://cdn.example/hls/3f2a0c1e-0000-4000-8000-00000000f11a/master.m3u8")
          uid.


Definition source : Object := mkObject "mp4-bytes" "video/mp4".

Definition info10s : VideoInfo := mkVideoInfo 10000000000 1280 720.

(** Every collaborator works; the tool reports a ten-second source. *)
Definition env_ok : Env :=
  mkEnv (fun _ => None) (fun n => 1000 + Z.of_nat n) (fun _ => None)
        (fun _ => None)
        (fun _ _ => Ok info10s)
        (fun _ _ _ => Ok "jpeg-bytes")
        (fun _ _ _ _ => None)
        "https://cdn.example"
        (fun s => Some s)
        (fun _ => jid).

(** As [env_ok], but the tool cannot extract a thumbnail. *)
Definition env_no_thumbnail : Env :=
  mkEnv (fun _ => None) (fun n => 1000 + Z.of_nat n) (fun _ => None)
        (fun _ => None)
        (fun _ _ => Ok info10s)
        (fun _ _ _ => Err "exit status 1")
        (fun _ _ _ _ => None)
        "https://cdn.example"
        (fun s => Some s)
        (fun _ => jid).


(** A job row stored under the id of its film: the row the statements of
    [ProcessJob fid] select. *)
Definition job_uploaded : TranscodeJob.t :=
  TranscodeJob.mk fid fid StatusUploaded None 0 None None 900.

Definition job_ready : TranscodeJob.t :=
  TranscodeJob.mk fid fid StatusReady (Some "") 100 (Some 910) (Some 950) 900.

(** A job row as [ConfirmUpload] inserts it: under an id of its own. *)
Definition job_confirmed : TranscodeJob.t :=
  TranscodeJob.mk jid fid StatusUploaded None 0 None None 900.

(** A READY job row under an id of its own. *)
Definition job_ready_confirmed : TranscodeJob.t :=
  TranscodeJob.mk jid fid StatusReady (Some "") 100 (Some 910) (Some 950) 900.

(** One film, its job row and its uploaded source. *)
Definition world_of (job : TranscodeJob.t) (f : Film.t) : World :=
  mkWorld (<[Film.ID f := f]> ∅) (<[TranscodeJob.ID job := job]> ∅) ∅
          (<[source_key (Film.ID f) := source]> ∅) [] ∅ [].

(** The same, the source gone from the bucket. *)
Definition world_without_source (job : TranscodeJob.t) (f : Film.t) : World :=
  mkWorld (<[Film.ID f := f]> ∅) (<[TranscodeJob.ID job := job]> ∅) ∅
          ∅ [] ∅ [].

(** One film and no job. *)
Definition world_no_job (f : Film.t) : World :=
  mkWorld (<[Film.ID f := f]> ∅) ∅ ∅
          (<[source_key (Film.ID f) := source]> ∅) [] ∅ [].

Definition tier (name : string) : QualityLevel :=
  mkQualityLevel name 640 360 "800k" "128k".


End sample.

(** ** Vocabulary of the further properties *)

(** The key a player derives for the one segment the index playlist of a
    tier names. *)
Definition segment_key (fid : string) (q : QualityLevel) : string :=
  r2.HLSPath +:+ "/" +:+ fid +:+ "/" +:+ Name q +:+ "/" +:+ "seg_00000.ts".

(** The object keys a run of [ProcessJob] for [fid] over the tiers [Q] can
    write. *)
Definition job_keys (fid : string) (Q : list QualityLevel) : list string :=
  thumbnail_key fid :: master_key fid :: map (index_key fid) Q.

(** What a program working for the film [fid] may change: the row of the
    film (not its id, title or owner), the cache entry of the film and the
    objects under the keys [keys]; it adds and removes no film row, removes no
    object and leaves the queue alone. *)
Definition touches_only (fid : string) (keys : list string) (w w' : World)
  : Prop :=
  queue w' = queue w /\
  (forall id, id <> fid -> films w' !! id = films w !! id) /\
  (films w !! fid = None -> films w' !! fid = None) /\
  (forall f, films w !! fid = Some f ->
     exists f', films w' !! fid = Some f' /\
       Film.ID f' = Film.ID f /\ Film.Title f' = Film.Title f /\
       Film.CreatedByID f' = Film.CreatedByID f) /\
  (forall k, k <> redis.FilmStatusKey fid -> cache w' !! k = cache w !! k) /\
  (forall k, ~ In k keys -> bucket w' !! k = bucket w !! k) /\
  (forall k, is_Some (bucket w !! k) -> is_Some (bucket w' !! k)).

(** The film row, the cache entry of the film and, when there is one, the
    job row stored under the id of the film all carry the status [st]. *)
Definition marked (st : FilmStatus) (fid : string) (w : World) : Prop :=
  (exists f, films w !! fid = Some f /\ Film.Status f = st) /\
  cache w !! redis.FilmStatusKey fid = Some (FilmStatus_string st) /\
  (forall j, transcode_jobs w !! fid = Some j -> TranscodeJob.Status j = st).

(** The film has a row. *)
Definition has_film (fid : string) (w : World) : Prop :=
  is_Some (films w !! fid).

(** Does the character occur in the string? *)
Fixpoint occurs (c : Ascii.ascii) (s : string) : bool :=
  match s with
  | EmptyString => false
  | String a s' => Ascii.eqb a c || occurs c s'
  end.

(** A tier name a player reads back as one URI line: not empty, not
    beginning with [#], without a line break. *)
Definition plain_name (q : string) : bool :=
  is_uri_line q && negb (occurs newline q).

(** The tag line [GenerateMasterPlaylist] writes for a tier. *)
Definition stream_inf (q : string) : string :=
  "#EXT-X-STREAM-INF:BANDWIDTH=" +:+ pretty (default 0 (ffmpeg.bitrates !! q))
  +:+ ",RESOLUTION=" +:+ default "" (ffmpeg.resolutions !! q).

(** The film a job-status statement starts a run for: the statement that
    sets TRANSCODING with progress 10 opens every run of [ProcessJob]. *)
Definition job_start_of (e : Event) : option UUID :=
  match e with
  | EvJobUpdate id StatusTranscoding p _ _ =>
      if bool_decide (p = 10) then Some id else None
  | _ => None
  end.

Definition job_starts (evs : list Event) : list UUID := omap job_start_of evs.

(** The trace has grown by events that start no run. *)
Definition no_new_start (w w' : World) : Prop :=
  exists evs, trace w' = evs ++ trace w /\ job_starts evs = [].

(** [EnqueueTranscodeJob] for each film of a list, in order. *)
Fixpoint enqueue_all (env : Env) (fs : list UUID) : M unit :=
  match fs with
  | [] => ret tt
  | f :: rest => redis.EnqueueTranscodeJob env f ;;; enqueue_all env rest
  end.

(** * The API server and the worker loop

    The rest of the repository, on top of the pipeline: the remaining
    functions of the packages [redis], [r2] and [db], the package [auth], the
    middleware and the handlers of [api], the routes of the server and the loop
    of the worker.  Names here are reached as [site.redis.f], [site.api.f]
    and so on; the definitions above keep their names. *)

Module site.

(** ** State and collaborators *)

(** [models.User] ([internal/models/user.go]); [created_at] and
    [updated_at] are left out.  A row holds what [CreateUser] wrote: no
    column of it is NULL. *)
Module User.
Record t : Type := mk {
    ID : UUID;
    Email : string;
    PasswordHash : string;
    Role : string;
    Name : string;
    AvatarURL : string;
    Bio : string
  }.
End User.

(** [models.UserRole] is a string type. *)
Definition RoleUser : string := "USER".
Definition RoleCreator : string := "CREATOR".
Definition RoleAdmin : string := "ADMIN".

(** [auth.Claims]; the registered claims (expiry and the like) are read by
    the JWT library only. *)
Record Claims : Type := mkClaims {
  UserID : UUID;
  ClaimEmail : string;
  ClaimRole : string
}.

(** The calls to the outside that [Event] has no constructor for. *)
Inductive Call : Type :=
| CallBRPop (ok : bool)
| CallPresign (key : string) (expiration : Z) (ok : bool)
| CallFilmList (limit offset : Z) (status : string) (ok : bool)
| CallFilmPublish (id : UUID) (ok : bool)
| CallViewCount (id : UUID) (ok : bool)
| CallAssetSelect (filmID : UUID) (ok : bool)
| CallUserInsert (id : UUID) (ok : bool)
| CallUserSelect (key : string) (ok : bool)
| CallHash (ok : bool)
| CallSign (ok : bool).

(** The world of the pipeline, the table [users], the columns of [films]
    that [Film.t] leaves out and that some statement reads or writes, and the
    calls made so far. *)
Record Site : Type := mkSite {
  world : World;
  users : gmap string User.t;        (* table users, by id *)
  created_at : gmap string Time;     (* films.created_at, by film id *)
  published_at : gmap string Time;   (* films.published_at; absent is NULL *)
  view_count : gmap string Z;        (* films.view_count; absent is 0 *)
  calls : list Call                  (* newest call first *)
}.

Definition with_world (f : World -> World) (s : Site) : Site :=
  mkSite (f (world s)) (users s) (created_at s) (published_at s)
         (view_count s) (calls s).
Definition set_users (u : gmap string User.t) (s : Site) : Site :=
  mkSite (world s) u (created_at s) (published_at s) (view_count s) (calls s).
Definition set_published_at (p : gmap string Time) (s : Site) : Site :=
  mkSite (world s) (users s) (created_at s) p (view_count s) (calls s).
Definition call (c : Call) (s : Site) : Site :=
  mkSite (world s) (users s) (created_at s) (published_at s) (view_count s)
         (c :: calls s).

(** The number of external actions performed so far, of either kind. *)
Definition tick (s : Site) : nat := (step (world s) + length (calls s))%nat.

(** The behaviour of the collaborators in the calls of this part.  [n] is
    [tick] at the call; the calls of the pipeline keep reading [base]. *)
Record SiteEnv : Type := mkSiteEnv {
  base : Env;
  sql_err : nat -> error;          (* the error of the statement run at n *)
  sql_now : nat -> Time;           (* NOW() in the statement run at n *)
  kv_err : nat -> error;           (* the error of the Redis command at n *)
  presign_put : nat -> string -> Z -> Result string;
  uuid_error : string -> string;   (* the text of uuid.Parse's error *)
  bcrypt_hash : nat -> string -> Result string;
  bcrypt_check : string -> string -> bool;
  jwt_sign : nat -> Claims -> Result string;
  jwt_validate : nat -> string -> option Claims;
  read_timeout : Z;                (* redis Options().ReadTimeout, in ns *)
  collate : string -> string -> bool  (* the text order of the database *)
}.

(** ** Sequencing *)

Definition SM (A : Type) : Type := Site -> A * Site.

Definition ret {A} (a : A) : SM A := fun s => (a, s).

Definition bind {A B} (m : SM A) (k : A -> SM B) : SM B :=
  fun s => let '(a, s1) := m s in k a s1.

(** A program of the pipeline, run on the world of the site. *)
Definition lift {A} (m : M A) : SM A :=
  fun s => let '(a, w1) := m (world s) in (a, with_world (fun _ => w1) s).

Declare Scope site_scope.
Delimit Scope site_scope with site.
Notation "x <- c1 ;; c2" := (bind c1 (fun x => c2))
  (at level 100, c1 at next level, right associativity) : site_scope.
Notation "c1 ;;; c2" := (bind c1 (fun _ => c2))
  (at level 100, right associativity) : site_scope.
Local Open Scope site_scope.

(** ** package redis, continued *)

Module redis.

(** [BRPop] with a timeout: the oldest item, at the tail of the list, is
    removed and returned; on an empty list the command times out and the
    client reports [redis.Nil].  The item is parsed after it was removed. *)
Definition DequeueTranscodeJob (env : SiteEnv) : SM (Result UUID) :=
  fun s =>
    match kv_err env (tick s) with
    | Some e => (Err e, call (CallBRPop false) s)
    | None =>
        match last (queue (world s)) with
        | None => (Err "redis: nil", call (CallBRPop false) s)
        | Some item =>
            let s1 :=
              call (CallBRPop true)
                   (with_world (set_queue (removelast (queue (world s)))) s) in
            match uuid_Parse (base env) item with
            | None =>
                (Err ("invalid film ID in queue: " +:+ uuid_error env item),
                 s1)
            | Some filmID => (Ok filmID, s1)
            end
        end
    end.

End redis.

(** ** package r2, continued *)

Module r2.


End r2.

(** ** package db, continued *)

Module db.

(** [UPDATE films SET published_at = NOW(), status = 'READY'
    WHERE id = $1 AND status = 'DRAFT'], on the transaction the handler
    opened, with the [Commit] or [Rollback] that follows. *)
Definition PublishFilm (env : SiteEnv) (id : UUID) : SM error :=
  fun s =>
    match sql_err env (tick s) with
    | Some e => (Some e, call (CallFilmPublish id false) s)
    | None =>
        match films (world s) !! id with
        | Some f =>
            if bool_decide (Film.Status f = StatusDraft) then
              (None,
               call (CallFilmPublish id true)
                 (set_published_at
                    (<[id := sql_now env (tick s)]> (published_at s))
                    (with_world
                       (fun w =>
                          set_films
                            (alter (db.set_film_status StatusReady) id
                                   (films w)) w)
                       s)))
            else (None, call (CallFilmPublish id true) s)
        | None => (None, call (CallFilmPublish id true) s)
        end
    end.


(** [ORDER BY quality DESC], in the text order of the database. *)
Definition quality_desc (env : SiteEnv) (a b : VideoAsset.t) : Prop :=
  collate env (VideoAsset.Quality b) (VideoAsset.Quality a) = true.

#[export] Instance quality_desc_dec env : RelDecision (quality_desc env).
Proof. intros a b. unfold quality_desc. apply _. Defined.


(** [ORDER BY published_at DESC NULLS LAST, created_at DESC]: does the
    row [a] come no later than the row [b]?  In descending order a NULL
    [created_at] comes first. *)
Definition desc_nulls_last (a b : option Time) : comparison :=
  match a, b with
  | Some x, Some y => y ?= x
  | Some _, None => Lt
  | None, Some _ => Gt
  | None, None => Eq
  end.

Definition desc_nulls_first (a b : option Time) : comparison :=
  match a, b with
  | Some x, Some y => y ?= x
  | Some _, None => Gt
  | None, Some _ => Lt
  | None, None => Eq
  end.

Definition listed_beforeb (s : Site) (a b : Film.t) : bool :=
  match desc_nulls_last (published_at s !! Film.ID a)
                        (published_at s !! Film.ID b) with
  | Lt => true
  | Gt => false
  | Eq =>
      match desc_nulls_first (created_at s !! Film.ID a)
                             (created_at s !! Film.ID b) with
      | Gt => false
      | _ => true
      end
  end.

Definition listed_before (s : Site) (a b : Film.t) : Prop :=
  listed_beforeb s a b = true.

#[export] Instance listed_before_dec s : RelDecision (listed_before s).
Proof. intros a b. unfold listed_before. apply _. Defined.

(** [SELECT ... FROM films ... WHERE ($1 = '' OR status = $1) ORDER BY ...
    LIMIT $2 OFFSET $3], scanned row by row by [SelectContext].  A negative
    [LIMIT] or [OFFSET] is an error of the statement; the first row that
    does not scan ([db.scan_film]) ends the call with its error.  Rows that
    tie in the order come as the sort leaves them. *)
Definition ListFilms (env : SiteEnv) (limit offset : Z) (status : string)
  : SM (Result (list Film.t)) :=
  fun s =>
    match sql_err env (tick s) with
    | Some e => (Err e, call (CallFilmList limit offset status false) s)
    | None =>
        if limit <? 0 then
          (Err "pq: LIMIT must not be negative",
           call (CallFilmList limit offset status false) s)
        else if offset <? 0 then
          (Err "pq: OFFSET must not be negative",
           call (CallFilmList limit offset status false) s)
        else
          let rows :=
            List.filter
              (fun f =>
                 bool_decide (status = "") ||
                 bool_decide (FilmStatus_string (Film.Status f) = status))
              (map_to_list (films (world s))).*2 in
          let sorted := merge_sort (listed_before s) rows in
          let page := take (Z.to_nat limit) (drop (Z.to_nat offset) sorted) in
          match head (omap db.scan_film page) with
          | Some e => (Err e, call (CallFilmList limit offset status false) s)
          | None => (Ok page, call (CallFilmList limit offset status true) s)
          end
    end.

(** The constraints of [users] an [INSERT] can violate: the primary key,
    [UNIQUE (email)] and the check on [role]. *)
Definition role_allowed (r : string) : bool :=
  bool_decide (r = "USER") || bool_decide (r = "CREATOR") ||
  bool_decide (r = "ADMIN").

Definition user_with_email (us : gmap string User.t) (email : string)
  : option User.t :=
  head (List.filter (fun u => bool_decide (User.Email u = email))
                    (map_to_list us).*2).

(** [INSERT INTO users (id, email, password_hash, role, name, avatar_url,
    bio)]. *)
Definition CreateUser (env : SiteEnv) (user : User.t) : SM error :=
  fun s =>
    let id := User.ID user in
    match sql_err env (tick s) with
    | Some e => (Some e, call (CallUserInsert id false) s)
    | None =>
        if bool_decide (users s !! id = None) &&
           bool_decide (user_with_email (users s) (User.Email user) = None) &&
           role_allowed (User.Role user)
        then
          (None,
           call (CallUserInsert id true)
                (set_users (<[id := user]> (users s)) s))
        else
          (Some "pq: constraint violation", call (CallUserInsert id false) s)
    end.

(** [SELECT * FROM users WHERE id = $1]. *)
Definition GetUserByID (env : SiteEnv) (id : UUID) : SM (Result User.t) :=
  fun s =>
    match sql_err env (tick s) with
    | Some e => (Err e, call (CallUserSelect id false) s)
    | None =>
        match users s !! id with
        | Some user => (Ok user, call (CallUserSelect id true) s)
        | None =>
            (Err "sql: no rows in result set",
             call (CallUserSelect id false) s)
        end
    end.

(** [SELECT * FROM users WHERE email = $1]. *)
Definition GetUserByEmail (env : SiteEnv) (email : string)
  : SM (Result User.t) :=
  fun s =>
    match sql_err env (tick s) with
    | Some e => (Err e, call (CallUserSelect email false) s)
    | None =>
        match user_with_email (users s) email with
        | Some user => (Ok user, call (CallUserSelect email true) s)
        | None =>
            (Err "sql: no rows in result set",
             call (CallUserSelect email false) s)
        end
    end.

End db.

(** ** package auth *)

Module auth.

Definition ErrInvalidCredentials : string := "invalid email or password".
Definition ErrInvalidToken : string := "invalid token".

(** [GenerateToken]: the claims of the user, signed. *)
Definition GenerateToken (env : SiteEnv) (user : User.t) : SM (Result string) :=
  fun s =>
    let claims :=
      mkClaims (User.ID user) (User.Email user) (User.Role user) in
    match jwt_sign env (tick s) claims with
    | Ok token => (Ok token, call (CallSign true) s)
    | Err e => (Err e, call (CallSign false) s)
    end.

(** [ValidateToken]: every failure is reported as [ErrInvalidToken]. *)
Definition ValidateToken (env : SiteEnv) (tokenString : string)
  : SM (Result Claims) :=
  fun s =>
    match jwt_validate env (tick s) tokenString with
    | Some claims => (Ok claims, s)
    | None => (Err ErrInvalidToken, s)
    end.

Definition HashPassword (env : SiteEnv) (password : string)
  : SM (Result string) :=
  fun s =>
    match bcrypt_hash env (tick s) password with
    | Ok hashedPassword => (Ok hashedPassword, call (CallHash true) s)
    | Err e => (Err e, call (CallHash false) s)
    end.

Definition CheckPassword (env : SiteEnv) (hashedPassword password : string)
  : error :=
  if bcrypt_check env hashedPassword password then None
  else Some "crypto/bcrypt: hashedPassword is not the hash of the given password".

Definition IsCreator (role : string) : bool :=
  bool_decide (role = RoleCreator) || bool_decide (role = RoleAdmin).

Definition IsAdmin (role : string) : bool :=
  bool_decide (role = RoleAdmin).

End auth.

(** ** package api, continued *)

Module api.

(** What the handlers read of [gin.Context]. *)
Record Ctx : Type := mkCtx {
  authorization : string;         (* the Authorization header, "" if absent *)
  param : string;                 (* the [:id] path parameter *)
  query : list (string * string); (* the URL query *)
  user_id : option UUID;          (* c.Get("user_id") *)
  user_role : option string       (* c.Get("user_role") *)
}.

(** What [c.JSON] is given: a [gin.H] map or one value. *)
Inductive JSON : Type :=
| JString (s : string)
| JNumber (n : Z)
| JDuration (d : Z)               (* a time.Duration, printed by String() *)
| JColumn (v : option string)     (* a text column of a row, as the row has it *)
| JFilms (l : list Film.t)
| JAssets (l : list VideoAsset.t)
| JUser (u : User.t).

Inductive Body : Type :=
| Fields (h : list (string * JSON))
| Whole (v : JSON)
| NoBody.

Record Reply : Type := mkReply {
  status : Z;
  payload : Body
}.

(** [c.JSON(code, gin.H{"error": msg})]. *)
Definition fail (code : Z) (msg : string) : Reply :=
  mkReply code (Fields [ ("error", JString msg) ]).

(** The answer of [gin.Recovery] to a panic in a handler. *)
Definition recovered : Reply := mkReply 500 NoBody.

(** A handler of a chain either answers and aborts the chain or passes the
    context on. *)
Inductive Step : Type :=
| Abort (r : Reply)
| Next (c : Ctx).

Definition space : Ascii.ascii := Ascii.ascii_of_nat 32.

Definition AuthMiddleware (env : SiteEnv) (c : Ctx) : SM Step :=
  let authHeader := authorization c in
  if bool_decide (authHeader = "") then
    ret (Abort (fail 401 "missing authorization header"))
  else
    match split_on space authHeader with
    | [ p0; p1 ] =>
        if negb (bool_decide (p0 = "Bearer")) then
          ret (Abort (fail 401 "invalid authorization format"))
        else
          r <- auth.ValidateToken env p1 ;;
          match r with
          | Err _ => ret (Abort (fail 401 "invalid token"))
          | Ok claims =>
              ret (Next (mkCtx (authorization c) (param c) (query c)
                               (Some (UserID claims))
                               (Some (ClaimRole claims))))
          end
    | _ => ret (Abort (fail 401 "invalid authorization format"))
    end.

Definition RequireCreator (c : Ctx) : Step :=
  match user_role c with
  | None => Abort (fail 401 "unauthorized")
  | Some userRole =>
      if negb (auth.IsCreator userRole) then
        Abort (fail 403 "creator access required")
      else Next c
  end.

Definition RequireAdmin (c : Ctx) : Step :=
  match user_role c with
  | None => Abort (fail 401 "unauthorized")
  | Some userRole =>
      if negb (auth.IsAdmin userRole) then
        Abort (fail 403 "admin access required")
      else Next c
  end.

(** The request as the handlers of the pipeline's part read it. *)
Definition request_of (c : Ctx) : api.Request :=
  api.mkRequest (param c) (user_id c).

(** [c.DefaultQuery(key, defaultValue)]. *)
Definition DefaultQuery (c : Ctx) (key defaultValue : string) : string :=
  match List.find (fun kv => bool_decide (kv.1 = key)) (query c) with
  | Some kv => kv.2
  | None => defaultValue
  end.

(** [strconv.Atoi] on a 64-bit platform, its value only; the error is
    dropped by the caller.  [ParseUint] reads the digits from the left: a
    character that is not a digit is a syntax error, with value 0, unless
    the digits before it already overflowed 64 bits, which is a range error
    reported when it happens.  [ParseInt] takes the sign off first and
    clamps the magnitude to the range of [int64]. *)
Definition MaxUint64 : Z := 18446744073709551615.
Definition MaxInt : Z := 9223372036854775807.
Definition MinInt : Z := -9223372036854775808.

Inductive NumError : Type := ErrSyntax | ErrRange.

Fixpoint ParseUint_from (n : Z) (s : string) : Z * option NumError :=
  match s with
  | EmptyString => (n, None)
  | String ch rest =>
      let d := Z.of_nat (Ascii.nat_of_ascii ch) - 48 in
      if (0 <=? d) && (d <=? 9) then
        if MaxUint64 `div` 10 + 1 <=? n then (MaxUint64, Some ErrRange)
        else
          let n1 := n * 10 + d in
          if MaxUint64 <? n1 then (MaxUint64, Some ErrRange)
          else ParseUint_from n1 rest
      else (0, Some ErrSyntax)
  end.

Definition ParseUint (s : string) : Z * option NumError :=
  match s with
  | EmptyString => (0, Some ErrSyntax)
  | _ => ParseUint_from 0 s
  end.

Definition ParseInt (s : string) : Z * option NumError :=
  match s with
  | EmptyString => (0, Some ErrSyntax)
  | String ch rest =>
      let neg := Ascii.eqb ch (Ascii.ascii_of_nat 45) in
      let digits :=
        if Ascii.eqb ch (Ascii.ascii_of_nat 43) || neg then rest else s in
      let '(un, err) := ParseUint digits in
      match err with
      | Some ErrSyntax => (0, err)
      | _ =>
          if negb neg && (MaxInt + 1 <=? un) then (MaxInt, Some ErrRange)
          else if neg && (MaxInt + 1 <? un) then (MinInt, Some ErrRange)
          else (if neg then - un else un, None)
      end
  end.

Definition Atoi (s : string) : Z := (ParseInt s).1.

(** Arithmetic on [int] wraps around. *)
Definition wrap_int (z : Z) : Z :=
  (z - MinInt) `mod` 18446744073709551616 + MinInt.

Definition ListFilms (env : SiteEnv) (c : Ctx) : SM Reply :=
  let page := Atoi (DefaultQuery c "page" "1") in
  let limit := Atoi (DefaultQuery c "limit" "20") in
  let statusStr := DefaultQuery c "status" "" in
  let page := if page <? 1 then 1 else page in
  let limit := if (limit <? 1) || (100 <? limit) then 20 else limit in
  let offset := wrap_int (wrap_int (page - 1) * limit) in
  let status := if bool_decide (statusStr = "READY")
                then FilmStatus_string StatusReady else "" in
  r <- db.ListFilms env limit offset status ;;
  match r with
  | Err _ => ret (fail 500 "failed to retrieve films")
  | Ok films =>
      ret (mkReply 200
             (Fields [ ("films", JFilms films); ("page", JNumber page);
                        ("limit", JNumber limit) ]))
  end.


Definition PublishFilm (env : SiteEnv) (c : Ctx) : SM Reply :=
  match uuid_Parse (base env) (param c) with
  | None => ret (fail 400 "invalid film ID")
  | Some filmID =>
  r <- lift (db.GetFilmByID (base env) filmID) ;;
  match r with
  | Err _ => ret (fail 404 "film not found")
  | Ok film =>
  let userID := api.GetUserID (request_of c) in
  if negb (bool_decide (Film.CreatedByID film = userID)) then
    ret (fail 403 "not authorized")
  else
  if negb (bool_decide (Film.Status film = StatusReady)) then
    ret (fail 400 "film must be in READY status to publish")
  else
  (* tx, _ := BeginTx: with an error [tx] is nil, [PublishFilm] panics in
     [tx.ExecContext] and the handler is left there *)
  txErr <- lift (db.BeginTx (base env)) ;;
  match txErr with
  | Some _ => ret recovered
  | None =>
  err <- db.PublishFilm env filmID ;;
  match err with
  | Some _ => ret (fail 500 "failed to publish film")
  | None =>
      ret (mkReply 200
             (Fields [ ("message", JString "Film published successfully") ]))
  end end end end.


(** *** handlers_auth.go *)

Record RegisterRequest : Type := mkRegisterRequest {
  RegEmail : string;
  RegPassword : string;
  RegName : string;
  RegRole : string
}.

Record LoginRequest : Type := mkLoginRequest {
  LoginEmail : string;
  LoginPassword : string
}.

Definition newUUID (env : SiteEnv) : SM string :=
  fun s => (uuid_New (base env) (tick s), s).

(** The user as the response shows it: [user.PasswordHash = ""]. *)
Definition without_hash (u : User.t) : User.t :=
  User.mk (User.ID u) (User.Email u) "" (User.Role u) (User.Name u)
          (User.AvatarURL u) (User.Bio u).

Definition auth_response (code : Z) (token : string) (user : User.t) : Reply :=
  mkReply code (Fields [ ("token", JString token);
                          ("user", JUser (without_hash user)) ]).

(** [bound] is the outcome of [c.ShouldBindJSON(&req)]. *)
Definition Register (env : SiteEnv) (bound : Result RegisterRequest)
  : SM Reply :=
  match bound with
  | Err e => ret (fail 400 e)
  | Ok req =>
  r <- db.GetUserByEmail env (RegEmail req) ;;
  match r with
  | Ok _ => ret (fail 409 "email already registered")
  | Err _ =>
  r <- auth.HashPassword env (RegPassword req) ;;
  match r with
  | Err _ => ret (fail 500 "failed to process password")
  | Ok hashedPassword =>
  let role :=
    if bool_decide (RegRole req = "CREATOR") ||
       bool_decide (RegRole req = "ADMIN")
    then RegRole req else RoleUser in
  id <- newUUID env ;;
  let user := User.mk id (RegEmail req) hashedPassword role (RegName req)
                      "" "" in
  err <- db.CreateUser env user ;;
  match err with
  | Some _ => ret (fail 500 "failed to create user")
  | None =>
  r <- auth.GenerateToken env user ;;
  match r with
  | Err _ => ret (fail 500 "failed to generate token")
  | Ok token => ret (auth_response 201 token user)
  end end end end end.

Definition Login (env : SiteEnv) (bound : Result LoginRequest) : SM Reply :=
  match bound with
  | Err e => ret (fail 400 e)
  | Ok req =>
  r <- db.GetUserByEmail env (LoginEmail req) ;;
  match r with
  | Err _ => ret (fail 401 auth.ErrInvalidCredentials)
  | Ok user =>
  match auth.CheckPassword env (User.PasswordHash user) (LoginPassword req) with
  | Some _ => ret (fail 401 auth.ErrInvalidCredentials)
  | None =>
  r <- auth.GenerateToken env user ;;
  match r with
  | Err _ => ret (fail 500 "failed to generate token")
  | Ok token => ret (auth_response 200 token user)
  end end end end.

Definition GetMe (env : SiteEnv) (c : Ctx) : SM Reply :=
  match user_id c with
  | None => ret (fail 401 "unauthorized")
  | Some userID =>
      r <- db.GetUserByID env userID ;;
      match r with
      | Err _ => ret (fail 404 "user not found")
      | Ok user => ret (mkReply 200 (Whole (JUser (without_hash user))))
      end
  end.

End api.

(** ** The routes of the server ([main], backend) *)

Module server.

(** A route of the group [protected.Group("/films")]: [AuthMiddleware],
    then [RequireCreator], then the handler. *)
Definition films_route (env : SiteEnv)
    (handler : SiteEnv -> api.Ctx -> SM api.Reply) (c : api.Ctx)
  : SM api.Reply :=
  r <- api.AuthMiddleware env c ;;
  match r with
  | api.Abort reply => ret reply
  | api.Next c1 =>
      match api.RequireCreator c1 with
      | api.Abort reply => ret reply
      | api.Next c2 => handler env c2
      end
  end.

(** [protected.GET("/auth/me", authHandler.GetMe)]. *)
Definition me_route (env : SiteEnv) (c : api.Ctx) : SM api.Reply :=
  r <- api.AuthMiddleware env c ;;
  match r with
  | api.Abort reply => ret reply
  | api.Next c1 => api.GetMe env c1
  end.

End server.

(** ** The loop of the worker ([main], worker) *)

Module worker.

(** One turn of the loop when the context is not done. *)
Definition workerLoop_turn (env : SiteEnv) (Qualities : list QualityLevel)
  : SM unit :=
  r <- redis.DequeueTranscodeJob env ;;
  match r with
  | Err _ => ret tt
  | Ok filmID =>
      if bool_decide (filmID = api.uuid_Nil) then ret tt
      else
        lift (jobs.ProcessJob (base env) Qualities filmID) ;;;
        ret tt
  end.

(** [workerLoop], cancelled after [n] turns.  The loop has no [recover]: a
    run that panics, as [ProcessJob] does on a transaction that did not
    open, ends the worker.  The turns here are those of a worker whose runs
    return, which they do when the database answers. *)
Fixpoint workerLoop (env : SiteEnv) (Qualities : list QualityLevel) (n : nat)
  : SM unit :=
  match n with
  | O => ret tt
  | Datatypes.S n' =>
      workerLoop_turn env Qualities ;;;
      workerLoop env Qualities n'
  end.

End worker.

(** ** Sample data *)

Module sample.

Definition site_of (w : World) : Site := mkSite w ∅ ∅ ∅ ∅ [].

(** Every collaborator works. *)
Definition env_ok : SiteEnv :=
  mkSiteEnv sample.env_ok (fun _ => None) (fun n => 2000 + Z.of_nat n)
            (fun _ => None)
            (fun _ key _ => Ok ("https://r2.example/" +:+ key +:+ "?X-Amz-Signature=5e7"))
            (fun _ => "invalid UUID format")
            (fun _ pw => Ok ("$2a$10$" +:+ pw))
            (fun h pw => bool_decide (h = "$2a$10$" +:+ pw))
            (fun _ c => Ok ("jwt." +:+ UserID c +:+ "." +:+ ClaimRole c))
            (fun _ t =>
               if bool_decide (t = "jwt.creator")
               then Some (mkClaims sample.uid "ana@example.org" "CREATOR")
               else None)
            3000000000
            (fun a b => String.leb a b).

End sample.

End site.

(** ** The queue, end to end *)

(** [DequeueTranscodeJob], [n] times; the results in order. *)
Fixpoint dequeue_n (env : site.SiteEnv) (n : nat)
  : site.SM (list (Result UUID)) :=
  match n with
  | O => site.ret []
  | S n' =>
      site.bind (site.redis.DequeueTranscodeJob env)
        (fun r => site.bind (dequeue_n env n')
                    (fun rs => site.ret (r :: rs)))
  end.

(** * Properties *)

Import jobs.

(** ** Relations every step of a run preserves *)

Section Preserves.
Context (R : World -> World -> Prop).
Hypothesis R_refl : forall w, R w w.
Hypothesis R_trans : forall w1 w2 w3, R w1 w2 -> R w2 w3 -> R w1 w3.

Lemma preserves_ret {A} (a : A) : preserves R (ret a).
  Proof. intros w. apply R_refl. Qed.

Lemma preserves_bind {A B} (m : M A) (k : A -> M B) :
    preserves R m -> (forall a, preserves R (k a)) -> preserves R (bind m k).
  Proof.
    intros Hm Hk w. unfold bind.
    specialize (Hm w). destruct (m w) as [a w1]. simpl in *.
    eapply R_trans; [exact Hm | apply Hk].
  Qed.
End Preserves.

(** The external calls, unfolded down to [emit] and the setters. *)
Ltac unfold_calls :=
  unfold db.UpdateTranscodeJobStatus, db.UpdateFilmHLS, db.UpdateFilmStatus,
    db.GetFilmByID, db.CreateTranscodeJob, r2.DownloadOriginalVideo,
    r2.DownloadFile, r2.UploadHLSFile, r2.UploadFile, ffmpeg.GetVideoInfo,
    ffmpeg.TranscodeToHLS, ffmpeg.GenerateThumbnail, ffmpeg.readIndexFile,
    redis.SetFilmStatus, redis.EnqueueTranscodeJob.

(** Splits a program along its [bind]s and [match]es; [leaf] proves the
    goal for one external call applied to a world. *)
Ltac preserves_walk Hrefl Htrans leaf :=
  repeat first
    [ apply (preserves_ret _ Hrefl)
    | apply (preserves_bind _ Htrans); [ | intros ? ]
    | match goal with
      | |- preserves _ (match ?x with _ => _ end) => destruct x
      | |- preserves _ (if ?x then _ else _) => destruct x
      end
    | assumption
    | (intros ?w; unfold_calls; repeat case_match; simpl; leaf) ].

(** *** No run touches [video_assets] *)

Lemma same_assets_refl w : same_assets w w.
Proof. reflexivity. Qed.

Lemma same_assets_trans w1 w2 w3 :
  same_assets w1 w2 -> same_assets w2 w3 -> same_assets w1 w3.
Proof. unfold same_assets. congruence. Qed.

Lemma markFailed_same_assets env fid msg :
  preserves same_assets (markFailed env fid msg).
Proof.
  unfold markFailed.
  preserves_walk same_assets_refl same_assets_trans ltac:(reflexivity).
Qed.

Lemma transcodeLoop_same_assets env fid data nQ qs :
  forall i done, preserves same_assets (transcodeLoop env fid data nQ i qs done).
Proof.
  induction qs as [|q qs IH]; intros i done; simpl.
  - apply (preserves_ret _ same_assets_refl).
  - pose proof (markFailed_same_assets env fid) as HmF.
    unfold uploadHLSFiles.
    preserves_walk same_assets_refl same_assets_trans ltac:(reflexivity).
    all: try apply HmF; try apply IH.
Qed.

Lemma ProcessJob_same_assets env Q fid :
  preserves same_assets (ProcessJob env Q fid).
Proof.
  pose proof (markFailed_same_assets env fid) as HmF.
  pose proof (transcodeLoop_same_assets env fid) as HL.
  unfold ProcessJob.
  preserves_walk same_assets_refl same_assets_trans ltac:(reflexivity).
  all: try apply HmF; try apply HL.
Qed.

(** *** A run only updates the job row whose [id] is the id it was given *)

Lemma same_other_jobs_refl fid w : same_other_jobs fid w w.
Proof. intros id _. reflexivity. Qed.

Lemma same_other_jobs_trans fid w1 w2 w3 :
  same_other_jobs fid w1 w2 -> same_other_jobs fid w2 w3 ->
  same_other_jobs fid w1 w3.
Proof. intros H12 H23 id Hid. rewrite H23, H12; auto. Qed.

Ltac other_jobs_leaf :=
  intros ? ?; simpl; rewrite ?lookup_alter_ne by congruence; reflexivity.

Lemma markFailed_same_other_jobs env fid msg :
  preserves (same_other_jobs fid) (markFailed env fid msg).
Proof.
  unfold markFailed.
  preserves_walk (same_other_jobs_refl fid) (same_other_jobs_trans fid)
                 other_jobs_leaf.
Qed.

Lemma transcodeLoop_same_other_jobs env fid data nQ qs :
  forall i done,
    preserves (same_other_jobs fid) (transcodeLoop env fid data nQ i qs done).
Proof.
  induction qs as [|q qs IH]; intros i done; simpl.
  - apply (preserves_ret _ (same_other_jobs_refl fid)).
  - pose proof (markFailed_same_other_jobs env fid) as HmF.
    unfold uploadHLSFiles.
    preserves_walk (same_other_jobs_refl fid) (same_other_jobs_trans fid)
                   other_jobs_leaf.
    all: try apply HmF; try apply IH.
Qed.

Lemma ProcessJob_same_other_jobs env Q fid :
  preserves (same_other_jobs fid) (ProcessJob env Q fid).
Proof.
  pose proof (markFailed_same_other_jobs env fid) as HmF.
  pose proof (transcodeLoop_same_other_jobs env fid) as HL.
  unfold ProcessJob.
  preserves_walk (same_other_jobs_refl fid) (same_other_jobs_trans fid)
                 other_jobs_leaf.
  all: try apply HmF; try apply HL.
Qed.

(** *** A run only adds events *)

Lemma extends_trace_refl w : extends_trace w w.
Proof. exists []. reflexivity. Qed.

Lemma extends_trace_trans w1 w2 w3 :
  extends_trace w1 w2 -> extends_trace w2 w3 -> extends_trace w1 w3.
Proof.
  intros [e1 H1] [e2 H2]. exists (e2 ++ e1).
  rewrite H2, H1. apply app_assoc.
Qed.

Ltac extends_leaf := eexists [_]; reflexivity.

Lemma markFailed_extends_trace env fid msg :
  preserves extends_trace (markFailed env fid msg).
Proof.
  unfold markFailed.
  preserves_walk extends_trace_refl extends_trace_trans extends_leaf.
Qed.

Lemma transcodeLoop_extends_trace env fid data nQ qs :
  forall i done,
    preserves extends_trace (transcodeLoop env fid data nQ i qs done).
Proof.
  induction qs as [|q qs IH]; intros i done; simpl.
  - apply (preserves_ret _ extends_trace_refl).
  - pose proof (markFailed_extends_trace env fid) as HmF.
    unfold uploadHLSFiles.
    preserves_walk extends_trace_refl extends_trace_trans extends_leaf.
    all: try apply HmF; try apply IH.
Qed.

Lemma bind_eq {A B} (m : M A) (k : A -> M B) w :
  bind m k w = let '(a, w1) := m w in k a w1.
Proof. reflexivity. Qed.

(** The first thing [ProcessJob] does is the statement that sets
    [TRANSCODING] and progress 10; when the statement fails it is the only
    thing, and the stores are as they were. *)
Lemma ProcessJob_first_step env Q fid w :
  let r := ProcessJob env Q fid w in
  exists evs,
    trace r.2 =
      evs ++ EvJobUpdate fid StatusTranscoding 10 ""
                         (is_nil (db_err env (step w))) :: trace w /\
    forall e, db_err env (step w) = Some e ->
      evs = [] /\
      r.1 = Some ("failed to update job status: " +:+ e) /\
      transcode_jobs r.2 = transcode_jobs w /\ films r.2 = films w /\
      bucket r.2 = bucket w /\ cache r.2 = cache w /\ queue r.2 = queue w.
Proof.
  pose proof (markFailed_extends_trace env fid) as HmF.
  pose proof (transcodeLoop_extends_trace env fid) as HL.
  unfold ProcessJob. cbv zeta. rewrite bind_eq.
  destruct (db.UpdateTranscodeJobStatus env fid StatusTranscoding 10 "" w)
    as [err w1] eqn:Hup.
  unfold db.UpdateTranscodeJobStatus in Hup.
  rewrite andb_false_r in Hup. cbn [db.fits_integer negb orb] in Hup.
  change (negb ((-2147483648 <=? 10) && (10 <=? 2147483647)) || false)
    with false in Hup.
  destruct (db_err env (step w)) as [e|] eqn:Hdb;
    injection Hup as <- <-.
  - exists []. split; [reflexivity|].
    intros e' [= <-]. repeat split; reflexivity.
  - match goal with
    | |- context [ @bind ?A ?B ?m ?k ?w1 ] =>
        assert (preserves extends_trace (@bind A B m k)) as Hrest;
        [ | destruct (Hrest w1) as [evs Hevs] ]
    end.
    { preserves_walk extends_trace_refl extends_trace_trans extends_leaf.
      all: try apply HmF; try apply HL. }
    exists evs. split; [exact Hevs | intros e' [=]].
Qed.

(** *** The job row a run addresses stays in the table *)

Lemma job_kept_refl fid w : job_kept fid w w.
Proof. intros j Hj. exists j. auto. Qed.

Lemma job_kept_trans fid w1 w2 w3 :
  job_kept fid w1 w2 -> job_kept fid w2 w3 -> job_kept fid w1 w3.
Proof.
  intros H12 H23 j Hj.
  destruct (H12 j Hj) as (j2 & Hj2 & ? & ? & ?).
  destruct (H23 j2 Hj2) as (j3 & Hj3 & ? & ? & ?).
  exists j3. repeat split; congruence.
Qed.

Ltac job_kept_leaf :=
  intros ?j ?Hj; simpl; rewrite ?lookup_alter_eq;
  match goal with H : _ !! _ = Some _ |- _ => rewrite H end;
  simpl; eexists; split; [reflexivity | auto].

Lemma markFailed_job_kept env fid msg :
  preserves (job_kept fid) (markFailed env fid msg).
Proof.
  unfold markFailed.
  preserves_walk (job_kept_refl fid) (job_kept_trans fid) job_kept_leaf.
Qed.

Lemma transcodeLoop_job_kept env fid data nQ qs :
  forall i done,
    preserves (job_kept fid) (transcodeLoop env fid data nQ i qs done).
Proof.
  induction qs as [|q qs IH]; intros i done; simpl.
  - apply (preserves_ret _ (job_kept_refl fid)).
  - pose proof (markFailed_job_kept env fid) as HmF.
    unfold uploadHLSFiles.
    preserves_walk (job_kept_refl fid) (job_kept_trans fid) job_kept_leaf.
    all: try apply HmF; try apply IH.
Qed.

Lemma ProcessJob_job_kept env Q fid :
  preserves (job_kept fid) (ProcessJob env Q fid).
Proof.
  pose proof (markFailed_job_kept env fid) as HmF.
  pose proof (transcodeLoop_job_kept env fid) as HL.
  unfold ProcessJob.
  preserves_walk (job_kept_refl fid) (job_kept_trans fid) job_kept_leaf.
  all: try apply HmF; try apply HL.
Qed.

Lemma step_emit e w : step (emit e w) = S (step w).
Proof. reflexivity. Qed.

Lemma step_set_transcode_jobs j w : step (set_transcode_jobs j w) = step w.
Proof. reflexivity. Qed.

Lemma step_set_bucket b w : step (set_bucket b w) = step w.
Proof. reflexivity. Qed.

Lemma step_set_films f w : step (set_films f w) = step w.
Proof. reflexivity. Qed.

(** ** Runs in which the collaborators work *)

Section AllOk.
Context (env : Env) (fid : string).
Hypothesis db_ok : forall n, db_err env n = None.
Hypothesis r2_ok : forall n, r2_err env n = None.

Lemma UpdateTranscodeJobStatus_ok st p msg w :
  db.job_status_allowed st = true ->
  db.fits_integer p = true ->
  db.UpdateTranscodeJobStatus env fid st p msg w =
    (None,
     emit (EvJobUpdate fid st p msg true)
       (set_transcode_jobs
          (alter (db.update_job_row st p msg
                    (bool_decide (st = StatusTranscoding))
                    (bool_decide (st = StatusReady) ||
                     bool_decide (st = StatusFailed))
                    (db_now env (step w)))
                 fid (transcode_jobs w)) w)).
Proof.
  intros Hst Hp. unfold db.UpdateTranscodeJobStatus.
  rewrite db_ok, Hst, Hp, andb_false_r. reflexivity.
Qed.

Lemma UploadFile_ok key data ct w :
  r2.UploadFile env key data ct w =
    (None,
     emit (EvUpload key data ct true)
          (set_bucket (<[key := mkObject data ct]> (bucket w)) w)).
Proof. unfold r2.UploadFile. rewrite r2_ok. reflexivity. Qed.

Lemma UpdateFilmHLS_ok murl turl w :
  db.UpdateFilmHLS env fid murl turl w =
    (None,
     emit (EvFilmHLS fid murl turl true)
          (set_films (alter (db.set_film_hls murl turl) fid (films w)) w)).
Proof. unfold db.UpdateFilmHLS. rewrite db_ok. reflexivity. Qed.

Lemma UploadHLSFile_index q data :
  r2.UploadHLSFile env fid q "index.m3u8" data =
  r2.UploadFile env
    (r2.HLSPath +:+ "/" +:+ fid +:+ "/" +:+ q +:+ "/" +:+ "index.m3u8")
    data "application/x-mpegURL".
Proof. reflexivity. Qed.

Lemma tier_progress_fits nQ i :
  0 <= i -> i + 1 <= nQ ->
  db.fits_integer (20 + (i + 1) * (60 `quot` nQ)) = true.
Proof.
  intros Hi Hn.
  assert (0 <= 60 `quot` nQ) as Hq by (apply Z.quot_pos; lia).
  assert (nQ * (60 `quot` nQ) <= 60) as Hle.
  { rewrite Z.quot_div_nonneg by lia. apply Z.mul_div_le. lia. }
  unfold db.fits_integer. apply andb_true_intro. split.
  - apply Z.leb_le. nia.
  - apply Z.leb_le. nia.
Qed.

Lemma transcodeLoop_ok data nQ :
  (forall n q, ffmpeg_hls env n data fid q = None) ->
  forall qs i done w,
    0 <= i -> i + Z.of_nat (length qs) <= nQ ->
    exists w',
      transcodeLoop env fid data nQ i qs done w = (Ok (done ++ map Name qs), w') /\
      trace w' = rev (tier_events fid nQ i qs) ++ trace w /\
      films w' = films w /\ cache w' = cache w /\ queue w' = queue w.
Proof.
  intros Hhls. induction qs as [|q qs IH]; intros i done w Hi Hlen.
  - exists w. simpl. rewrite app_nil_r. auto.
  - cbn [transcodeLoop]. rewrite bind_eq.
    unfold ffmpeg.TranscodeToHLS, ffmpeg.readIndexFile. rewrite Hhls.
    cbv beta iota zeta. cbn [IndexData].
    rewrite bind_eq. unfold uploadHLSFiles. rewrite bind_eq.
    rewrite UploadHLSFile_index, UploadFile_ok.
    cbv beta iota zeta. unfold ret at 1. rewrite bind_eq.
    rewrite UpdateTranscodeJobStatus_ok;
      [ | reflexivity | apply tier_progress_fits; simpl length in Hlen; lia ].
    cbv beta iota zeta.
    match goal with |- context [transcodeLoop _ _ _ _ _ _ _ ?w1] =>
      destruct (IH (i + 1) (done ++ [Name q]) w1) as (w' & Hrun & Htr & Hf & Hc & Hq);
        [ lia | simpl length in Hlen; lia | ]
    end.
    exists w'. rewrite Hrun. split.
    { rewrite <- app_assoc. reflexivity. }
    rewrite Htr, Hf, Hc, Hq. cbn [tier_events trace films cache queue emit set_bucket set_transcode_jobs].
    split; [|auto].
    rewrite rev_app_distr. simpl. rewrite <- !app_assoc. reflexivity.
Qed.

Lemma ProcessJob_ok Q w src info :
  bucket w !! (r2.OriginalPath +:+ "/" +:+ fid +:+ "/source.mp4") = Some src ->
  (forall n, ffmpeg_probe env n (Body src) = Ok info) ->
  (forall n q, ffmpeg_hls env n (Body src) fid q = None) ->
  exists w' b,
    ProcessJob env Q fid w = (None, w') /\
    trace w' =
      rev (ok_events env fid Q
             (ffmpeg_thumbnail env (4 + step w)%nat (Body src)
                               (Duration info)) b)
      ++ trace w /\
    films w' =
      alter (db.set_film_hls (r2.GetHLSMasterURL env fid)
                             (r2.GetThumbnailURL env fid)) fid (films w) /\
    bucket w' !! (r2.HLSPath +:+ "/" +:+ fid +:+ "/master.m3u8") =
      Some (mkObject (master_manifest fid Q) "application/x-mpegURL") /\
    (forall j', transcode_jobs w' !! fid = Some j' ->
       TranscodeJob.Status j' = StatusReady /\
       TranscodeJob.Progress j' = 100 /\
       TranscodeJob.Error j' = Some "" /\
       is_Some (TranscodeJob.CompletedAt j')).
Proof.
  intros Hsrc Hprobe Hhls.
  unfold ProcessJob. rewrite bind_eq.
  rewrite UpdateTranscodeJobStatus_ok by reflexivity. cbv beta iota zeta.
  rewrite bind_eq. unfold r2.DownloadOriginalVideo, r2.DownloadFile.
  rewrite r2_ok. cbn [bucket emit set_transcode_jobs]. rewrite Hsrc.
  cbv beta iota zeta. rewrite bind_eq. unfold ffmpeg.GetVideoInfo.
  rewrite Hprobe. cbv beta iota zeta. rewrite bind_eq.
  rewrite UpdateTranscodeJobStatus_ok by reflexivity. cbv beta iota zeta.
  rewrite bind_eq. unfold ffmpeg.GenerateThumbnail.
  repeat (rewrite step_emit || rewrite step_set_transcode_jobs).
  change (S (S (S (S (step w))))) with (4 + step w)%nat.
  destruct (ffmpeg_thumbnail env (4 + step w)%nat (Body src) (Duration info))
    as [img|e]; cbv beta iota zeta; rewrite bind_eq.
  1: rewrite bind_eq, UploadFile_ok; cbv beta iota zeta.
  all: unfold ret at 1; cbv beta iota zeta; rewrite bind_eq.
  all: match goal with |- context [transcodeLoop _ _ _ _ _ _ _ ?w1] =>
         destruct (transcodeLoop_ok (Body src) (Z.of_nat (length Q)) Hhls
                                    Q 0 [] w1)
           as (wl & Hrun & Htr & Hf & Hc & Hq); [ lia | lia | ]
       end.
  all: rewrite Hrun; cbv beta iota zeta; rewrite app_nil_l.
  all: unfold ffmpeg.GenerateMasterPlaylist; cbv beta iota zeta.
  all: rewrite bind_eq, UploadFile_ok; cbv beta iota zeta.
  all: rewrite bind_eq, UpdateFilmHLS_ok; cbv beta iota zeta.
  all: rewrite bind_eq, UpdateTranscodeJobStatus_ok by reflexivity.
  all: cbv beta iota zeta; rewrite bind_eq; unfold redis.SetFilmStatus.
  all: match goal with |- context [redis_err env ?n] =>
         destruct (redis_err env n)
       end.
  all: do 2 eexists.
  all: cbv beta iota zeta; unfold ret.
  all: (split; [reflexivity|]).
  all: cbn [trace films bucket transcode_jobs emit set_films set_bucket
            set_transcode_jobs set_cache].
  all: rewrite Htr, Hf.
  all: cbn [trace films bucket transcode_jobs emit set_films set_bucket
            set_transcode_jobs set_cache].
  all: unfold ok_events, master_manifest, ffmpeg.GenerateMasterPlaylist,
         thumb_events, is_nil.
  all: repeat split.
  all: try (rewrite !rev_app_distr; simpl; rewrite <- ?app_assoc; reflexivity).
  all: try apply lookup_insert_eq.
  all: rewrite lookup_alter_eq in *.
  all: match goal with H : _ <$> ?x = Some _ |- _ =>
         destruct x; simpl in H; [injection H as <- | discriminate H]
       end.
  all: simpl; eauto.
Qed.

End AllOk.

(** ** What the events of a successful run contain *)

Lemma job_updates_app a b : job_updates (a ++ b) = job_updates a ++ job_updates b.
Proof. apply omap_app. Qed.

Lemma uploads_app a b : uploads (a ++ b) = uploads a ++ uploads b.
Proof. apply omap_app. Qed.

Lemma job_updates_tier_events fid nQ qs :
  forall i, job_updates (tier_events fid nQ i qs) = tier_updates nQ i qs.
Proof.
  induction qs as [|q qs IH]; intros i; [reflexivity|].
  cbn [tier_events tier_updates]. rewrite job_updates_app, IH. reflexivity.
Qed.

Lemma uploads_tier_events fid nQ qs :
  forall i,
    uploads (tier_events fid nQ i qs) =
    map (fun q => (index_key fid q, ffmpeg.index_playlist)) qs.
Proof.
  induction qs as [|q qs IH]; intros i; [reflexivity|].
  cbn [tier_events map]. rewrite uploads_app, IH. reflexivity.
Qed.

Lemma job_updates_thumb_events fid tr : job_updates (thumb_events fid tr) = [].
Proof. destruct tr; reflexivity. Qed.

Lemma job_updates_ok_events env fid Q tr b :
  job_updates (ok_events env fid Q tr b) =
  [ (StatusTranscoding, 10); (StatusTranscoding, 20) ]
  ++ tier_updates (Z.of_nat (length Q)) 0 Q ++ [ (StatusReady, 100) ].
Proof.
  unfold ok_events.
  rewrite !job_updates_app, job_updates_thumb_events, job_updates_tier_events.
  reflexivity.
Qed.

Lemma uploads_ok_events env fid Q tr b :
  uploads (ok_events env fid Q tr b) =
  match tr with Ok img => [ (thumbnail_key fid, img) ] | Err _ => [] end
  ++ map (fun q => (index_key fid q, ffmpeg.index_playlist)) Q
  ++ [ (master_key fid, master_manifest fid Q) ].
Proof.
  unfold ok_events.
  rewrite !uploads_app, uploads_tier_events. destruct tr; reflexivity.
Qed.




(** Closes the hypotheses of a statement instantiated on the sample data. *)
Ltac by_evaluation := repeat split; intros; vm_compute; reflexivity.


(** ** Progress along a run *)

Lemma hoare_ret {A} (P Q : World -> Prop) (a : A) :
  (forall w, P w -> Q w) -> hoare P (ret a) Q.
Proof. intros H w Hw. apply H, Hw. Qed.

Lemma hoare_bind {A B} (P Q R : World -> Prop) (m : M A) (k : A -> M B) :
  hoare P m Q -> (forall a, hoare Q (k a) R) -> hoare P (bind m k) R.
Proof.
  intros Hm Hk w Hw. unfold bind.
  specialize (Hm w Hw). destruct (m w) as [a w1]. apply (Hk a w1 Hm).
Qed.

Lemma hoare_post {A} (P Q Q' : World -> Prop) (m : M A) :
  hoare P m Q -> (forall w, Q w -> Q' w) -> hoare P m Q'.
Proof. intros H HQ w Hw. apply HQ, H, Hw. Qed.

Lemma StronglySorted_snoc (l : list Z) (x : Z) :
  StronglySorted Z.le l -> Forall (fun y => y <= x) l ->
  StronglySorted Z.le (l ++ [x]).
Proof.
  induction 1 as [|a l Hl IH Ha]; intros Hx; simpl.
  - repeat constructor.
  - inversion Hx; subst. constructor; [auto|].
    apply Forall_app. split; [exact Ha|]. repeat constructor. assumption.
Qed.

Lemma quot_60_nonneg n : 0 <= n -> 0 <= 60 `quot` n.
Proof.
  intros Hn. destruct (decide (n = 0)) as [->|Hne]; [reflexivity|].
  apply Z.quot_pos; lia.
Qed.

Section ProgressInvariant.
Context (t0 : list Event).
Abbreviation Inv := (Inv t0).

Lemma Inv_mono h h' w : h <= h' -> Inv h w -> Inv h' w.
Proof.
  intros Hh (evs & Ht & Hs & Hb & Hf). exists evs. repeat split; auto.
  eapply Forall_impl; [exact Hb|]. intros y Hy. simpl in *. lia.
Qed.

Lemma Inv_keep h w w' e :
  Inv h w -> trace w' = e :: trace w -> job_update_of e = None -> Inv h w'.
Proof.
  intros (evs & Ht & Hs & Hb & Hf) Ht' He. exists (evs ++ [e]).
  unfold progress_log_unfailed, job_updates in *.
  rewrite omap_app. simpl. rewrite He, app_nil_r.
  repeat split; auto.
  rewrite Ht', Ht, rev_app_distr. reflexivity.
Qed.

Lemma Inv_failed h w w' id msg :
  Inv h w ->
  trace w' = EvJobUpdate id StatusFailed 0 msg true :: trace w ->
  Inv h w'.
Proof.
  intros (evs & Ht & Hs & Hb & Hf) Ht'.
  exists (evs ++ [EvJobUpdate id StatusFailed 0 msg true]).
  unfold progress_log_unfailed, job_updates in *.
  rewrite omap_app. simpl. rewrite List.filter_app. simpl. rewrite app_nil_r.
  repeat split; auto.
  - rewrite Ht', Ht, rev_app_distr. reflexivity.
  - apply Forall_app. split; [exact Hf|]. repeat constructor.
Qed.

Lemma Inv_push h w w' id st p msg :
  Inv h w -> st <> StatusFailed -> h <= p ->
  trace w' = EvJobUpdate id st p msg true :: trace w ->
  Inv p w'.
Proof.
  intros (evs & Ht & Hs & Hb & Hf) Hst Hp Ht'.
  exists (evs ++ [EvJobUpdate id st p msg true]).
  unfold progress_log_unfailed, job_updates in *.
  assert (not_failed (st, p) = true) as Hnf.
  { unfold not_failed. simpl. rewrite bool_decide_eq_false_2 by exact Hst.
    reflexivity. }
  rewrite omap_app. simpl. rewrite List.filter_app. simpl.
  rewrite Hnf, map_app. simpl.
  assert (Forall (fun y => y <= p)
            (map snd (List.filter not_failed (omap job_update_of evs)))) as Hb'.
  { eapply Forall_impl; [exact Hb|]. intros y Hy. simpl in *. lia. }
  repeat split.
  - rewrite Ht', Ht, rev_app_distr. reflexivity.
  - apply StronglySorted_snoc; assumption.
  - apply Forall_app. split; [exact Hb'|]. repeat constructor. simpl. lia.
  - apply Forall_app. split; [exact Hf|]. repeat constructor.
    simpl. intros ?. congruence.
Qed.

(** A call that is not a job-status statement keeps the invariant. *)
Ltac keeps_inv :=
  let w := fresh "w" in
  let Hw := fresh "Hw" in
  match goal with |- hoare (Inv ?h) _ ?Q => unify Q (Inv h) end;
  intros w Hw; unfold_calls; repeat case_match; simpl;
  (eapply Inv_keep; [exact Hw | reflexivity | reflexivity]).

Lemma UpdateTranscodeJobStatus_inv env id st p msg h :
  st <> StatusFailed -> h <= p ->
  hoare (Inv h) (db.UpdateTranscodeJobStatus env id st p msg) (Inv p).
Proof.
  intros Hst Hp w Hw. unfold db.UpdateTranscodeJobStatus.
  repeat case_match; simpl.
  - apply (Inv_mono h p); [exact Hp|].
    eapply Inv_keep; [exact Hw | reflexivity | reflexivity].
  - apply (Inv_mono h p); [exact Hp|].
    eapply Inv_keep; [exact Hw | reflexivity | reflexivity].
  - eapply Inv_push; [exact Hw | exact Hst | exact Hp | reflexivity].
Qed.

Lemma UpdateTranscodeJobStatus_failed_inv env id msg h :
  hoare (Inv h) (db.UpdateTranscodeJobStatus env id StatusFailed 0 msg) (Inv h).
Proof.
  intros w Hw. unfold db.UpdateTranscodeJobStatus.
  repeat case_match; simpl.
  - eapply Inv_keep; [exact Hw | reflexivity | reflexivity].
  - eapply Inv_keep; [exact Hw | reflexivity | reflexivity].
  - eapply Inv_failed; [exact Hw | reflexivity].
Qed.

Lemma markFailed_inv env fid msg h :
  hoare (Inv h) (markFailed env fid msg) (Inv h).
Proof.
  unfold markFailed.
  eapply hoare_bind; [apply UpdateTranscodeJobStatus_failed_inv|]. intros _.
  eapply hoare_bind; [keeps_inv|]. intros _.
  eapply hoare_bind; [keeps_inv|]. intros _.
  apply hoare_ret; auto.
Qed.

Lemma transcodeLoop_inv env fid data nQ qs :
  0 <= nQ ->
  forall i done,
    hoare (Inv (20 + i * (60 `quot` nQ)))
          (transcodeLoop env fid data nQ i qs done)
          (Inv (20 + (i + Z.of_nat (length qs)) * (60 `quot` nQ))).
Proof.
  intros HnQ.
  assert (0 <= 60 `quot` nQ) as Hp by (apply quot_60_nonneg, HnQ).
  induction qs as [|q qs IH]; intros i done.
  - apply hoare_ret. intros w. apply Inv_mono.
    change (Z.of_nat (length (@nil QualityLevel))) with 0.
    rewrite Z.add_0_r. lia.
  - cbn [transcodeLoop].
    assert (forall w, Inv (20 + i * 60 `quot` nQ) w ->
              Inv (20 + (i + Z.of_nat (length (q :: qs))) * 60 `quot` nQ) w)
      as Hweak.
    { intros w. apply Inv_mono. simpl length. nia. }
    eapply hoare_bind; [keeps_inv|]. intros [result|err].
    + eapply hoare_bind.
      { unfold uploadHLSFiles. eapply hoare_bind; [keeps_inv|].
        intros [e|]; apply hoare_ret; intros w Hw; exact Hw. }
      intros [err|].
      * eapply hoare_bind; [apply markFailed_inv|]. intros _.
        apply hoare_ret. exact Hweak.
      * eapply hoare_bind.
        { apply (UpdateTranscodeJobStatus_inv env fid StatusTranscoding
                   (20 + (i + 1) * 60 `quot` nQ) ""
                   (20 + i * 60 `quot` nQ)); [discriminate | nia]. }
        intros _. eapply hoare_post; [apply IH|].
        intros w. apply Inv_mono. simpl length. nia.
    + eapply hoare_bind; [apply markFailed_inv|]. intros _.
      apply hoare_ret. exact Hweak.
Qed.

Lemma ProcessJob_inv env Q fid :
  hoare (Inv 10) (ProcessJob env Q fid) (Inv 100).
Proof.
  set (n := Z.of_nat (length Q)).
  assert (0 <= n) as Hn by (subst n; lia).
  assert (0 <= 60 `quot` n) as Hp by (apply quot_60_nonneg, Hn).
  assert (n * (60 `quot` n) <= 60) as Hnp.
  { destruct (decide (n = 0)) as [->|Hne]; [simpl; lia|].
    rewrite Z.quot_div_nonneg by lia. apply Z.mul_div_le. lia. }
  assert (forall h, h <= 100 -> forall w, Inv h w -> Inv 100 w) as Hweak.
  { intros h Hh w. apply Inv_mono, Hh. }
  unfold ProcessJob.
  eapply hoare_bind.
  { apply (UpdateTranscodeJobStatus_inv env fid StatusTranscoding 10 "" 10);
      [discriminate | lia]. }
  intros [err|]; [apply hoare_ret, (Hweak 10); lia|].
  eapply hoare_bind; [keeps_inv|]. intros [videoData|err].
  2: { eapply hoare_bind; [apply markFailed_inv|]. intros _.
       apply hoare_ret, (Hweak 10); lia. }
  eapply hoare_bind; [keeps_inv|]. intros [videoInfo|err].
  2: { eapply hoare_bind; [apply markFailed_inv|]. intros _.
       apply hoare_ret, (Hweak 10); lia. }
  eapply hoare_bind.
  { apply (UpdateTranscodeJobStatus_inv env fid StatusTranscoding 20 "" 10);
      [discriminate | lia]. }
  intros _. eapply hoare_bind; [keeps_inv|]. intros r.
  eapply hoare_bind.
  { instantiate (1 := Inv 20). destruct r as [img|e].
    - eapply hoare_bind; [keeps_inv|]. intros _. apply hoare_ret; auto.
    - apply hoare_ret; auto. }
  intros _. eapply hoare_bind with (Q := Inv 80).
  { eapply hoare_post.
    - apply (transcodeLoop_inv env fid videoData n Q Hn 0 []).
    - intros w. apply (Inv_mono _ 80). fold n. lia. }
  intros [completed|err]; [|apply hoare_ret, (Hweak 80); lia].
  unfold ffmpeg.GenerateMasterPlaylist.
  eapply hoare_bind; [keeps_inv|]. intros [err|].
  { eapply hoare_bind; [apply markFailed_inv|]. intros _.
    apply hoare_ret, (Hweak 80); lia. }
  eapply hoare_bind; [keeps_inv|]. intros [err|].
  { eapply hoare_bind; [apply markFailed_inv|]. intros _.
    apply hoare_ret, (Hweak 80); lia. }
  eapply hoare_bind.
  { apply (UpdateTranscodeJobStatus_inv env fid StatusReady 100 "" 80);
      [discriminate | lia]. }
  intros _. eapply hoare_bind; [keeps_inv|]. intros _.
  apply hoare_ret; auto.
Qed.

End ProgressInvariant.

(** ** The URI of a tier in the manifest and the key of its playlist *)

Lemma append_cons x (a b : string) : String x a +:+ b = String x (a +:+ b).
Proof. reflexivity. Qed.

Lemma append_assoc (a b c : string) : (a +:+ b) +:+ c = a +:+ (b +:+ c).
Proof.
  induction a as [|x a IH]; [reflexivity|].
  rewrite !append_cons, IH. reflexivity.
Qed.

Lemma length_append (a b : string) :
  String.length (a +:+ b) = (String.length a + String.length b)%nat.
Proof.
  induction a as [|x a IH]; [reflexivity|].
  rewrite append_cons. cbn [String.length]. rewrite IH. reflexivity.
Qed.

Lemma split_on_nonempty c s : split_on c s <> [].
Proof.
  destruct s as [|a s]; cbn; [discriminate|].
  destruct (Ascii.eqb a c); [discriminate|].
  destruct (split_on c s); discriminate.
Qed.

Lemma split_on_app c a b :
  split_on c (a +:+ String c b) = split_on c a ++ split_on c b.
Proof.
  induction a as [|x a IH].
  - change ("" +:+ String c b) with (String c b). cbn [split_on].
    rewrite Ascii.eqb_refl. reflexivity.
  - rewrite append_cons. cbn [split_on].
    rewrite IH. destruct (Ascii.eqb x c); [reflexivity|].
    pose proof (split_on_nonempty c a) as Hne.
    destruct (split_on c a) as [|l ls]; [congruence|]. reflexivity.
Qed.

Lemma concat_split_on c s : String.concat (String c "") (split_on c s) = s.
Proof.
  induction s as [|a s IH]; [reflexivity|]. cbn [split_on].
  destruct (Ascii.eqb a c) eqn:Hac.
  - apply Ascii.eqb_eq in Hac. subst a.
    pose proof (split_on_nonempty c s) as Hne.
    destruct (split_on c s) as [|l ls] eqn:Hs; [congruence|].
    cbn [String.concat]. cbn [String.concat] in IH.
    cbn. rewrite <- IH. reflexivity.
  - pose proof (split_on_nonempty c s) as Hne.
    destruct (split_on c s) as [|l ls] eqn:Hs; [congruence|].
    destruct ls as [|l' ls]; cbn in *; rewrite <- IH; reflexivity.
Qed.

(** The directory of a key whose last segment has no [/]. *)
Lemma dirname_app a b :
  split_on slash b = [ b ] ->
  dirname (a +:+ String slash b) = a +:+ String slash "".
Proof.
  intros Hb. unfold dirname. rewrite split_on_app, Hb, removelast_last.
  pose proof (split_on_nonempty slash a) as Hne.
  pose proof (concat_split_on slash a) as Hcat.
  destruct (split_on slash a) as [|l ls]; [congruence|].
  change (String.concat "/" (l :: ls))
    with (String.concat (String slash "") (l :: ls)).
  rewrite Hcat. reflexivity.
Qed.

Lemma master_entry_uri q :
  exists tag,
    ffmpeg.master_entry q = (tag +:+ nl) +:+ (playlist_uri q +:+ nl) /\
    is_uri_line tag = false.
Proof.
  exists ("#EXT-X-STREAM-INF:BANDWIDTH="
          +:+ pretty (default 0 (ffmpeg.bitrates !! q))
          +:+ ",RESOLUTION=" +:+ default "" (ffmpeg.resolutions !! q)).
  split; [|reflexivity].
  unfold ffmpeg.master_entry, playlist_uri.
  rewrite !append_assoc. reflexivity.
Qed.

(** ** One job-status statement on a row *)


Lemma update_job_row_keeps_started st p msg a b now j :
  is_Some (TranscodeJob.StartedAt j) ->
  TranscodeJob.StartedAt (db.update_job_row st p msg a b now j) =
  TranscodeJob.StartedAt j.
Proof.
  intros [t Ht]. cbn [db.update_job_row TranscodeJob.StartedAt]. rewrite Ht.
  case_bool_decide; [discriminate|]. rewrite andb_false_r. reflexivity.
Qed.

Lemma UpdateTranscodeJobStatus_row env id st p msg w j :
  transcode_jobs w !! id = Some j ->
  let r := db.UpdateTranscodeJobStatus env id st p msg w in
  (r.1 = None /\
   transcode_jobs r.2 !! id =
     Some (db.update_job_row st p msg
             (bool_decide (st = StatusTranscoding))
             (bool_decide (st = StatusReady) || bool_decide (st = StatusFailed))
             (db_now env (step w)) j)) \/
  (r.1 <> None /\ transcode_jobs r.2 !! id = Some j).
Proof.
  intros Hj. cbv zeta. unfold db.UpdateTranscodeJobStatus.
  repeat case_match; simpl.
  - right. split; [discriminate | exact Hj].
  - right. split; [discriminate | exact Hj].
  - left. split; [reflexivity|]. rewrite lookup_alter_eq, Hj. reflexivity.
Qed.

(** ** The statements and the uploads of a run, whatever happens *)





Lemma job_statements_app a b :
  job_statements (a ++ b) = job_statements a ++ job_statements b.
Proof. apply omap_app. Qed.

Lemma uploads_rev_cons e l :
  uploads (rev (e :: l)) = uploads (rev l) ++ uploads [e].
Proof. cbn [rev]. apply uploads_app. Qed.

Lemma job_statements_rev_cons e l :
  job_statements (rev (e :: l)) = job_statements (rev l) ++ job_statements [e].
Proof. cbn [rev]. apply job_statements_app. Qed.










(** * The claims *)

(** ** C1 *)

(** C1, as stated, fails.  The job row of the film, stored under an id of
    its own as [ConfirmUpload] stores it, is READY, and the thumbnail, the
    two index playlists and the manifest of the film are in the bucket.  A
    redelivered [ProcessJob] succeeds and uploads the four objects again.
    The job row, which no statement of the run selects, is as it was. *)
Lemma C1_terminal_job_is_processed_again :
  let w0 := sample.world_of sample.job_ready_confirmed sample.film_ready in
  let w := (ProcessJob sample.env_ok ffmpeg.Qualities sample.fid w0).2 in
  let r := ProcessJob sample.env_ok ffmpeg.Qualities sample.fid w in
  transcode_jobs w !! sample.jid = Some sample.job_ready_confirmed /\
  TranscodeJob.FilmID sample.job_ready_confirmed = sample.fid /\
  TranscodeJob.Status sample.job_ready_confirmed = StatusReady /\
  bucket w !! thumbnail_key sample.fid
    = Some (mkObject "jpeg-bytes" "image/jpeg") /\
  bucket w !! index_key sample.fid (sample.tier "360p")
    = Some (mkObject ffmpeg.index_playlist "application/x-mpegURL") /\
  bucket w !! index_key sample.fid (sample.tier "720p")
    = Some (mkObject ffmpeg.index_playlist "application/x-mpegURL") /\
  bucket w !! master_key sample.fid
    = Some (mkObject (master_manifest sample.fid ffmpeg.Qualities)
                     "application/x-mpegURL") /\
  r.1 = None /\
  uploads (drop (length (events_of w)) (events_of r.2)) =
    [ (thumbnail_key sample.fid, "jpeg-bytes");
      (index_key sample.fid (sample.tier "360p"), ffmpeg.index_playlist);
      (index_key sample.fid (sample.tier "720p"), ffmpeg.index_playlist);
      (master_key sample.fid, master_manifest sample.fid ffmpeg.Qualities) ] /\
  transcode_jobs r.2 !! sample.jid = Some sample.job_ready_confirmed.
Proof.
  cbv zeta. repeat split; vm_compute; reflexivity.
Qed.

(** C1, amended: [ProcessJob] has no guard on the status of the job.  A job
    row that is READY or FAILED and is stored as [ConfirmUpload] stores it,
    under an id of its own, is left exactly as it is by a redelivered run,
    whatever the collaborators do: the statements of the run select by the
    film id.  The objects are not left alone: with the source in the bucket
    and the collaborators working the run starts with the statement for
    TRANSCODING and progress 10, succeeds, uploads the index playlist of
    every tier and the master manifest again, and writes the film row READY
    again. *)
Theorem C1_no_terminal_guard env Q fid w id j :
  transcode_jobs w !! id = Some j ->
  id <> fid ->
  TranscodeJob.FilmID j = fid ->
  terminal (TranscodeJob.Status j) ->
  transcode_jobs (ProcessJob env Q fid w).2 !! id = Some j /\
  (forall src info,
     collaborators_work env fid w src info ->
     exists w' evs pre,
       ProcessJob env Q fid w = (None, w') /\
       trace w' = rev evs ++ trace w /\
       head evs = Some (EvJobUpdate fid StatusTranscoding 10 "" true) /\
       uploads evs =
         pre ++ map (fun q => (index_key fid q, ffmpeg.index_playlist)) Q
             ++ [ (master_key fid, master_manifest fid Q) ] /\
       bucket w' !! master_key fid =
         Some (mkObject (master_manifest fid Q) "application/x-mpegURL") /\
       films w' =
         alter (db.set_film_hls (r2.GetHLSMasterURL env fid)
                                (r2.GetThumbnailURL env fid)) fid (films w)).
Proof.
  intros Hj Hid _ _. split.
  - rewrite (ProcessJob_same_other_jobs env Q fid w id Hid). exact Hj.
  - intros src info (Hdb & Hr2 & Hsrc & Hprobe & Hhls).
    destruct (ProcessJob_ok env fid Hdb Hr2 Q w src info Hsrc Hprobe Hhls)
      as (w' & b & Hrun & Htr & Hfilms & Hmaster & _).
    eexists w', _, _.
    split; [exact Hrun|]. split; [exact Htr|]. split; [reflexivity|].
    split; [apply uploads_ok_events|]. split; assumption.
Qed.

Lemma C1_no_terminal_guard_witness :
  let env := sample.env_ok in
  let fid := sample.fid in
  let Q := ffmpeg.Qualities in
  let w := sample.world_of sample.job_ready_confirmed sample.film_ready in
  transcode_jobs (ProcessJob env Q fid w).2 !! sample.jid
    = Some sample.job_ready_confirmed /\
  exists w' evs pre,
    ProcessJob env Q fid w = (None, w') /\
    trace w' = rev evs ++ trace w /\
    head evs = Some (EvJobUpdate fid StatusTranscoding 10 "" true) /\
    uploads evs =
      pre ++ map (fun q => (index_key fid q, ffmpeg.index_playlist)) Q
          ++ [ (master_key fid, master_manifest fid Q) ] /\
    bucket w' !! master_key fid =
      Some (mkObject (master_manifest fid Q) "application/x-mpegURL") /\
    films w' =
      alter (db.set_film_hls (r2.GetHLSMasterURL env fid)
                             (r2.GetThumbnailURL env fid)) fid (films w).
Proof.
  destruct (C1_no_terminal_guard sample.env_ok ffmpeg.Qualities sample.fid
              (sample.world_of sample.job_ready_confirmed sample.film_ready)
              sample.jid sample.job_ready_confirmed)
    as [Hrow Hrun].
  - vm_compute. reflexivity.
  - vm_compute. discriminate.
  - reflexivity.
  - left. reflexivity.
  - split; [exact Hrow|].
    apply (Hrun sample.source sample.info10s). by_evaluation.
Defined.

(** ** C2 *)

(** C2, as stated, fails: after a successful run over the two configured
    tiers the table [video_assets] is still empty; the processor never
    calls [CreateVideoAsset]. *)
Lemma C2_no_rendition_rows :
  let r := ProcessJob sample.env_ok ffmpeg.Qualities sample.fid
             (sample.world_of sample.job_uploaded sample.film0) in
  r.1 = None /\
  video_assets r.2 = ∅ /\
  size (video_assets r.2) <> 2%nat.
Proof.
  cbv zeta. repeat split; try (vm_compute; reflexivity).
  vm_compute. discriminate.
Qed.

(** C2, amended: with a valid source, the two configured tiers and working
    collaborators, [ProcessJob] succeeds; its last job-status statement sets
    READY and progress 100, and the row it addresses ends so; it writes no
    row of [video_assets]; the master manifest it uploads lists the 360p tier
    and then the 720p tier, the order of [Qualities]. *)
Theorem C2_successful_run env fid w src info :
  collaborators_work env fid w src info ->
  exists w' evs,
    ProcessJob env ffmpeg.Qualities fid w = (None, w') /\
    trace w' = rev evs ++ trace w /\
    last (job_updates evs) = Some (StatusReady, 100) /\
    (forall j, transcode_jobs w !! fid = Some j ->
       exists j', transcode_jobs w' !! fid = Some j' /\
         TranscodeJob.Status j' = StatusReady /\
         TranscodeJob.Progress j' = 100) /\
    video_assets w' = video_assets w /\
    bucket w' !! master_key fid =
      Some (mkObject (master_manifest fid ffmpeg.Qualities)
                     "application/x-mpegURL") /\
    master_manifest fid ffmpeg.Qualities =
      ffmpeg.master_header +:+ ffmpeg.master_entry "360p"
                           +:+ ffmpeg.master_entry "720p" /\
    map Name ffmpeg.Qualities = [ "360p"; "720p" ].
Proof.
  intros (Hdb & Hr2 & Hsrc & Hprobe & Hhls).
  destruct (ProcessJob_ok env fid Hdb Hr2 ffmpeg.Qualities w src info
                          Hsrc Hprobe Hhls)
    as (w' & b & Hrun & Htr & _ & Hmaster & Hrow).
  eexists w', _. split; [exact Hrun|]. split; [exact Htr|].
  split; [rewrite job_updates_ok_events; reflexivity|].
  split.
  { intros j Hj.
    pose proof (ProcessJob_job_kept env ffmpeg.Qualities fid w j Hj)
      as (j' & Hj' & _).
    rewrite Hrun in Hj'. simpl in Hj'.
    destruct (Hrow j' Hj') as (Hst & Hpr & _). eauto. }
  split.
  { pose proof (ProcessJob_same_assets env ffmpeg.Qualities fid w) as H.
    rewrite Hrun in H. exact H. }
  split; [exact Hmaster|]. split; reflexivity.
Qed.

Lemma C2_successful_run_witness :
  exists w' evs,
    ProcessJob sample.env_ok ffmpeg.Qualities sample.fid
               (sample.world_of sample.job_uploaded sample.film0)
      = (None, w') /\
    trace w' = rev evs ++ [] /\
    last (job_updates evs) = Some (StatusReady, 100) /\
    (forall j, transcode_jobs
                 (sample.world_of sample.job_uploaded sample.film0)
                 !! sample.fid = Some j ->
       exists j', transcode_jobs w' !! sample.fid = Some j' /\
         TranscodeJob.Status j' = StatusReady /\
         TranscodeJob.Progress j' = 100) /\
    video_assets w' = ∅ /\
    bucket w' !! master_key sample.fid =
      Some (mkObject (master_manifest sample.fid ffmpeg.Qualities)
                     "application/x-mpegURL") /\
    master_manifest sample.fid ffmpeg.Qualities =
      ffmpeg.master_header +:+ ffmpeg.master_entry "360p"
                           +:+ ffmpeg.master_entry "720p" /\
    map Name ffmpeg.Qualities = [ "360p"; "720p" ].
Proof.
  apply (C2_successful_run sample.env_ok sample.fid
           (sample.world_of sample.job_uploaded sample.film0)
           sample.source sample.info10s).
  by_evaluation.
Defined.

(** ** C3 *)

(** C3: the code does not do what the claim says.  For the two configured
    tiers the URI lines of the master manifest are [360p/360p/index.m3u8]
    and [720p/720p/index.m3u8]; resolved against the manifest's key they name
    [hls/{id}/360p/360p/index.m3u8] and [hls/{id}/720p/720p/index.m3u8],
    while the index playlists are uploaded to [hls/{id}/360p/index.m3u8] and
    [hls/{id}/720p/index.m3u8].  The order of the tiers is that of the
    input. *)
Lemma C3_manifest_uris_miss_the_uploaded_keys :
  let r := ProcessJob sample.env_ok ffmpeg.Qualities sample.fid
             (sample.world_of sample.job_uploaded sample.film0) in
  manifest_uris (master_manifest sample.fid ffmpeg.Qualities) =
    [ "360p/360p/index.m3u8"; "720p/720p/index.m3u8" ] /\
  map (resolve_relative (master_key sample.fid))
      (manifest_uris (master_manifest sample.fid ffmpeg.Qualities)) =
    [ "hls/3f2a0c1e-0000-4000-8000-00000000f11a/360p/360p/index.m3u8";
      "hls/3f2a0c1e-0000-4000-8000-00000000f11a/720p/720p/index.m3u8" ] /\
  map (index_key sample.fid) ffmpeg.Qualities =
    [ "hls/3f2a0c1e-0000-4000-8000-00000000f11a/360p/index.m3u8";
      "hls/3f2a0c1e-0000-4000-8000-00000000f11a/720p/index.m3u8" ] /\
  Forall (fun key => is_Some (bucket r.2 !! key))
         (map (index_key sample.fid) ffmpeg.Qualities) /\
  Forall (fun key => bucket r.2 !! key = None)
         (map (resolve_relative (master_key sample.fid))
              (manifest_uris (master_manifest sample.fid ffmpeg.Qualities))).
Proof.
  cbv zeta. repeat split; try (vm_compute; reflexivity).
  - repeat (apply Forall_cons; split; [vm_compute; eauto|]). apply Forall_nil.
    exact I.
  - repeat (apply Forall_cons; split; [vm_compute; reflexivity|]).
    apply Forall_nil. exact I.
Qed.

(** ** C4 *)

(** C4, as stated, fails: the thumbnail cannot be generated, both tiers
    succeed, and the film row ends READY with a thumbnail URL that is not
    null, while the bucket holds no object under the thumbnail key. *)
Lemma C4_thumbnail_url_recorded_anyway :
  let r := ProcessJob sample.env_no_thumbnail ffmpeg.Qualities sample.fid
             (sample.world_of sample.job_uploaded sample.film0) in
  r.1 = None /\
  Film.ThumbnailURL <$> (films r.2 !! sample.fid) =
    Some (Some "https://cdn.example/thumb/3f2a0c1e-0000-4000-8000-00000000f11a/poster.jpg") /\
  Film.ThumbnailURL <$> (films r.2 !! sample.fid) <> Some None /\
  bucket r.2 !! thumbnail_key sample.fid = None.
Proof.
  cbv zeta. repeat split; try (vm_compute; reflexivity).
  vm_compute. discriminate.
Qed.

(** C4, amended: when the thumbnail cannot be generated and the other
    stages succeed, [ProcessJob] succeeds; no thumbnail is uploaded (the
    uploads are the index playlists and the manifest); the manifest is in the
    bucket; the film row ends READY with its manifest URL and with
    [thumbnail_url] set to the public URL of the thumbnail key, not null; the
    job row addressed ends READY with progress 100. *)
Theorem C4_thumbnail_failure_is_not_fatal env Q fid w src info e :
  collaborators_work env fid w src info ->
  ffmpeg_thumbnail env (4 + step w)%nat (Body src) (Duration info) = Err e ->
  exists w' evs,
    ProcessJob env Q fid w = (None, w') /\
    trace w' = rev evs ++ trace w /\
    uploads evs =
      map (fun q => (index_key fid q, ffmpeg.index_playlist)) Q
      ++ [ (master_key fid, master_manifest fid Q) ] /\
    bucket w' !! master_key fid =
      Some (mkObject (master_manifest fid Q) "application/x-mpegURL") /\
    (forall f, films w !! fid = Some f ->
       exists f', films w' !! fid = Some f' /\
         Film.Status f' = StatusReady /\
         Film.HLSMasterURL f' =
           Some (publicURL env +:+ "/" +:+ master_key fid) /\
         Film.ThumbnailURL f' =
           Some (publicURL env +:+ "/" +:+ thumbnail_key fid)) /\
    (forall j, transcode_jobs w !! fid = Some j ->
       exists j', transcode_jobs w' !! fid = Some j' /\
         TranscodeJob.Status j' = StatusReady /\
         TranscodeJob.Progress j' = 100).
Proof.
  intros (Hdb & Hr2 & Hsrc & Hprobe & Hhls) Hthumb.
  destruct (ProcessJob_ok env fid Hdb Hr2 Q w src info Hsrc Hprobe Hhls)
    as (w' & b & Hrun & Htr & Hfilms & Hmaster & Hrow).
  rewrite Hthumb in Htr.
  eexists w', _. split; [exact Hrun|]. split; [exact Htr|].
  split; [rewrite uploads_ok_events; reflexivity|].
  split; [exact Hmaster|]. split.
  - intros f Hf. rewrite Hfilms, lookup_alter_eq, Hf.
    eexists. split; [reflexivity|]. repeat split; reflexivity.
  - intros j Hj.
    pose proof (ProcessJob_job_kept env Q fid w j Hj) as (j' & Hj' & _).
    rewrite Hrun in Hj'. simpl in Hj'.
    destruct (Hrow j' Hj') as (Hst & Hpr & _). eauto.
Qed.

Lemma C4_thumbnail_failure_is_not_fatal_witness :
  exists w' evs,
    ProcessJob sample.env_no_thumbnail ffmpeg.Qualities sample.fid
               (sample.world_of sample.job_uploaded sample.film0)
      = (None, w') /\
    trace w' = rev evs ++ [] /\
    uploads evs =
      map (fun q => (index_key sample.fid q, ffmpeg.index_playlist))
          ffmpeg.Qualities
      ++ [ (master_key sample.fid,
            master_manifest sample.fid ffmpeg.Qualities) ] /\
    bucket w' !! master_key sample.fid =
      Some (mkObject (master_manifest sample.fid ffmpeg.Qualities)
                     "application/x-mpegURL") /\
    (forall f, films (sample.world_of sample.job_uploaded sample.film0)
                 !! sample.fid = Some f ->
       exists f', films w' !! sample.fid = Some f' /\
         Film.Status f' = StatusReady /\
         Film.HLSMasterURL f' =
           Some ("https://cdn.example" +:+ "/" +:+ master_key sample.fid) /\
         Film.ThumbnailURL f' =
           Some ("https://cdn.example" +:+ "/" +:+ thumbnail_key sample.fid)) /\
    (forall j, transcode_jobs
                 (sample.world_of sample.job_uploaded sample.film0)
                 !! sample.fid = Some j ->
       exists j', transcode_jobs w' !! sample.fid = Some j' /\
         TranscodeJob.Status j' = StatusReady /\
         TranscodeJob.Progress j' = 100).
Proof.
  apply (C4_thumbnail_failure_is_not_fatal sample.env_no_thumbnail
           ffmpeg.Qualities sample.fid
           (sample.world_of sample.job_uploaded sample.film0)
           sample.source sample.info10s "exit status 1").
  - by_evaluation.
  - vm_compute. reflexivity.
Defined.

(** ** C5 *)

(** C5, as stated, fails: the source is missing, the run stores progress 10
    and then, marking the job FAILED, progress 0; the row ends at 0. *)
Lemma C5_failed_update_lowers_progress :
  let w := sample.world_without_source sample.job_uploaded sample.film0 in
  let r := ProcessJob sample.env_ok ffmpeg.Qualities sample.fid w in
  job_updates (events_of r.2) = [ (StatusTranscoding, 10); (StatusFailed, 0) ] /\
  progress_log (events_of r.2) = [ 10; 0 ] /\
  ~ StronglySorted Z.le (progress_log (events_of r.2)) /\
  TranscodeJob.Progress <$>
    (transcode_jobs
       (db.UpdateTranscodeJobStatus sample.env_ok sample.fid StatusTranscoding
                                    10 "" w).2 !! sample.fid) = Some 10 /\
  TranscodeJob.Progress <$> (transcode_jobs r.2 !! sample.fid) = Some 0.
Proof.
  cbv zeta. repeat split; try (vm_compute; reflexivity).
  intros H.
  replace (progress_log _) with [10; 0] in H by (vm_compute; reflexivity).
  inversion H as [|a l _ Hall]; subst.
  inversion Hall as [|b l' Hle _]; subst. lia.
Qed.

(** C5, amended: in every run of [ProcessJob] the progress values stored by
    the statements that do not mark the job FAILED are non-decreasing (and at
    most 100); every statement that marks the job FAILED stores progress 0. *)
Theorem C5_progress_monotone_until_failure env Q fid w :
  exists evs,
    trace (ProcessJob env Q fid w).2 = rev evs ++ trace w /\
    StronglySorted Z.le (progress_log_unfailed evs) /\
    Forall (fun y => y <= 100) (progress_log_unfailed evs) /\
    Forall (fun u => u.1 = StatusFailed -> u.2 = 0) (job_updates evs).
Proof.
  apply (ProcessJob_inv (trace w) env Q fid w).
  exists []. repeat split; constructor.
Qed.

(** ** C6 *)

(** C6, as stated, fails: on the empty tier list [GenerateMasterPlaylist]
    returns the two header lines and no error. *)
Lemma C6_empty_tier_list_is_accepted :
  ffmpeg.GenerateMasterPlaylist sample.fid [] = Ok ffmpeg.master_header /\
  ~ (exists e, ffmpeg.GenerateMasterPlaylist sample.fid [] = Err e).
Proof.
  split; [reflexivity|]. intros [e He]. discriminate He.
Qed.

(** C6, amended: [GenerateMasterPlaylist] never returns an error; on the
    empty tier list it returns the header-only playlist, and a run of
    [ProcessJob] with no tier configured and working collaborators uploads
    that playlist as the master manifest and marks the film READY. *)
Theorem C6_zero_tiers_give_header_only_manifest env fid w src info :
  collaborators_work env fid w src info ->
  (forall qs, exists b, ffmpeg.GenerateMasterPlaylist fid qs = Ok b) /\
  ffmpeg.GenerateMasterPlaylist fid [] = Ok ffmpeg.master_header /\
  exists w',
    ProcessJob env [] fid w = (None, w') /\
    bucket w' !! master_key fid =
      Some (mkObject ffmpeg.master_header "application/x-mpegURL") /\
    (forall f, films w !! fid = Some f ->
       exists f', films w' !! fid = Some f' /\ Film.Status f' = StatusReady).
Proof.
  intros (Hdb & Hr2 & Hsrc & Hprobe & Hhls).
  split; [intros qs; eexists; reflexivity|]. split; [reflexivity|].
  destruct (ProcessJob_ok env fid Hdb Hr2 [] w src info Hsrc Hprobe Hhls)
    as (w' & b & Hrun & _ & Hfilms & Hmaster & _).
  exists w'. split; [exact Hrun|]. split; [exact Hmaster|].
  intros f Hf. rewrite Hfilms, lookup_alter_eq, Hf.
  eexists. split; reflexivity.
Qed.

Lemma C6_zero_tiers_give_header_only_manifest_witness :
  (forall qs, exists b, ffmpeg.GenerateMasterPlaylist sample.fid qs = Ok b) /\
  ffmpeg.GenerateMasterPlaylist sample.fid [] = Ok ffmpeg.master_header /\
  exists w',
    ProcessJob sample.env_ok [] sample.fid
               (sample.world_of sample.job_uploaded sample.film0)
      = (None, w') /\
    bucket w' !! master_key sample.fid =
      Some (mkObject ffmpeg.master_header "application/x-mpegURL") /\
    (forall f, films (sample.world_of sample.job_uploaded sample.film0)
                 !! sample.fid = Some f ->
       exists f', films w' !! sample.fid = Some f' /\
                  Film.Status f' = StatusReady).
Proof.
  apply (C6_zero_tiers_give_header_only_manifest sample.env_ok sample.fid
           (sample.world_of sample.job_uploaded sample.film0)
           sample.source sample.info10s).
  by_evaluation.
Defined.

(** ** C7 *)

(** C7: the code does not do what the claim says.  The job row is the one
    [ConfirmUpload] inserted for the film, under an id of its own.  The run
    succeeds and the film ends READY; its first action is the statement that
    sets TRANSCODING and progress 10, but that statement, selecting by
    primary key with the film id, changes no row; the download, the
    transcodes and the uploads all happen, and the job row of the film is
    UPLOADED with progress 0 throughout and at the end. *)
Lemma C7_job_row_is_never_marked :
  let w := sample.world_of sample.job_confirmed sample.film0 in
  let r := ProcessJob sample.env_ok ffmpeg.Qualities sample.fid w in
  TranscodeJob.FilmID sample.job_confirmed = sample.fid /\
  r.1 = None /\
  head (events_of r.2) =
    Some (EvJobUpdate sample.fid StatusTranscoding 10 "" true) /\
  transcode_jobs
    (db.UpdateTranscodeJobStatus sample.env_ok sample.fid StatusTranscoding 10
                                 "" w).2 = transcode_jobs w /\
  length (List.filter external_io (events_of r.2)) = 9%nat /\
  transcode_jobs r.2 !! sample.jid = Some sample.job_confirmed /\
  TranscodeJob.Status sample.job_confirmed = StatusUploaded /\
  Film.Status <$> (films r.2 !! sample.fid) = Some StatusReady.
Proof. cbv zeta. repeat split; vm_compute; reflexivity. Qed.

(** ** C8 *)



(** ** C9 *)



(** ** C10 *)

(** C10: a job-status statement on an existing row writes [started_at]
    only when the new status is TRANSCODING and [started_at] is NULL, so a
    [started_at] that is set survives this and every later statement;
    [completed_at] is set, to the time of the statement, by the statements
    whose status is READY or FAILED, and is left as it was by the others.  A
    statement that fails changes nothing. *)
Theorem C10_job_timestamps env id st p msg w j :
  transcode_jobs w !! id = Some j ->
  let r := db.UpdateTranscodeJobStatus env id st p msg w in
  let now := db_now env (step w) in
  (exists j',
     transcode_jobs r.2 !! id = Some j' /\
     (TranscodeJob.StartedAt j' <> TranscodeJob.StartedAt j ->
        st = StatusTranscoding /\ TranscodeJob.StartedAt j = None /\
        TranscodeJob.StartedAt j' = Some now) /\
     (r.1 = None -> st = StatusTranscoding ->
        TranscodeJob.StartedAt j = None ->
        TranscodeJob.StartedAt j' = Some now) /\
     (is_Some (TranscodeJob.StartedAt j) ->
        TranscodeJob.StartedAt j' = TranscodeJob.StartedAt j) /\
     (r.1 = None -> terminal st -> TranscodeJob.CompletedAt j' = Some now) /\
     (~ terminal st ->
        TranscodeJob.CompletedAt j' = TranscodeJob.CompletedAt j) /\
     (r.1 <> None -> j' = j)) /\
  (is_Some (TranscodeJob.StartedAt j) ->
   forall us, exists j',
     transcode_jobs (run_updates env id us w).2 !! id = Some j' /\
     TranscodeJob.StartedAt j' = TranscodeJob.StartedAt j).
Proof.
  intros Hj. cbv zeta. split.
  - destruct (UpdateTranscodeJobStatus_row env id st p msg w j Hj)
      as [[Hok Hrow] | [Herr Hrow]]; cbv zeta in *.
    + eexists. split; [exact Hrow|].
      cbn [db.update_job_row TranscodeJob.StartedAt TranscodeJob.CompletedAt].
      unfold terminal.
      destruct (TranscodeJob.StartedAt j) as [t|] eqn:Hstart;
        destruct st; repeat case_bool_decide; simpl;
        repeat split; intros; try congruence; try (intuition congruence).
      match goal with H : is_Some None |- _ => destruct H as [? H] end.
      discriminate.
    + exists j. split; [exact Hrow|]. repeat split; congruence.
  - intros Hset us. revert w j Hj Hset.
    induction us as [|[[st' p'] msg'] us IH]; intros w j Hj Hset.
    + exists j. split; [exact Hj | reflexivity].
    + cbn [run_updates]. rewrite bind_eq.
      destruct (UpdateTranscodeJobStatus_row env id st' p' msg' w j Hj)
        as [[_ Hrow] | [_ Hrow]]; cbv zeta in Hrow;
        destruct (db.UpdateTranscodeJobStatus env id st' p' msg' w)
          as [err w1]; simpl in Hrow.
      * pose proof (update_job_row_keeps_started st' p' msg'
                      (bool_decide (st' = StatusTranscoding))
                      (bool_decide (st' = StatusReady)
                       || bool_decide (st' = StatusFailed))
                      (db_now env (step w)) j Hset) as Hkeep.
        destruct (IH w1 _ Hrow) as (j' & Hj' & Hst').
        { rewrite Hkeep. exact Hset. }
        exists j'. split; [exact Hj'|]. rewrite Hst'. exact Hkeep.
      * destruct (IH w1 j Hrow Hset) as (j' & Hj' & Hst'). eauto.
Qed.

Lemma C10_job_timestamps_witness :
  let w := sample.world_of sample.job_ready sample.film_ready in
  let r := db.UpdateTranscodeJobStatus sample.env_ok sample.fid
             StatusTranscoding 10 "" w in
  (exists j',
     transcode_jobs r.2 !! sample.fid = Some j' /\
     (TranscodeJob.StartedAt j' <> Some 910 ->
        StatusTranscoding = StatusTranscoding /\
        TranscodeJob.StartedAt sample.job_ready = None /\
        TranscodeJob.StartedAt j' = Some 1000) /\
     (r.1 = None -> StatusTranscoding = StatusTranscoding ->
        TranscodeJob.StartedAt sample.job_ready = None ->
        TranscodeJob.StartedAt j' = Some 1000) /\
     (is_Some (TranscodeJob.StartedAt sample.job_ready) ->
        TranscodeJob.StartedAt j' = Some 910) /\
     (r.1 = None -> terminal StatusTranscoding ->
        TranscodeJob.CompletedAt j' = Some 1000) /\
     (~ terminal StatusTranscoding ->
        TranscodeJob.CompletedAt j' = Some 950) /\
     (r.1 <> None -> j' = sample.job_ready)) /\
  (is_Some (TranscodeJob.StartedAt sample.job_ready) ->
   forall us, exists j',
     transcode_jobs (run_updates sample.env_ok sample.fid us w).2
       !! sample.fid = Some j' /\
     TranscodeJob.StartedAt j' = Some 910).
Proof.
  apply (C10_job_timestamps sample.env_ok sample.fid StatusTranscoding 10 ""
           (sample.world_of sample.job_ready sample.film_ready)
           sample.job_ready).
  vm_compute. reflexivity.
Defined.

(** * Further properties *)

(** X1: the statements of [ProcessJob] select the job row by primary key
    with the film id they were given.  A row under any other id, such as the
    row [ConfirmUpload] inserts for the film under a fresh id, is the same
    after the run, whatever the collaborators do. *)
Theorem ProcessJob_leaves_rows_under_other_ids env Q fid w id :
  id <> fid ->
  transcode_jobs (ProcessJob env Q fid w).2 !! id = transcode_jobs w !! id.
Proof.
  intros Hid. apply (ProcessJob_same_other_jobs env Q fid w id Hid).
Qed.

Lemma ProcessJob_leaves_rows_under_other_ids_witness :
  transcode_jobs
    (ProcessJob sample.env_ok ffmpeg.Qualities sample.fid
       (sample.world_of sample.job_confirmed sample.film0)).2 !! sample.jid
  = transcode_jobs (sample.world_of sample.job_confirmed sample.film0)
      !! sample.jid.
Proof.
  apply (ProcessJob_leaves_rows_under_other_ids sample.env_ok ffmpeg.Qualities
           sample.fid (sample.world_of sample.job_confirmed sample.film0)
           sample.jid).
  apply (bool_decide_eq_true_1 (sample.jid <> sample.fid)).
  vm_compute. reflexivity.
Defined.

(** X2: the first action of every run of [ProcessJob] is the statement that
    sets TRANSCODING and progress 10 on the row it selects; every other
    event of the run, so every call to the bucket or the transcoder, comes
    after it.  When the statement succeeds a row stored under the id passed
    is TRANSCODING with progress 10 once the statement has run, before any
    other event of the run.  When it fails the run has no other event,
    returns the error and leaves every store as it was. *)
Theorem ProcessJob_first_statement_precedes_io env Q fid w :
  let r := ProcessJob env Q fid w in
  let first := EvJobUpdate fid StatusTranscoding 10 ""
                           (is_nil (db_err env (step w))) in
  external_io first = false /\
  exists evs,
    events_of r.2 = events_of w ++ first :: evs /\
    (db_err env (step w) = None ->
     forall j, transcode_jobs w !! fid = Some j ->
       exists j1,
         transcode_jobs
           (db.UpdateTranscodeJobStatus env fid StatusTranscoding 10 "" w).2
           !! fid = Some j1 /\
         TranscodeJob.Status j1 = StatusTranscoding /\
         TranscodeJob.Progress j1 = 10) /\
    (forall e, db_err env (step w) = Some e ->
       evs = [] /\
       Forall (fun ev => external_io ev = false) (first :: evs) /\
       r.1 = Some ("failed to update job status: " +:+ e) /\
       transcode_jobs r.2 = transcode_jobs w /\ films r.2 = films w /\
       bucket r.2 = bucket w /\ cache r.2 = cache w /\ queue r.2 = queue w).
Proof.
  cbv zeta. split; [reflexivity|].
  destruct (ProcessJob_first_step env Q fid w) as (evs & Htr & Hfail).
  exists (rev evs). unfold events_of. split; [|split].
  - rewrite Htr, rev_app_distr. simpl. rewrite <- app_assoc. reflexivity.
  - intros Hdb j Hj. unfold db.UpdateTranscodeJobStatus.
    rewrite Hdb, andb_false_r.
    change (negb (db.fits_integer 10) || false) with false.
    cbn [snd transcode_jobs emit set_transcode_jobs].
    rewrite lookup_alter_eq, Hj. eexists. split; [reflexivity|].
    split; reflexivity.
  - intros e He. destruct (Hfail e He) as (-> & Hr & Hstores).
    split; [reflexivity|]. split; [repeat constructor|]. split; assumption.
Qed.

(** X3: for every film id and every tier name, the entry of the manifest
    for the tier is a tag line followed by the URI [{tier}/{tier}/index.m3u8];
    that URI, resolved against the key of the manifest, is
    [hls/{id}/{tier}/{tier}/index.m3u8]; it is never the key
    [hls/{id}/{tier}/index.m3u8] under which [UploadHLSFile] stores the
    index playlist of the tier. *)
Theorem manifest_uri_never_names_the_index_key fid (q : QualityLevel) :
  (exists tag,
     ffmpeg.master_entry (Name q) =
       (tag +:+ nl) +:+ (playlist_uri (Name q) +:+ nl) /\
     is_uri_line tag = false) /\
  resolve_relative (master_key fid) (playlist_uri (Name q)) =
    "hls/" +:+ fid +:+ "/" +:+ Name q +:+ "/" +:+ Name q +:+ "/index.m3u8" /\
  index_key fid q = "hls/" +:+ fid +:+ "/" +:+ Name q +:+ "/index.m3u8" /\
  resolve_relative (master_key fid) (playlist_uri (Name q)) <> index_key fid q.
Proof.
  assert (resolve_relative (master_key fid) (playlist_uri (Name q)) =
          "hls/" +:+ fid +:+ "/" +:+ Name q +:+ "/" +:+ Name q
          +:+ "/index.m3u8") as Hres.
  { unfold resolve_relative, master_key.
    change (r2.HLSPath +:+ "/" +:+ fid +:+ "/master.m3u8")
      with ("hls/" +:+ fid +:+ String slash "master.m3u8").
    rewrite <- append_assoc, dirname_app by reflexivity.
    unfold playlist_uri. rewrite !append_assoc. reflexivity. }
  assert (index_key fid q = "hls/" +:+ fid +:+ "/" +:+ Name q
                            +:+ "/index.m3u8") as Hkey by reflexivity.
  split; [apply master_entry_uri|].
  split; [exact Hres|]. split; [exact Hkey|].
  rewrite Hres, Hkey. intros Heq.
  apply (inj (String.app "hls/")), (inj (String.app fid)),
        (inj (String.app "/")), (inj (String.app (Name q))) in Heq.
  apply (f_equal String.length) in Heq.
  rewrite !length_append in Heq. simpl in Heq. lia.
Qed.

(** * The rest of the code *)

(** ** What a run of [ProcessJob] reaches *)

Lemma touches_only_refl fid keys w : touches_only fid keys w w.
Proof. repeat split; eauto. Qed.

Lemma touches_only_trans fid keys w1 w2 w3 :
  touches_only fid keys w1 w2 -> touches_only fid keys w2 w3 ->
  touches_only fid keys w1 w3.
Proof.
  intros (Hq1 & Hf1 & Hn1 & Hs1 & Hc1 & Hb1 & Hk1)
         (Hq2 & Hf2 & Hn2 & Hs2 & Hc2 & Hb2 & Hk2).
  repeat split.
  - congruence.
  - intros id Hid. rewrite Hf2, Hf1; auto.
  - auto.
  - intros f Hf. destruct (Hs1 f Hf) as (f2 & Hf2' & ? & ? & ?).
    destruct (Hs2 f2 Hf2') as (f3 & Hf3 & ? & ? & ?).
    exists f3. repeat split; congruence.
  - intros k Hk. rewrite Hc2, Hc1; auto.
  - intros k Hk. rewrite Hb2, Hb1; auto.
  - auto.
Qed.

(** The statements on [films] and [transcode_jobs], the cache write and
    the calls that only read. *)
Ltac touches_leaf :=
  unfold touches_only; simpl;
  repeat split;
  try solve
    [ reflexivity
    | auto
    | intros; rewrite ?lookup_alter_ne, ?lookup_insert_ne by congruence;
      reflexivity
    | intros Hnone; rewrite lookup_alter_eq, Hnone; reflexivity
    | intros ? Hsome; rewrite lookup_alter_eq, Hsome; simpl; eexists;
      split; [reflexivity | auto] 
    | eauto ].

Lemma upload_touches fid keys key (o : Object) e w :
  In key keys ->
  touches_only fid keys w (emit e (set_bucket (<[key := o]> (bucket w)) w)).
Proof.
  intros Hin. unfold touches_only; simpl. repeat split; eauto.
  - intros k Hk. apply lookup_insert_ne. intros ->. contradiction.
  - intros k Hk. destruct (decide (key = k)) as [->|Hne].
    + rewrite lookup_insert_eq. eauto.
    + rewrite lookup_insert_ne by exact Hne. exact Hk.
Qed.

Ltac touches_walk leaf :=
  repeat first
    [ apply (preserves_ret _ (touches_only_refl _ _))
    | apply (preserves_bind _ (touches_only_trans _ _)); [ | intros ? ]
    | match goal with
      | |- preserves _ (match ?x with _ => _ end) => destruct x
      | |- preserves _ (if ?x then _ else _) => destruct x
      end
    | assumption
    | (intros ?w; unfold_calls; repeat case_match; simpl;
       first [ apply upload_touches; leaf | solve [touches_leaf] ]) ].

Lemma markFailed_touches_only env fid keys msg :
  preserves (touches_only fid keys) (markFailed env fid msg).
Proof.
  unfold markFailed. touches_walk idtac.
Qed.

Lemma transcodeLoop_touches_only env fid keys data nQ qs :
  (forall q, In q qs -> In (index_key fid q) keys) ->
  forall i done,
    preserves (touches_only fid keys) (transcodeLoop env fid data nQ i qs done).
Proof.
  induction qs as [|q qs IH]; intros Hkeys i done; simpl.
  - apply (preserves_ret _ (touches_only_refl _ _)).
  - pose proof (markFailed_touches_only env fid keys) as HmF.
    unfold uploadHLSFiles.
    touches_walk ltac:(apply Hkeys; left; reflexivity).
    all: try apply HmF.
    all: try (apply IH; intros; apply Hkeys; right; assumption).
Qed.

Lemma ProcessJob_touches_only env Q fid :
  preserves (touches_only fid (job_keys fid Q)) (ProcessJob env Q fid).
Proof.
  pose proof (markFailed_touches_only env fid (job_keys fid Q)) as HmF.
  pose proof (transcodeLoop_touches_only env fid (job_keys fid Q)) as HL.
  unfold ProcessJob.
  touches_walk ltac:(first [ left; reflexivity | right; left; reflexivity ]).
  all: try apply HmF.
  all: try (apply HL; intros q Hq; right; right; apply in_map; exact Hq).
Qed.

Lemma snoc_string_inj (a b : string) (x y : Ascii.ascii) :
  a +:+ String x "" = b +:+ String y "" -> a = b /\ x = y.
Proof.
  revert b. induction a as [|c a IH]; intros [|d b] H.
  - injection H as ->. auto.
  - rewrite append_cons in H. injection H as -> H.
    destruct b; discriminate H.
  - rewrite append_cons in H. injection H as -> H.
    destruct a; discriminate H.
  - rewrite !append_cons in H. injection H as -> H.
    destruct (IH b H) as [-> ->]. auto.
Qed.

Lemma source_key_not_job_key fid Q : ~ In (source_key fid) (job_keys fid Q).
Proof.
  unfold job_keys. cbn [In]. intros [H | [H | H]].
  - discriminate H.
  - discriminate H.
  - apply in_map_iff in H as (q & H & _). discriminate H.
Qed.

Lemma segment_key_not_job_key fid Q q : ~ In (segment_key fid q) (job_keys fid Q).
Proof.
  unfold job_keys. cbn [In]. intros [H | [H | H]].
  - discriminate H.
  - unfold master_key, segment_key in H.
    apply (inj (String.app r2.HLSPath)), (inj (String.app "/")),
          (inj (String.app fid)) in H.
    apply (f_equal String.length) in H.
    rewrite !length_append in H. simpl in H. lia.
  - apply in_map_iff in H as (q' & H & _).
    unfold index_key, segment_key in H.
    apply (inj (String.app r2.HLSPath)), (inj (String.app "/")),
          (inj (String.app fid)), (inj (String.app "/")) in H.
    change (Name q' +:+ "/" +:+ "index.m3u8")
      with (Name q' +:+ "/index.m3u" +:+ String (Ascii.ascii_of_nat 56) "") in H.
    change (Name q +:+ "/" +:+ "seg_00000.ts")
      with (Name q +:+ "/seg_00000.t" +:+ String (Ascii.ascii_of_nat 115) "") in H.
    rewrite <- !append_assoc in H.
    apply snoc_string_inj in H as [_ H]. discriminate H.
Qed.

Lemma resolve_segment fid q :
  resolve_relative (index_key fid q) "seg_00000.ts" = segment_key fid q.
Proof.
  unfold resolve_relative, index_key, segment_key.
  change ("/" +:+ "index.m3u8") with (String slash "index.m3u8").
  rewrite <- !append_assoc.
  rewrite dirname_app by reflexivity.
  rewrite !append_assoc. reflexivity.
Qed.

(** X4: whatever the collaborators do, a run of [ProcessJob] for a film
    reaches nothing of another film.  It leaves the queue, every other film
    row and every other cache entry as they were; it adds and removes no
    film row; of the row of its film it keeps the id, the title and the
    owner; in the bucket it writes only under the thumbnail key, the key of
    the master manifest and the index playlist keys of the film, and it
    removes no object.  The uploaded source is among the objects it leaves
    as they were. *)
Theorem ProcessJob_touches_only_its_film env Q fid w :
  let w' := (ProcessJob env Q fid w).2 in
  touches_only fid (job_keys fid Q) w w' /\
  bucket w' !! source_key fid = bucket w !! source_key fid.
Proof.
  cbv zeta.
  pose proof (ProcessJob_touches_only env Q fid w) as H.
  split; [exact H|].
  destruct H as (_ & _ & _ & _ & _ & Hb & _).
  apply Hb, source_key_not_job_key.
Qed.

(** X5: the index playlist uploaded for a tier is the fixed text
    [readIndexFile] returns, whatever was transcoded.  Its one URI line is
    [seg_00000.ts], which a player resolves to
    [hls/{id}/{tier}/seg_00000.ts].  No run of [ProcessJob] writes that
    object: what was under the key before the run, if anything, is there
    after it. *)
Theorem ProcessJob_uploads_no_segment env Q fid w q :
  let w' := (ProcessJob env Q fid w).2 in
  (forall dir, ffmpeg.readIndexFile dir = Ok ffmpeg.index_playlist) /\
  manifest_uris ffmpeg.index_playlist = [ "seg_00000.ts" ] /\
  resolve_relative (index_key fid q) "seg_00000.ts" = segment_key fid q /\
  bucket w' !! segment_key fid q = bucket w !! segment_key fid q.
Proof.
  cbv zeta. split; [reflexivity|]. split; [reflexivity|].
  split; [apply resolve_segment|].
  destruct (ProcessJob_touches_only env Q fid w) as (_ & _ & _ & _ & _ & Hb & _).
  apply Hb, segment_key_not_job_key.
Qed.

(** ** The outcome of a run *)

Section Outcome.
Context (env : Env) (fid : string).
Hypothesis db_ok : forall n, db_err env n = None.
Hypothesis redis_ok : forall n, redis_err env n = None.

Lemma markFailed_marks msg w :
  has_film fid w -> marked StatusFailed fid (markFailed env fid msg w).2.
Proof.
  intros [f Hf]. unfold markFailed. rewrite bind_eq.
  rewrite (UpdateTranscodeJobStatus_ok env fid db_ok) by reflexivity.
  cbv beta iota zeta. rewrite bind_eq. unfold redis.SetFilmStatus.
  rewrite redis_ok. cbv beta iota zeta. rewrite bind_eq.
  unfold db.UpdateFilmStatus. rewrite db_ok. cbv beta iota zeta.
  unfold ret. cbn [snd]. unfold marked.
  cbn [films cache transcode_jobs emit set_films set_cache set_transcode_jobs].
  split; [|split].
  - rewrite lookup_alter_eq, Hf. eexists. split; reflexivity.
  - apply lookup_insert_eq.
  - intros j. rewrite lookup_alter_eq.
    destruct (transcode_jobs w !! fid); intros [= <-]. reflexivity.
Qed.

Lemma UpdateTranscodeJobStatus_keeps_film st p msg w :
  has_film fid w ->
  has_film fid (db.UpdateTranscodeJobStatus env fid st p msg w).2.
Proof.
  intros H. unfold db.UpdateTranscodeJobStatus.
  repeat case_match; exact H.
Qed.

Lemma UploadFile_keeps_film key data ct w :
  has_film fid w -> has_film fid (r2.UploadFile env key data ct w).2.
Proof. intros H. unfold r2.UploadFile. repeat case_match; exact H. Qed.

Lemma transcodeLoop_outcome data nQ qs :
  forall i done w,
    has_film fid w ->
    let r := transcodeLoop env fid data nQ i qs done w in
    match r.1 with
    | Ok _ => has_film fid r.2
    | Err _ => marked StatusFailed fid r.2
    end.
Proof.
  induction qs as [|q qs IH]; intros i done w Hw; cbv zeta.
  - exact Hw.
  - cbn [transcodeLoop]. rewrite bind_eq. unfold ffmpeg.TranscodeToHLS.
    destruct (ffmpeg_hls env (step w) data fid q) as [e|].
    { cbv beta iota zeta. rewrite bind_eq.
      pose proof (markFailed_marks
                    ("failed to transcode to " +:+ Name q +:+ ": " +:+
                     ("ffmpeg transcoding failed: " +:+ e))
                    (emit (EvTranscode (Name q) false) w) Hw) as Hm.
      destruct (markFailed env fid _ _) as [u w1]. exact Hm. }
    unfold ffmpeg.readIndexFile. cbv beta iota zeta. rewrite bind_eq.
    unfold uploadHLSFiles. rewrite bind_eq.
    match goal with |- context [r2.UploadHLSFile env fid ?a ?b ?c ?w1] =>
      pose proof (UploadFile_keeps_film
                    (r2.HLSPath +:+ "/" +:+ fid +:+ "/" +:+ a +:+ "/" +:+ b)
                    c "application/x-mpegURL" w1 Hw) as Hup;
      change (r2.UploadHLSFile env fid a b c w1)
        with (r2.UploadFile env
                (r2.HLSPath +:+ "/" +:+ fid +:+ "/" +:+ a +:+ "/" +:+ b)
                c "application/x-mpegURL" w1);
      destruct (r2.UploadFile env
                  (r2.HLSPath +:+ "/" +:+ fid +:+ "/" +:+ a +:+ "/" +:+ b)
                  c "application/x-mpegURL" w1) as [err w2]
    end.
    cbn [snd] in Hup. destruct err as [e|]; unfold ret;
      cbv beta iota zeta; rewrite bind_eq.
    { pose proof (markFailed_marks ("failed to upload HLS files: " +:+ e)
                    w2 Hup) as Hm.
      destruct (markFailed env fid _ _) as [u w3]. exact Hm. }
    match goal with |- context [db.UpdateTranscodeJobStatus env fid ?st ?p ?m w2] =>
      pose proof (UpdateTranscodeJobStatus_keeps_film st p m w2 Hup) as Hst;
      destruct (db.UpdateTranscodeJobStatus env fid st p m w2) as [err w3]
    end.
    cbn [snd] in Hst. apply IH. exact Hst.
Qed.

Lemma ProcessJob_outcome Q w :
  has_film fid w ->
  let r := ProcessJob env Q fid w in
  marked (match r.1 with None => StatusReady | Some _ => StatusFailed end)
         fid r.2.
Proof.
  intros Hw. cbv zeta.
  set (P := fun rw : error * World =>
              marked (match rw.1 with
                      | None => StatusReady
                      | Some _ => StatusFailed
                      end) fid rw.2).
  change (P (ProcessJob env Q fid w)).
  unfold ProcessJob. rewrite bind_eq.
  rewrite (UpdateTranscodeJobStatus_ok env fid db_ok) by reflexivity.
  cbv beta iota zeta.
  match goal with |- context [bind _ _ ?w1] =>
    assert (has_film fid w1) as H1 by exact Hw; generalize dependent w1
  end.
  intros w1 H1. rewrite bind_eq.
  unfold r2.DownloadOriginalVideo, r2.DownloadFile.
  destruct (r2_err env (step w1)) as [e|].
  { cbv beta iota zeta. rewrite bind_eq.
    pose proof (markFailed_marks ("failed to download video: " +:+ e)
                  (emit (EvDownload (r2.OriginalPath +:+ "/" +:+ fid
                                     +:+ "/source.mp4") false) w1) H1) as Hm.
    destruct (markFailed env fid _ _) as [u w2]. exact Hm. }
  destruct (bucket w1 !! _) as [o|].
  2: { cbv beta iota zeta. rewrite bind_eq.
       pose proof (markFailed_marks ("failed to download video: " +:+ "NoSuchKey")
                  (emit (EvDownload (r2.OriginalPath +:+ "/" +:+ fid
                                     +:+ "/source.mp4") false) w1) H1) as Hm.
       destruct (markFailed env fid _ _) as [u w2]. exact Hm. }
  cbv beta iota zeta. rewrite bind_eq. unfold ffmpeg.GetVideoInfo.
  match goal with |- context [ffmpeg_probe env (step ?w2) ?d] =>
    assert (has_film fid w2) as H2 by exact H1;
    destruct (ffmpeg_probe env (step w2) d) as [info|e]
  end.
  2: { cbv beta iota zeta. rewrite bind_eq.
       match goal with |- context [markFailed env fid ?m ?w3] =>
         pose proof (markFailed_marks m w3 H2) as Hm;
         destruct (markFailed env fid m w3) as [u w4]
       end. exact Hm. }
  cbv beta iota zeta. rewrite bind_eq.
  match goal with |- context [db.UpdateTranscodeJobStatus env fid ?st ?p ?m ?w3] =>
    pose proof (UpdateTranscodeJobStatus_keeps_film st p m w3 H2) as H3;
    destruct (db.UpdateTranscodeJobStatus env fid st p m w3) as [err3 w4]
  end.
  cbn [snd] in H3. rewrite bind_eq.
  unfold ffmpeg.GenerateThumbnail.
  destruct (ffmpeg_thumbnail env (step w4) (Body o) (Duration info))
    as [img|e]; cbv beta iota zeta; rewrite bind_eq.
  1: rewrite bind_eq;
     match goal with |- context [r2.UploadFile env ?k ?d ?ct ?w5] =>
       pose proof (UploadFile_keeps_film k d ct w5 H3) as H5;
       destruct (r2.UploadFile env k d ct w5) as [err5 w6]
     end; cbn [snd] in H5; cbv beta iota zeta.
  2: pose proof H3 as H5.
  all: unfold ret at 1; cbv beta iota zeta; rewrite bind_eq.
  all: match goal with |- context [transcodeLoop env fid ?d ?n 0 ?qs [] ?w5] =>
         pose proof (transcodeLoop_outcome d n qs 0 [] w5 H5) as Hloop;
         cbv zeta in Hloop;
         destruct (transcodeLoop env fid d n 0 qs [] w5) as [[done|e'] wl]
       end; cbn [fst snd] in Hloop; cbv beta iota zeta.
  all: try exact Hloop.
  all: unfold ffmpeg.GenerateMasterPlaylist; cbv beta iota zeta;
       rewrite bind_eq.
  all: match goal with |- context [r2.UploadFile env ?k ?d ?ct ?w6] =>
         pose proof (UploadFile_keeps_film k d ct w6 Hloop) as H7;
         destruct (r2.UploadFile env k d ct w6) as [err w7]
       end; cbn [snd] in H7.
  all: destruct err as [e'|]; cbv beta iota zeta; rewrite bind_eq.
  all: try (match goal with |- context [markFailed env fid ?m ?w3] =>
              pose proof (markFailed_marks m w3 H7) as Hm;
              destruct (markFailed env fid m w3) as [u w8]
            end; exact Hm).
  all: rewrite (UpdateFilmHLS_ok env fid db_ok); cbv beta iota zeta;
       rewrite bind_eq;
       rewrite (UpdateTranscodeJobStatus_ok env fid db_ok) by reflexivity;
       cbv beta iota zeta; rewrite bind_eq; unfold redis.SetFilmStatus;
       rewrite redis_ok; cbv beta iota zeta; unfold ret; subst P;
       cbn [fst snd]; unfold marked;
       cbn [films cache transcode_jobs emit set_films set_cache
            set_transcode_jobs];
       destruct H7 as [f Hf]; (split; [|split]);
       [ rewrite lookup_alter_eq, Hf; eexists; split; reflexivity
       | apply lookup_insert_eq
       | intros j; rewrite lookup_alter_eq;
         match goal with |- context [transcode_jobs ?w8 !! fid] =>
           destruct (transcode_jobs w8 !! fid)
         end; intros [= <-]; reflexivity ].
Qed.

End Outcome.

(** X6: with the database and Redis answering, a run of [ProcessJob] on
    a film that has a row always leaves its outcome behind: READY when it
    returns nil and FAILED when it returns an error, in the film row, in the
    cache entry of the film and in the job row stored under the id of the
    film, if there is one.  No run leaves the film TRANSCODING. *)
Theorem ProcessJob_records_its_outcome env Q fid w :
  (forall n, db_err env n = None) ->
  (forall n, redis_err env n = None) ->
  is_Some (films w !! fid) ->
  let r := ProcessJob env Q fid w in
  let st := match r.1 with None => StatusReady | Some _ => StatusFailed end in
  (exists f, films r.2 !! fid = Some f /\ Film.Status f = st) /\
  cache r.2 !! redis.FilmStatusKey fid = Some (FilmStatus_string st) /\
  (forall j, transcode_jobs r.2 !! fid = Some j ->
     TranscodeJob.Status j = st) /\
  (forall f, films r.2 !! fid = Some f ->
     Film.Status f <> StatusTranscoding).
Proof.
  intros Hdb Hredis Hfilm. cbv zeta.
  pose proof (ProcessJob_outcome env fid Hdb Hredis Q w Hfilm) as Hm.
  cbv zeta in Hm.
  destruct (ProcessJob env Q fid w) as [r w']. cbn [fst snd] in Hm |- *.
  destruct Hm as ((f & Hf & Hst) & Hc & Hj).
  split; [exists f; split; assumption|].
  split; [exact Hc|]. split; [exact Hj|].
  intros f' Hf'. rewrite Hf in Hf'. injection Hf' as <-. rewrite Hst.
  destruct r; discriminate.
Qed.

Lemma ProcessJob_records_its_outcome_witness :
  let w := sample.world_without_source sample.job_uploaded sample.film0 in
  let r := ProcessJob sample.env_ok ffmpeg.Qualities sample.fid w in
  let st := match r.1 with None => StatusReady | Some _ => StatusFailed end in
  (exists f, films r.2 !! sample.fid = Some f /\ Film.Status f = st) /\
  cache r.2 !! redis.FilmStatusKey sample.fid = Some (FilmStatus_string st) /\
  (forall j, transcode_jobs r.2 !! sample.fid = Some j ->
     TranscodeJob.Status j = st) /\
  (forall f, films r.2 !! sample.fid = Some f ->
     Film.Status f <> StatusTranscoding).
Proof.
  apply (ProcessJob_records_its_outcome sample.env_ok ffmpeg.Qualities
           sample.fid
           (sample.world_without_source sample.job_uploaded sample.film0)).
  - intros n. reflexivity.
  - intros n. reflexivity.
  - vm_compute. eexists. reflexivity.
Defined.

(** ** The objects of a tier and the master manifest *)

Lemma substring_skip (s t : string) (n : nat) :
  String.substring (String.length s) n (s +:+ t) = String.substring 0 n t.
Proof.
  induction s as [|c s IH]; [reflexivity|].
  rewrite append_cons. cbn [String.length String.substring]. exact IH.
Qed.

Lemma substring_all (t : string) : String.substring 0 (String.length t) t = t.
Proof.
  induction t as [|c t IH]; [reflexivity|].
  cbn [String.length String.substring]. rewrite IH. reflexivity.
Qed.

Lemma substring_split (s : string) (n : nat) :
  (n <= String.length s)%nat ->
  s = String.substring 0 n s
      +:+ String.substring n (String.length s - n) s.
Proof.
  revert n. induction s as [|c s IH]; intros n Hn.
  - destruct n; [reflexivity | simpl in Hn; lia].
  - destruct n as [|n].
    + cbn [String.substring String.length Nat.sub].
      change ("" +:+ ?x) with x. rewrite substring_all. reflexivity.
    + cbn [String.substring String.length Nat.sub]. rewrite append_cons.
      f_equal. apply IH. simpl in Hn. lia.
Qed.

Lemma substring_length (s : string) (n m : nat) :
  (n + m <= String.length s)%nat ->
  String.length (String.substring n m s) = m.
Proof.
  revert n m. induction s as [|c s IH]; intros n m H.
  - simpl in H. assert (n = 0 /\ m = 0)%nat as [-> ->] by lia. reflexivity.
  - destruct n as [|n]; cbn [String.substring].
    + destruct m as [|m]; [reflexivity|].
      cbn [String.length]. f_equal. apply (IH 0%nat). simpl in H. lia.
    + apply IH. simpl in H. lia.
Qed.

(** The test of [UploadHLSFile] singles out the names [s.ts] with at least
    two bytes before the extension. *)
Lemma segment_name_test (filename : string) :
  (4 <? Z.of_nat (String.length filename)) &&
  bool_decide (r2.suffix3 filename = ".ts") = true <->
  exists s, filename = s +:+ ".ts" /\ (2 <= String.length s)%nat.
Proof.
  split.
  - intros H. apply andb_true_iff in H as [Hlen Hsuf].
    apply Z.ltb_lt in Hlen. apply bool_decide_eq_true_1 in Hsuf.
    unfold r2.suffix3 in Hsuf.
    exists (String.substring 0 (String.length filename - 3) filename).
    split.
    + pose proof (substring_split filename (String.length filename - 3))
        as Hsplit.
      replace (String.length filename - (String.length filename - 3))%nat
        with 3%nat in Hsplit by lia.
      rewrite Hsuf in Hsplit. apply Hsplit. lia.
    + rewrite substring_length by lia. lia.
  - intros (s & -> & Hs). apply andb_true_iff. split.
    + apply Z.ltb_lt. rewrite length_append. simpl. lia.
    + apply bool_decide_eq_true_2. unfold r2.suffix3.
      rewrite length_append. simpl String.length.
      replace (String.length s + 3 - 3)%nat with (String.length s) by lia.
      rewrite substring_skip. reflexivity.
Qed.

(** X7: [UploadHLSFile] stores the file under
    [hls/{id}/{tier}/{filename}].  The content type is [video/mp2t] exactly
    when the file name ends in [.ts] and has at least two characters before
    it, and [application/x-mpegURL] otherwise; a segment named [a.ts] is
    stored as a playlist. *)
Theorem UploadHLSFile_content_type env fid q filename data :
  let key := "hls/" +:+ fid +:+ "/" +:+ q +:+ "/" +:+ filename in
  ((exists s, filename = s +:+ ".ts" /\ (2 <= String.length s)%nat) ->
   r2.UploadHLSFile env fid q filename data =
   r2.UploadFile env key data "video/mp2t") /\
  (~ (exists s, filename = s +:+ ".ts" /\ (2 <= String.length s)%nat) ->
   r2.UploadHLSFile env fid q filename data =
   r2.UploadFile env key data "application/x-mpegURL") /\
  r2.UploadHLSFile env fid q "a.ts" data =
    r2.UploadFile env ("hls/" +:+ fid +:+ "/" +:+ q +:+ "/" +:+ "a.ts") data
                  "application/x-mpegURL".
Proof.
  cbv zeta. unfold r2.UploadHLSFile.
  split; [|split; [|reflexivity]].
  - intros H. apply segment_name_test in H. rewrite H. reflexivity.
  - intros H.
    destruct ((4 <? Z.of_nat (String.length filename)) &&
              bool_decide (r2.suffix3 filename = ".ts")) eqn:Ht;
      [|reflexivity].
    apply segment_name_test in Ht. contradiction.
Qed.

Lemma split_on_without c s : occurs c s = false -> split_on c s = [ s ].
Proof.
  induction s as [|a s IH]; [reflexivity|]. cbn [occurs split_on].
  intros H. apply orb_false_iff in H as [Ha Hs].
  rewrite Ha, IH by exact Hs. reflexivity.
Qed.

Lemma split_on_pieces c s : Forall (fun p => occurs c p = false) (split_on c s).
Proof.
  induction s as [|a s IH]; [repeat constructor|]. cbn [split_on].
  destruct (Ascii.eqb a c) eqn:Hac.
  - constructor; [reflexivity | exact IH].
  - pose proof (split_on_nonempty c s) as Hne.
    destruct (split_on c s) as [|l ls]; [congruence|].
    apply Forall_cons in IH as [Hl Hls].
    constructor; [|exact Hls]. cbn [occurs]. rewrite Hac, Hl. reflexivity.
Qed.

Lemma split_on_two c s a b :
  split_on c s = [ a; b ] <->
  s = a +:+ String c b /\ occurs c a = false /\ occurs c b = false.
Proof.
  split.
  - intros H. pose proof (concat_split_on c s) as Hcat.
    pose proof (split_on_pieces c s) as Hp. rewrite H in Hcat, Hp.
    apply Forall_cons in Hp as [Ha Hp'].
    apply Forall_cons in Hp' as [Hb _].
    split; [|auto]. rewrite <- Hcat. cbn [String.concat].
    reflexivity.
  - intros (-> & Ha & Hb).
    rewrite split_on_app, !split_on_without by assumption. reflexivity.
Qed.

Lemma occurs_app c a b : occurs c (a +:+ b) = occurs c a || occurs c b.
Proof.
  induction a as [|x a IH]; [reflexivity|].
  rewrite append_cons. cbn [occurs]. rewrite IH, orb_assoc. reflexivity.
Qed.

Lemma stream_inf_cases q :
  (q = "360p" /\
   stream_inf q = "#EXT-X-STREAM-INF:BANDWIDTH=800000,RESOLUTION=640x360") \/
  (q = "720p" /\
   stream_inf q = "#EXT-X-STREAM-INF:BANDWIDTH=2500000,RESOLUTION=1280x720") \/
  (q <> "360p" /\ q <> "720p" /\
   stream_inf q = "#EXT-X-STREAM-INF:BANDWIDTH=0,RESOLUTION=").
Proof.
  destruct (decide (q = "360p")) as [->|H1];
    [left; split; [reflexivity | vm_compute; reflexivity]|].
  destruct (decide (q = "720p")) as [->|H2];
    [right; left; split; [reflexivity | vm_compute; reflexivity]|].
  right; right. split; [exact H1|]. split; [exact H2|].
  unfold stream_inf, ffmpeg.bitrates, ffmpeg.resolutions.
  rewrite !lookup_insert_ne, !lookup_empty by congruence.
  vm_compute. reflexivity.
Qed.

Lemma stream_inf_one_line q : occurs newline (stream_inf q) = false.
Proof.
  destruct (stream_inf_cases q) as [[_ ->]|[[_ ->]|(_ & _ & ->)]];
    vm_compute; reflexivity.
Qed.

Lemma master_entry_lines q rest :
  plain_name q = true ->
  List.filter is_uri_line
    (split_on newline (ffmpeg.master_entry q +:+ rest)) =
  playlist_uri q :: List.filter is_uri_line (split_on newline rest).
Proof.
  intros Hq. apply andb_true_iff in Hq as [Huri Hnl].
  apply negb_true_iff in Hnl.
  assert (ffmpeg.master_entry q +:+ rest =
          stream_inf q +:+ String newline
            (playlist_uri q +:+ String newline rest)) as ->.
  { unfold ffmpeg.master_entry, stream_inf, playlist_uri, nl.
    rewrite !append_assoc. reflexivity. }
  rewrite !split_on_app.
  rewrite (split_on_without _ _ (stream_inf_one_line q)).
  rewrite split_on_without.
  2: { unfold playlist_uri. rewrite !occurs_app, Hnl. reflexivity. }
  cbn [app List.filter].
  assert (is_uri_line (stream_inf q) = false) as -> by reflexivity.
  assert (is_uri_line (playlist_uri q) = true) as ->.
  { destruct q as [|a q]; [discriminate|]. exact Huri. }
  reflexivity.
Qed.

Lemma fold_master_entries qs :
  forall h,
    fold_left (fun master q => master +:+ ffmpeg.master_entry q) qs h =
    h +:+ foldr (fun q acc => ffmpeg.master_entry q +:+ acc) "" qs.
Proof.
  induction qs as [|q qs IH]; intros h; cbn [fold_left foldr].
  - induction h as [|x h IHh]; [reflexivity|].
    rewrite append_cons, <- IHh. reflexivity.
  - rewrite IH, append_assoc. reflexivity.
Qed.

(** X8: [GenerateMasterPlaylist] writes the header and one entry for
    each name it is given, in the order given and with repetitions.  When
    every name is a plain one (not empty, not beginning with [#], without a
    line break) the URI lines a player reads are exactly
    [{name}/{name}/index.m3u8] for the names in order.  The tag line of 360p
    and of 720p carries the bandwidth and the resolution of the two tables;
    for every other name the lookups give the zero values and the tag line
    is [#EXT-X-STREAM-INF:BANDWIDTH=0,RESOLUTION=]. *)
Theorem GenerateMasterPlaylist_lists_the_names_given fid qs :
  (exists b,
     ffmpeg.GenerateMasterPlaylist fid qs = Ok b /\
     b = ffmpeg.master_header
           +:+ foldr (fun q acc => ffmpeg.master_entry q +:+ acc) "" qs /\
     (forallb plain_name qs = true ->
      manifest_uris b = map playlist_uri qs)) /\
  (forall q,
     ffmpeg.master_entry q =
       (stream_inf q +:+ nl) +:+ (playlist_uri q +:+ nl)) /\
  stream_inf "360p" =
    "#EXT-X-STREAM-INF:BANDWIDTH=800000,RESOLUTION=640x360" /\
  stream_inf "720p" =
    "#EXT-X-STREAM-INF:BANDWIDTH=2500000,RESOLUTION=1280x720" /\
  (forall q, q <> "360p" -> q <> "720p" ->
     stream_inf q = "#EXT-X-STREAM-INF:BANDWIDTH=0,RESOLUTION=").
Proof.
  split; [|split; [|split; [|split]]].
  - eexists. split; [reflexivity|]. split; [apply fold_master_entries|].
    intros Hqs. rewrite fold_master_entries. unfold manifest_uris.
    match goal with |- context [ffmpeg.master_header +:+ ?x] =>
      change (ffmpeg.master_header +:+ x)
        with ("#EXTM3U" +:+ String newline
                ("#EXT-X-VERSION:3" +:+ String newline x))
    end.
    rewrite !split_on_app. cbn [app List.filter].
    change (split_on newline "#EXTM3U") with [ "#EXTM3U" ].
    change (split_on newline "#EXT-X-VERSION:3") with [ "#EXT-X-VERSION:3" ].
    cbn [app List.filter].
    change (is_uri_line "#EXTM3U") with false.
    change (is_uri_line "#EXT-X-VERSION:3") with false.
    cbv iota.
    induction qs as [|q qs IH]; [reflexivity|].
    cbn [forallb] in Hqs. apply andb_true_iff in Hqs as [Hq Hqs].
    cbn [foldr map]. rewrite (master_entry_lines q _ Hq), IH by exact Hqs.
    reflexivity.
  - intros q. unfold ffmpeg.master_entry, stream_inf, playlist_uri.
    rewrite !append_assoc. reflexivity.
  - vm_compute. reflexivity.
  - vm_compute. reflexivity.
  - intros q H1 H2.
    destruct (stream_inf_cases q) as [[? _]|[[? _]|(_ & _ & ->)]];
      [contradiction | contradiction | reflexivity].
Qed.



Ltac reply_done :=
  unfold ret, api.recovered; simpl; repeat split; intros;
  repeat match goal with
         | H : _ \/ _ |- _ => destruct H
         end;
  try congruence; try lia; eauto 8.

(** X10: for every request and every behaviour of the collaborators,
    [ConfirmUpload] answers 200, 400, 403, 404 or 500.  It answers 200 or 500
    only when the id parses, the film exists, its row scans and the caller
    owns it; an id that does not parse gives 400 and no action at all.
    Unless the answer is 200 the film rows and the cache are as before.
    Unless it is 200 or the 500 without a body that follows the panic on a
    transaction that did not open, the queue is as before; with that 500 the
    film id has been pushed and stays in the queue.  Unless the answer is 200
    or 500 the job rows are as before.  The bucket and the video assets are
    never changed. *)
Theorem ConfirmUpload_acts_only_for_the_owner env req w :
  let r := api.ConfirmUpload env req w in
  (api.code r.1 = 200 \/ api.code r.1 = 400 \/ api.code r.1 = 403 \/
   api.code r.1 = 404 \/ api.code r.1 = 500) /\
  (api.code r.1 = 200 \/ api.code r.1 = 500 ->
     exists filmID film,
       uuid_Parse env (api.param_id req) = Some filmID /\
       films w !! filmID = Some film /\
       db.scan_film film = None /\
       Film.CreatedByID film = api.GetUserID req) /\
  (uuid_Parse env (api.param_id req) = None ->
     api.code r.1 = 400 /\ r.2 = w) /\
  (api.code r.1 <> 200 -> films r.2 = films w /\ cache r.2 = cache w) /\
  (api.code r.1 <> 200 -> r.1 <> api.recovered -> queue r.2 = queue w) /\
  (r.1 = api.recovered ->
     exists filmID,
       uuid_Parse env (api.param_id req) = Some filmID /\
       queue r.2 = filmID :: queue w /\
       transcode_jobs r.2 =
         <[uuid_New env (S (step w)) :=
             TranscodeJob.mk (uuid_New env (S (step w))) filmID
               StatusUploaded None 0 None None (db_now env (S (step w)))]>
           (transcode_jobs w)) /\
  (api.code r.1 <> 200 -> api.code r.1 <> 500 ->
     transcode_jobs r.2 = transcode_jobs w) /\
  bucket r.2 = bucket w /\ video_assets r.2 = video_assets w.
Proof.
  cbv zeta. unfold api.ConfirmUpload.
  destruct (uuid_Parse env (api.param_id req)) as [filmID|] eqn:Hparse.
  2: reply_done.
  rewrite bind_eq. unfold db.GetFilmByID.
  destruct (db_err env (step w)) as [e0|] eqn:Hdb0.
  1: reply_done.
  destruct (films w !! filmID) as [film|] eqn:Hfilm.
  2: reply_done.
  destruct (db.scan_film film) as [es|] eqn:Hscan.
  1: reply_done.
  cbv beta iota zeta.
  case_bool_decide as Hown; cbn [negb].
  2: reply_done.
  rewrite bind_eq. unfold api.newUUID. cbv beta iota zeta.
  rewrite bind_eq. unfold db.CreateTranscodeJob. rewrite !step_emit.
  destruct (db_err env (S (step w))) as [e1|]; cbv beta iota zeta.
  1: reply_done.
  destruct (db.insert_job_allowed _ _); cbv beta iota zeta.
  2: reply_done.
  rewrite bind_eq. unfold redis.EnqueueTranscodeJob.
  match goal with |- context [redis_err env ?n] =>
    destruct (redis_err env n) as [e2|]; cbv beta iota zeta
  end.
  1: reply_done.
  rewrite bind_eq. unfold db.BeginTx.
  match goal with |- context [db_err env (step ?x)] =>
    destruct (db_err env (step x)) as [et|]; cbv beta iota zeta
  end.
  1: reply_done.
  rewrite bind_eq. unfold db.UpdateFilmStatus.
  match goal with |- context [db_err env (step ?x)] =>
    destruct (db_err env (step x)) as [e3|]; cbv beta iota zeta
  end.
  all: rewrite bind_eq; unfold redis.SetFilmStatus;
    match goal with |- context [redis_err ?e ?n] =>
      destruct (redis_err e n) as [e4|]; cbv beta iota zeta
    end; reply_done.
Qed.



(** ** The queue and the loop of the worker *)

Lemma site_bind_eq {A B} (m : site.SM A) (k : A -> site.SM B) s :
  site.bind m k s = let '(a, s1) := m s in k a s1.
Proof. reflexivity. Qed.

Lemma no_new_start_refl w : no_new_start w w.
Proof. exists []. split; reflexivity. Qed.

Lemma job_starts_app a b : job_starts (a ++ b) = job_starts a ++ job_starts b.
Proof. apply omap_app. Qed.

Lemma no_new_start_trans w1 w2 w3 :
  no_new_start w1 w2 -> no_new_start w2 w3 -> no_new_start w1 w3.
Proof.
  intros (e1 & H1 & S1) (e2 & H2 & S2). exists (e2 ++ e1). split.
  - rewrite H2, H1. apply app_assoc.
  - rewrite job_starts_app, S1, S2. reflexivity.
Qed.

Lemma job_start_of_update id st p msg ok :
  p <> 10 -> job_starts [ EvJobUpdate id st p msg ok ] = [].
Proof.
  intros Hp. unfold job_starts. cbn. destruct st; try reflexivity.
  rewrite bool_decide_eq_false_2 by exact Hp. reflexivity.
Qed.

Ltac no_start_leaf :=
  eexists [_]; split; [reflexivity|];
  first [ reflexivity | apply job_start_of_update ].

Lemma markFailed_no_new_start env fid msg :
  preserves no_new_start (markFailed env fid msg).
Proof.
  unfold markFailed.
  preserves_walk no_new_start_refl no_new_start_trans no_start_leaf.
Qed.

Lemma transcodeLoop_no_new_start env fid data nQ qs :
  0 <= nQ ->
  forall i done, 0 <= i ->
    preserves no_new_start (transcodeLoop env fid data nQ i qs done).
Proof.
  intros HnQ. induction qs as [|q qs IH]; intros i done Hi; simpl.
  - apply (preserves_ret _ no_new_start_refl).
  - pose proof (markFailed_no_new_start env fid) as HmF.
    pose proof (quot_60_nonneg nQ HnQ) as Hquot.
    unfold uploadHLSFiles.
    preserves_walk no_new_start_refl no_new_start_trans no_start_leaf.
    all: try apply HmF.
    all: try (apply IH; lia).
    all: match goal with
         | |- 20 + ?a * ?b <> 10 =>
             assert (0 <= a * b) by (apply Z.mul_nonneg_nonneg; lia); lia
         end.
Qed.

(** Every run of [ProcessJob] has exactly one starting statement, its
    first. *)
Lemma ProcessJob_one_start env Q fid w :
  job_starts (events_of (ProcessJob env Q fid w).2) =
  job_starts (events_of w) ++ [fid].
Proof.
  pose proof (markFailed_no_new_start env fid) as HmF.
  pose proof (transcodeLoop_no_new_start env fid) as HL.
  assert (exists evs,
            trace (ProcessJob env Q fid w).2 =
              evs ++ EvJobUpdate fid StatusTranscoding 10 ""
                       (is_nil (db_err env (step w))) :: trace w /\
            job_starts evs = []) as (evs & Htr & Hevs).
  { unfold ProcessJob. cbv zeta. rewrite bind_eq.
    destruct (db.UpdateTranscodeJobStatus env fid StatusTranscoding 10 "" w)
      as [err w1] eqn:Hup.
    unfold db.UpdateTranscodeJobStatus in Hup.
    rewrite andb_false_r in Hup. cbn [db.fits_integer negb orb] in Hup.
    change (negb ((-2147483648 <=? 10) && (10 <=? 2147483647)) || false)
      with false in Hup.
    destruct (db_err env (step w)) as [e|] eqn:Hdb;
      injection Hup as <- <-.
    - exists []. split; reflexivity.
    - match goal with
      | |- context [ @bind ?A ?B ?m ?k ?w1 ] =>
          assert (preserves no_new_start (@bind A B m k)) as Hrest;
          [ | destruct (Hrest w1) as (evs & Hevs & Hst) ]
      end.
      { preserves_walk no_new_start_refl no_new_start_trans no_start_leaf.
        all: try apply HmF.
        all: try (apply HL; lia).
        all: try lia. }
      exists evs. split; [exact Hevs | exact Hst]. }
  unfold events_of. rewrite Htr, rev_app_distr. cbn [rev].
  rewrite <- app_assoc. unfold job_starts in *.
  rewrite !omap_app.
  assert (omap job_start_of (rev evs) = []) as ->.
  { clear Htr. induction evs as [|e evs IH]; [reflexivity|].
    cbn [rev]. rewrite omap_app.
    cbn [omap list_omap] in Hevs.
    destruct (job_start_of e) eqn:He; [discriminate Hevs|].
    rewrite IH by exact Hevs. cbn. rewrite He. reflexivity. }
  cbn. reflexivity.
Qed.

Lemma ProcessJob_keeps_queue env Q fid w :
  queue (ProcessJob env Q fid w).2 = queue w.
Proof. apply (ProcessJob_touches_only env Q fid w). Qed.

Lemma enqueue_all_ok env fs :
  (forall n, redis_err env n = None) ->
  forall w, queue (enqueue_all env fs w).2 = rev fs ++ queue w.
Proof.
  intros Hok. induction fs as [|f fs IH]; intros w; [reflexivity|].
  cbn [enqueue_all]. rewrite bind_eq. unfold redis.EnqueueTranscodeJob.
  rewrite Hok. cbv beta iota zeta. rewrite IH.
  cbn [queue emit set_queue rev]. rewrite <- app_assoc. reflexivity.
Qed.

Lemma dequeue_all_ok env :
  (forall n, site.kv_err env n = None) ->
  forall q s,
    queue (site.world s) = q ->
    Forall (fun f => uuid_Parse (site.base env) f = Some f) q ->
    (dequeue_n env (length q) s).1 = map Ok (rev q) /\
    queue (site.world (dequeue_n env (length q) s).2) = [].
Proof.
  intros Hok q. induction q as [|x q IH] using rev_ind; intros s Hq Hcan.
  - split; [reflexivity | exact Hq].
  - rewrite length_app, Nat.add_comm. cbn [length Nat.add dequeue_n].
    rewrite site_bind_eq. unfold site.redis.DequeueTranscodeJob.
    rewrite Hok, Hq, last_snoc, removelast_last.
    apply Forall_app in Hcan as [Hcq Hcx].
    apply Forall_inv in Hcx. cbv beta in Hcx. rewrite Hcx.
    cbv beta iota zeta. rewrite site_bind_eq.
    match goal with |- context [dequeue_n env (length q) ?s1] =>
      destruct (IH s1 eq_refl Hcq) as [Hres Hemp];
      destruct (dequeue_n env (length q) s1) as [rs s2]
    end.
    cbn [fst snd] in *. unfold site.ret. cbn [fst snd].
    split; [|exact Hemp].
    rewrite Hres, rev_app_distr. reflexivity.
Qed.

(** X12: the queue is first in, first out.  With Redis answering and
    every entry a canonical id, [EnqueueTranscodeJob] for a list of films
    puts them at the head of the list, the last one first, and as many calls
    of [DequeueTranscodeJob] as there are entries return the entries that
    were waiting, oldest first, then the films in the order they were
    enqueued, and leave the queue empty. *)
Theorem queue_first_in_first_out env fs s :
  (forall n, redis_err (site.base env) n = None) ->
  (forall n, site.kv_err env n = None) ->
  Forall (fun f => uuid_Parse (site.base env) f = Some f)
         (queue (site.world s) ++ fs) ->
  let s1 := (site.lift (enqueue_all (site.base env) fs) s).2 in
  let r := dequeue_n env (length (queue (site.world s) ++ fs)) s1 in
  queue (site.world s1) = rev fs ++ queue (site.world s) /\
  r.1 = map Ok (rev (queue (site.world s)) ++ fs) /\
  queue (site.world r.2) = [].
Proof.
  intros Hredis Hkv Hcan. cbv zeta.
  assert (queue (site.world (site.lift (enqueue_all (site.base env) fs) s).2)
          = rev fs ++ queue (site.world s)) as Hq.
  { unfold site.lift.
    pose proof (enqueue_all_ok (site.base env) fs Hredis (site.world s)) as H.
    destruct (enqueue_all (site.base env) fs (site.world s)) as [u w1].
    exact H. }
  split; [exact Hq|].
  replace (length (queue (site.world s) ++ fs))
    with (length (rev fs ++ queue (site.world s)))
    by (rewrite !length_app, length_rev; lia).
  destruct (dequeue_all_ok env Hkv _ _ Hq) as [Hres Hemp].
  { apply Forall_app in Hcan as [Hcq Hcf]. apply Forall_app. split; [|exact Hcq].
    apply Forall_rev. exact Hcf. }
  split; [|exact Hemp].
  rewrite Hres, rev_app_distr, rev_involutive. reflexivity.
Qed.

Lemma queue_first_in_first_out_witness :
  let env := site.sample.env_ok in
  let s := site.sample.site_of (sample.world_no_job sample.film0) in
  let fs := [ sample.fid; sample.jid; sample.uid ] in
  let s1 := (site.lift (enqueue_all (site.base env) fs) s).2 in
  let r := dequeue_n env (length (queue (site.world s) ++ fs)) s1 in
  queue (site.world s1) = rev fs ++ queue (site.world s) /\
  r.1 = map Ok (rev (queue (site.world s)) ++ fs) /\
  queue (site.world r.2) = [].
Proof.
  apply (queue_first_in_first_out site.sample.env_ok
           [ sample.fid; sample.jid; sample.uid ]
           (site.sample.site_of (sample.world_no_job sample.film0))).
  - intros n. reflexivity.
  - intros n. reflexivity.
  - repeat constructor.
Defined.

Ltac turn_done :=
  repeat split; intros;
  repeat match goal with H : _ \/ _ |- _ => destruct H end;
  try discriminate; try congruence.

(** X13: one turn of the worker loop.  When the pop fails the world is
    as before; on an empty queue nothing happens.  Otherwise the oldest entry
    is removed from the queue before anything else is done and is never put
    back: an entry that does not parse, or that is the nil id, is dropped
    with no other effect, and for any other entry the world after the turn
    is that of [ProcessJob] for the film run on the shortened queue, whether
    the run succeeds or not. *)
Theorem workerLoop_turn_takes_an_entry_for_good env Q s :
  let s' := (site.worker.workerLoop_turn env Q s).2 in
  let rest := set_queue (removelast (queue (site.world s))) (site.world s) in
  (site.kv_err env (site.tick s) = None ->
     queue (site.world s') = removelast (queue (site.world s))) /\
  (forall e, site.kv_err env (site.tick s) = Some e ->
     site.world s' = site.world s) /\
  (site.kv_err env (site.tick s) = None ->
     queue (site.world s) = [] -> site.world s' = site.world s) /\
  (forall item,
     site.kv_err env (site.tick s) = None ->
     last (queue (site.world s)) = Some item ->
     uuid_Parse (site.base env) item = None \/
     uuid_Parse (site.base env) item = Some api.uuid_Nil ->
     site.world s' = rest) /\
  (forall item filmID,
     site.kv_err env (site.tick s) = None ->
     last (queue (site.world s)) = Some item ->
     uuid_Parse (site.base env) item = Some filmID ->
     filmID <> api.uuid_Nil ->
     site.world s' = (ProcessJob (site.base env) Q filmID rest).2).
Proof.
  cbv zeta. unfold site.worker.workerLoop_turn. rewrite site_bind_eq.
  unfold site.redis.DequeueTranscodeJob.
  destruct (site.kv_err env (site.tick s)) as [e|] eqn:Hkv.
  { cbv beta iota zeta. unfold site.ret. cbn [snd site.world site.call].
    turn_done. }
  destruct (last (queue (site.world s))) as [item|] eqn:Hlast.
  2: { apply last_None in Hlast. cbv beta iota zeta. unfold site.ret.
       cbn [snd site.world site.call]. rewrite Hlast. turn_done. }
  cbv beta iota zeta.
  assert (queue (site.world s) <> []) as Hne.
  { intros Hnil. rewrite Hnil in Hlast. discriminate Hlast. }
  destruct (uuid_Parse (site.base env) item) as [filmID|] eqn:Hparse.
  2: { unfold site.ret. cbn [snd site.world site.call site.with_world queue
                              set_queue].
       turn_done. }
  cbv beta iota zeta. case_bool_decide as Hnil.
  { unfold site.ret. cbn [snd site.world site.call site.with_world queue
                          set_queue].
    turn_done. }
  rewrite site_bind_eq. unfold site.lift.
  cbn [site.world site.call site.with_world].
  pose proof (ProcessJob_keeps_queue (site.base env) Q filmID
                (set_queue (removelast (queue (site.world s))) (site.world s)))
    as Hkeep.
  destruct (ProcessJob (site.base env) Q filmID
              (set_queue (removelast (queue (site.world s))) (site.world s)))
    as [err w1] eqn:Hrun.
  unfold site.ret. cbn [snd site.world site.call site.with_world] in *.
  turn_done.
  - exact Hkeep.
  - simplify_eq. rewrite Hrun. reflexivity.
Qed.

Lemma workerLoop_turn_on_empty env Q s :
  site.kv_err env (site.tick s) = None ->
  queue (site.world s) = [] ->
  site.world (site.worker.workerLoop_turn env Q s).2 = site.world s.
Proof.
  intros Hkv Hq. unfold site.worker.workerLoop_turn. rewrite site_bind_eq.
  unfold site.redis.DequeueTranscodeJob. rewrite Hkv, Hq. reflexivity.
Qed.

Lemma workerLoop_turn_on_entry env Q s q x :
  site.kv_err env (site.tick s) = None ->
  queue (site.world s) = q ++ [x] ->
  uuid_Parse (site.base env) x = Some x ->
  x <> api.uuid_Nil ->
  site.world (site.worker.workerLoop_turn env Q s).2 =
  (ProcessJob (site.base env) Q x (set_queue q (site.world s))).2.
Proof.
  intros Hkv Hq Hparse Hnil. unfold site.worker.workerLoop_turn.
  rewrite site_bind_eq. unfold site.redis.DequeueTranscodeJob.
  rewrite Hkv, Hq, last_snoc, removelast_last, Hparse.
  cbv beta iota zeta. rewrite bool_decide_eq_false_2 by exact Hnil.
  rewrite site_bind_eq. unfold site.lift.
  cbn [site.world site.call site.with_world].
  destruct (ProcessJob (site.base env) Q x (set_queue q (site.world s)))
    as [err w1].
  reflexivity.
Qed.

(** X14: with Redis and the database answering, so that every
    transaction of a run opens and no run ends the worker, and canonical
    non-nil ids in the queue, [n] turns of the worker loop start the runs of
    the [n] oldest entries, oldest first, one run per entry, and leave the
    younger entries in the queue in their order; turns beyond the length of
    the queue do nothing. *)
Theorem workerLoop_processes_in_arrival_order env Q n s :
  (forall k, site.kv_err env k = None) ->
  (forall k, db_err (site.base env) k = None) ->
  Forall (fun f => uuid_Parse (site.base env) f = Some f /\ f <> api.uuid_Nil)
         (queue (site.world s)) ->
  let s' := (site.worker.workerLoop env Q n s).2 in
  queue (site.world s') =
    take (length (queue (site.world s)) - n) (queue (site.world s)) /\
  job_starts (events_of (site.world s')) =
    job_starts (events_of (site.world s))
    ++ take n (rev (queue (site.world s))).
Proof.
  intros Hkv Hdb. cbv zeta. revert s.
  induction n as [|n IH]; intros s Hcan.
  - cbn [site.worker.workerLoop site.ret snd take].
    rewrite Nat.sub_0_r, firstn_all, app_nil_r. auto.
  - cbn [site.worker.workerLoop]. rewrite site_bind_eq.
    destruct (queue (site.world s)) as [|x0 q0] eqn:Hq0 using rev_ind.
    + pose proof (workerLoop_turn_on_empty env Q s (Hkv _) Hq0) as Hw.
      destruct (site.worker.workerLoop_turn env Q s) as [u s1].
      cbn [snd] in Hw.
      destruct (IH s1) as [IHq IHs]; [rewrite Hw, Hq0; constructor|].
      rewrite IHq, IHs, Hw, Hq0. cbn. rewrite !take_nil. auto.
    + clear IHq0. rename x0 into x, q0 into q.
      apply Forall_app in Hcan as [Hcq Hcx].
      apply Forall_inv in Hcx. destruct Hcx as [Hparse Hnil].
      pose proof (workerLoop_turn_on_entry env Q s q x (Hkv _) Hq0 Hparse Hnil)
        as Hw.
      destruct (site.worker.workerLoop_turn env Q s) as [u s1].
      cbn [snd] in Hw.
      pose proof (ProcessJob_keeps_queue (site.base env) Q x
                    (set_queue q (site.world s))) as Hkeep.
      pose proof (ProcessJob_one_start (site.base env) Q x
                    (set_queue q (site.world s))) as Hstart.
      rewrite <- Hw in Hkeep, Hstart. cbn [queue set_queue] in Hkeep.
      change (events_of (set_queue q (site.world s)))
        with (events_of (site.world s)) in Hstart.
      destruct (IH s1) as [IHq IHs]; [rewrite Hkeep; exact Hcq|].
      rewrite IHq, IHs, Hkeep, Hstart. split.
      * rewrite length_app. cbn [length].
        replace (length q + 1 - S n)%nat with (length q - n)%nat by lia.
        rewrite take_app_le by lia. reflexivity.
      * rewrite rev_app_distr. cbn [rev app take].
        rewrite <- app_assoc. reflexivity.
Qed.

Lemma workerLoop_processes_in_arrival_order_witness :
  let env := site.sample.env_ok in
  let s := site.sample.site_of
             (set_queue [ sample.jid; sample.fid ]
                        (sample.world_of sample.job_confirmed sample.film0)) in
  let s' := (site.worker.workerLoop env ffmpeg.Qualities 3 s).2 in
  queue (site.world s') =
    take (length (queue (site.world s)) - 3) (queue (site.world s)) /\
  job_starts (events_of (site.world s')) =
    job_starts (events_of (site.world s))
    ++ take 3 (rev (queue (site.world s))).
Proof.
  apply (workerLoop_processes_in_arrival_order site.sample.env_ok
           ffmpeg.Qualities 3
           (site.sample.site_of
              (set_queue [ sample.jid; sample.fid ]
                 (sample.world_of sample.job_confirmed sample.film0)))).
  - intros k. reflexivity.
  - intros k. reflexivity.
  - repeat constructor; vm_compute; discriminate.
Defined.

(** ** The film handlers *)


Ltac site_done :=
  unfold site.ret; cbn;
  repeat split; intros;
  repeat match goal with
         | H : _ \/ _ |- _ => destruct H
         | H : exists _, _ |- _ => destruct H
         | H : _ /\ _ |- _ => destruct H
         end;
  simplify_eq; try discriminate; try congruence; try lia; eauto 10.







Lemma ParseUint_from_nonneg s :
  forall n, 0 <= n -> 0 <= (site.api.ParseUint_from n s).1.
Proof.
  induction s as [|ch rest IH]; intros n Hn; cbn [site.api.ParseUint_from].
  - exact Hn.
  - cbv zeta.
    destruct ((0 <=? Z.of_nat (Ascii.nat_of_ascii ch) - 48) &&
              (Z.of_nat (Ascii.nat_of_ascii ch) - 48 <=? 9)) eqn:Hd;
      [|cbn; lia].
    apply andb_prop in Hd as [Hd0 _]. apply Z.leb_le in Hd0.
    destruct (_ <=? n); [cbn; unfold site.api.MaxUint64; lia|].
    destruct (_ <? _); [cbn; unfold site.api.MaxUint64; lia|].
    apply IH. lia.
Qed.

Lemma Atoi_range s : site.api.MinInt <= site.api.Atoi s <= site.api.MaxInt.
Proof.
  unfold site.api.Atoi, site.api.ParseInt.
  destruct s as [|ch rest]; [cbn; unfold site.api.MinInt, site.api.MaxInt; lia|].
  cbv zeta.
  set (neg := Ascii.eqb ch (Ascii.ascii_of_nat 45)).
  set (digits := if Ascii.eqb ch (Ascii.ascii_of_nat 43) || neg
                 then rest else String ch rest).
  assert (0 <= (site.api.ParseUint digits).1) as Hun.
  { unfold site.api.ParseUint. destruct digits; [cbn; lia|].
    apply ParseUint_from_nonneg. lia. }
  destruct (site.api.ParseUint digits) as [un err]. cbn [fst] in Hun.
  unfold site.api.MinInt, site.api.MaxInt.
  destruct err as [[|]|]; cbn [fst]; try lia.
  all: destruct neg; cbn [negb andb];
    repeat match goal with
           | |- context [if ?a <=? ?b then _ else _] =>
               destruct (Z.leb_spec a b)
           | |- context [if ?a <? ?b then _ else _] =>
               destruct (Z.ltb_spec a b)
           end; cbn [fst]; lia.
Qed.

Lemma wrap_int_small z :
  site.api.MinInt <= z <= site.api.MaxInt -> site.api.wrap_int z = z.
Proof.
  unfold site.api.wrap_int, site.api.MinInt, site.api.MaxInt. intros H.
  rewrite Z.mod_small by lia. lia.
Qed.

Lemma FilmStatus_string_ready st :
  FilmStatus_string st = "READY" -> st = StatusReady.
Proof. destruct st; intros H; try discriminate H; reflexivity. Qed.

(** X19: [ListFilms] runs one query and changes nothing.  The page it
    uses is at least 1 and the limit between 1 and 100; the offset is
    [(page-1)*limit] in machine arithmetic, exact for pages up to
    92233720368547758; the status filter is READY or none, any other value
    being ignored.  On success the answer holds at most [limit] films, all
    of them rows of the table and READY when filtered, and all the films
    asked for when they fit on the first page.  A negative offset makes the
    query fail with 500: page 9223372036854775807 with limit 20 wraps to
    offset -40. *)
Theorem ListFilms_paging_and_filter env c s :
  let r := site.api.ListFilms env c s in
  exists page limit offset status ok,
    site.calls r.2 =
      site.CallFilmList limit offset status ok :: site.calls s /\
    site.world r.2 = site.world s /\
    1 <= page <= site.api.MaxInt /\ 1 <= limit <= 100 /\
    offset = site.api.wrap_int ((page - 1) * limit) /\
    (page <= 92233720368547758 -> offset = (page - 1) * limit) /\
    status = (if bool_decide (site.api.DefaultQuery c "status" "" = "READY")
              then "READY" else "") /\
    (ok = false -> r.1 = site.api.fail 500 "failed to retrieve films") /\
    (offset < 0 -> ok = false) /\
    (ok = true ->
     exists page_of_films,
       r.1 = site.api.mkReply 200
               (site.api.Fields
                  [ ("films", site.api.JFilms page_of_films);
                    ("page", site.api.JNumber page);
                    ("limit", site.api.JNumber limit) ]) /\
       Z.of_nat (length page_of_films) <= limit /\
       Forall (fun f =>
                 (exists id, films (site.world s) !! id = Some f) /\
                 (status = "READY" -> Film.Status f = StatusReady))
              page_of_films /\
       (page = 1 -> Z.of_nat (size (films (site.world s))) <= limit ->
        forall id f, films (site.world s) !! id = Some f ->
          status = "" \/ Film.Status f = StatusReady ->
          In f page_of_films)) /\
    (site.api.DefaultQuery c "page" "1" = "9223372036854775807" ->
     site.api.DefaultQuery c "limit" "20" = "20" ->
     offset = -40).
Proof.
  cbv zeta. unfold site.api.ListFilms. cbv zeta.
  set (p0 := site.api.Atoi (site.api.DefaultQuery c "page" "1")).
  set (l0 := site.api.Atoi (site.api.DefaultQuery c "limit" "20")).
  set (page := if p0 <? 1 then 1 else p0).
  set (limit := if (l0 <? 1) || (100 <? l0) then 20 else l0).
  set (status := if bool_decide (site.api.DefaultQuery c "status" "" = "READY")
                 then FilmStatus_string StatusReady else "").
  assert (1 <= page <= site.api.MaxInt) as Hpage.
  { subst page. pose proof (Atoi_range (site.api.DefaultQuery c "page" "1")).
    fold p0 in H. unfold site.api.MaxInt in *.
    destruct (Z.ltb_spec p0 1); lia. }
  assert (1 <= limit <= 100) as Hlimit.
  { subst limit. destruct (Z.ltb_spec l0 1); cbn [orb]; [lia|].
    destruct (Z.ltb_spec 100 l0); lia. }
  assert (site.api.wrap_int (page - 1) = page - 1) as Hsub.
  { apply wrap_int_small. unfold site.api.MinInt, site.api.MaxInt in *. lia. }
  rewrite Hsub.
  set (offset := site.api.wrap_int ((page - 1) * limit)).
  rewrite site_bind_eq. unfold site.db.ListFilms.
  assert (page <= 92233720368547758 -> offset = (page - 1) * limit) as Hexact.
  { intros Hp. subst offset. apply wrap_int_small.
    unfold site.api.MinInt, site.api.MaxInt. nia. }
  assert (site.api.DefaultQuery c "page" "1" = "9223372036854775807" ->
          site.api.DefaultQuery c "limit" "20" = "20" -> offset = -40)
    as Hedge.
  { intros Hp Hl. subst offset page limit p0 l0. rewrite Hp, Hl.
    vm_compute. reflexivity. }
  destruct (site.sql_err env (site.tick s)) as [e|].
  { exists page, limit, offset, status, false. cbn.
    repeat split; auto; try lia; try discriminate. }
  destruct (Z.ltb_spec limit 0) as [Hneg|_]; [lia|].
  destruct (Z.ltb_spec offset 0) as [Hneg|Hpos].
  { exists page, limit, offset, status, false. cbn.
    repeat split; auto; try lia; try discriminate. }
  match goal with |- context [head (omap db.scan_film ?p)] =>
    destruct (head (omap db.scan_film p)) as [es|]
  end.
  { exists page, limit, offset, status, false.
    unfold site.ret. cbn [fst snd site.calls site.call site.world].
    repeat split; auto; try lia; try discriminate. }
  exists page, limit, offset, status, true. cbn [fst snd site.ret].
  unfold site.ret. cbn [fst snd site.calls site.call site.world].
  repeat split; auto; try lia; try discriminate.
  intros _. eexists. split; [reflexivity|]. split; [|split].
  - rewrite length_take. lia.
  - apply Forall_take, Forall_drop.
    rewrite merge_sort_Permutation.
    apply Forall_forall. intros f Hf.
    apply list_elem_of_In, filter_In in Hf as [Hf Hst].
    apply list_elem_of_In, list_elem_of_fmap in Hf as ([id f'] & -> & Hf).
    apply elem_of_map_to_list in Hf. split; [eauto|].
    intros Hready. rewrite Hready in Hst. cbn in Hst.
    apply bool_decide_eq_true_1 in Hst.
    apply FilmStatus_string_ready. exact Hst.
  - intros Hp1 Hsize id f Hf Hst.
    assert (offset = 0) as -> by (rewrite Hexact; lia).
    change (Z.to_nat 0) with 0%nat. rewrite drop_0, take_ge.
    + apply list_elem_of_In. rewrite merge_sort_Permutation.
      apply list_elem_of_In, filter_In. split.
      * apply list_elem_of_In, list_elem_of_fmap. exists (id, f).
        split; [reflexivity|]. apply elem_of_map_to_list. exact Hf.
      * subst status. case_bool_decide; cbn.
        -- destruct Hst as [Hst | Hst]; [discriminate Hst|].
           rewrite Hst. reflexivity.
        -- reflexivity.
    + rewrite (Permutation_length (merge_sort_Permutation _ _)).
      etransitivity; [apply filter_length_le|].
      rewrite length_fmap, length_map_to_list. lia.
Qed.

(** ** Authentication and the routes *)

Lemma AuthMiddleware_bearer env c s token claims :
  site.api.authorization c = "Bearer " +:+ token ->
  occurs site.api.space token = false ->
  site.jwt_validate env (site.tick s) token = Some claims ->
  site.api.AuthMiddleware env c s =
    (site.api.Next
       (site.api.mkCtx (site.api.authorization c) (site.api.param c)
          (site.api.query c) (Some (site.UserID claims))
          (Some (site.ClaimRole claims))), s).
Proof.
  intros Hh Hsp Hval. unfold site.api.AuthMiddleware. cbv zeta.
  rewrite bool_decide_eq_false_2 by (rewrite Hh; discriminate).
  assert (split_on site.api.space (site.api.authorization c)
          = [ "Bearer"; token ]) as ->
    by (apply split_on_two; rewrite Hh; auto).
  rewrite bool_decide_eq_true_2 by reflexivity. cbn [negb].
  rewrite site_bind_eq. unfold site.auth.ValidateToken. rewrite Hval.
  reflexivity.
Qed.

Lemma AuthMiddleware_inv env c s :
  let r := site.api.AuthMiddleware env c s in
  r.2 = s /\
  (forall c', r.1 = site.api.Next c' ->
     exists token claims,
       site.api.authorization c = "Bearer " +:+ token /\
       occurs site.api.space token = false /\
       site.jwt_validate env (site.tick s) token = Some claims /\
       c' = site.api.mkCtx (site.api.authorization c) (site.api.param c)
                           (site.api.query c) (Some (site.UserID claims))
                           (Some (site.ClaimRole claims))) /\
  (forall reply, r.1 = site.api.Abort reply ->
     reply = site.api.fail 401 "missing authorization header" \/
     reply = site.api.fail 401 "invalid authorization format" \/
     reply = site.api.fail 401 "invalid token").
Proof.
  cbv zeta. unfold site.api.AuthMiddleware. cbv zeta.
  case_bool_decide as Hempty;
    [unfold site.ret; cbn; repeat split; intros; simplify_eq; auto|].
  destruct (split_on site.api.space (site.api.authorization c))
    as [|p0 [|p1 [|p2 ps]]] eqn:Hsplit.
  1,2,4: unfold site.ret; cbn; repeat split; intros; simplify_eq; auto.
  apply split_on_two in Hsplit as (Hh & Hp0 & Hp1).
  case_bool_decide as Hbearer; cbn [negb];
    [|unfold site.ret; cbn; repeat split; intros; simplify_eq; auto].
  subst p0. rewrite site_bind_eq. unfold site.auth.ValidateToken.
  destruct (site.jwt_validate env (site.tick s) p1) as [claims|] eqn:Hval;
    unfold site.ret; cbn; repeat split; intros; simplify_eq; auto.
  exists p1, claims. auto.
Qed.

(** X20: [AuthMiddleware] lets a request through exactly when its
    Authorization header is [Bearer], one space and a token without a space
    that the JWT manager validates; the context then carries the user id and
    the role of the claims.  Every refusal is a 401, and the middleware
    changes nothing.  [Bearer] alone, a lower-case [bearer] and two spaces
    after [Bearer] are refused as an invalid format, before the token is
    looked at. *)
Theorem AuthMiddleware_accepts_exactly_bearer_tokens env c s :
  let r := site.api.AuthMiddleware env c s in
  r.2 = s /\
  (forall c', r.1 = site.api.Next c' <->
     exists token claims,
       site.api.authorization c = "Bearer " +:+ token /\
       occurs site.api.space token = false /\
       site.jwt_validate env (site.tick s) token = Some claims /\
       c' = site.api.mkCtx (site.api.authorization c) (site.api.param c)
                           (site.api.query c) (Some (site.UserID claims))
                           (Some (site.ClaimRole claims))) /\
  (forall reply, r.1 = site.api.Abort reply ->
     site.api.status reply = 401) /\
  (site.api.authorization c = "Bearer" ->
     r.1 = site.api.Abort (site.api.fail 401 "invalid authorization format")) /\
  (forall token, site.api.authorization c = "bearer " +:+ token ->
     r.1 = site.api.Abort (site.api.fail 401 "invalid authorization format")) /\
  (forall token, site.api.authorization c = "Bearer  " +:+ token ->
     r.1 = site.api.Abort (site.api.fail 401 "invalid authorization format")).
Proof.
  cbv zeta. destruct (AuthMiddleware_inv env c s) as (Hs & Hnext & Habort).
  split; [exact Hs|]. split; [|split; [|split; [|split]]].
  - intros c'. split; [apply Hnext|].
    intros (token & claims & Hh & Hsp & Hval & ->).
    rewrite (AuthMiddleware_bearer env c s token claims Hh Hsp Hval).
    reflexivity.
  - intros reply Hr.
    destruct (Habort reply Hr) as [-> | [-> | ->]]; reflexivity.
  - intros Hh. unfold site.api.AuthMiddleware. rewrite Hh. reflexivity.
  - intros token Hh. unfold site.api.AuthMiddleware. cbv zeta. rewrite Hh.
    rewrite bool_decide_eq_false_2 by discriminate.
    change ("bearer " +:+ token)
      with ("bearer" +:+ String site.api.space token).
    rewrite split_on_app. cbn [split_on app]. cbn.
    pose proof (split_on_nonempty site.api.space token) as Hne.
    destruct (split_on site.api.space token) as [|t [|t' ts]];
      [congruence| |]; reflexivity.
  - intros token Hh. unfold site.api.AuthMiddleware. cbv zeta. rewrite Hh.
    rewrite bool_decide_eq_false_2 by discriminate.
    change ("Bearer  " +:+ token)
      with ("Bearer" +:+ String site.api.space
                           (String site.api.space token)).
    rewrite split_on_app. cbn.
    pose proof (split_on_nonempty site.api.space token) as Hne.
    destruct (split_on site.api.space token) as [|t ts];
      [congruence|]; reflexivity.
Qed.

(** X21: a handler of the protected film routes runs only behind both
    middlewares.  With a valid bearer token whose role is CREATOR or ADMIN
    the route is the handler, run with the user id of the token as the
    caller; with a valid token of any other role it answers 403 "creator
    access required"; without a valid token it answers 401.  In the two
    last cases nothing is changed.  The role is that of the token, not that
    of the user row. *)
Theorem films_route_admits_creators_only env handler c s :
  let r := site.server.films_route env handler c s in
  (forall token claims,
     site.api.authorization c = "Bearer " +:+ token ->
     occurs site.api.space token = false ->
     site.jwt_validate env (site.tick s) token = Some claims ->
     let c' := site.api.mkCtx (site.api.authorization c) (site.api.param c)
                 (site.api.query c) (Some (site.UserID claims))
                 (Some (site.ClaimRole claims)) in
     (site.ClaimRole claims = "CREATOR" \/ site.ClaimRole claims = "ADMIN" ->
        r = handler env c' s /\
        api.GetUserID (site.api.request_of c') = site.UserID claims) /\
     (site.ClaimRole claims <> "CREATOR" ->
      site.ClaimRole claims <> "ADMIN" ->
        r = (site.api.fail 403 "creator access required", s))) /\
  ((forall token claims,
      site.api.authorization c = "Bearer " +:+ token ->
      occurs site.api.space token = false ->
      site.jwt_validate env (site.tick s) token <> Some claims) ->
   r.2 = s /\ site.api.status r.1 = 401).
Proof.
  cbv zeta. unfold site.server.films_route. rewrite site_bind_eq. split.
  - intros token claims Hh Hsp Hval.
    rewrite (AuthMiddleware_bearer env c s token claims Hh Hsp Hval).
    unfold site.api.RequireCreator, site.auth.IsCreator.
    cbn [site.api.user_role]. split.
    + intros Hrole. split; [|reflexivity].
      unfold site.RoleCreator, site.RoleAdmin.
      destruct Hrole as [-> | ->]; reflexivity.
    + intros Hc Ha. unfold site.RoleCreator, site.RoleAdmin.
      rewrite !bool_decide_eq_false_2 by assumption. reflexivity.
  - intros Hnone.
    destruct (AuthMiddleware_inv env c s) as (Hs & Hnext & Habort).
    destruct (site.api.AuthMiddleware env c s) as [st s1].
    cbn [fst snd] in *. subst s1. destruct st as [reply|c'].
    + unfold site.ret. cbn. split; [reflexivity|].
      destruct (Habort reply eq_refl) as [-> | [-> | ->]]; reflexivity.
    + exfalso. destruct (Hnext c' eq_refl)
        as (token & claims & Hh & Hsp & Hval & _).
      exact (Hnone token claims Hh Hsp Hval).
Qed.

Lemma tick_call c s : site.tick (site.call c s) = S (site.tick s).
Proof. unfold site.tick. cbn [site.world site.call site.calls length]. lia. Qed.

Lemma tick_set_users u s : site.tick (site.set_users u s) = site.tick s.
Proof. reflexivity. Qed.

(** X22: [Register] gives the new user the role the request asks for
    when that is CREATOR or ADMIN, and USER otherwise.  With a free email and
    every call succeeding it answers 201 with a token and the user, the hash
    blanked, and has inserted the user row with the hash of the password.  A
    request with role ADMIN therefore creates, without any authentication, a
    user [RequireAdmin] lets through. *)
Theorem Register_grants_the_role_asked_for env req s hash token :
  let role :=
    if bool_decide (site.api.RegRole req = "CREATOR") ||
       bool_decide (site.api.RegRole req = "ADMIN")
    then site.api.RegRole req else "USER" in
  let id := uuid_New (site.base env) (2 + site.tick s)%nat in
  let user := site.User.mk id (site.api.RegEmail req) hash role
                           (site.api.RegName req) "" "" in
  site.sql_err env (site.tick s) = None ->
  site.db.user_with_email (site.users s) (site.api.RegEmail req) = None ->
  site.bcrypt_hash env (1 + site.tick s)%nat (site.api.RegPassword req)
    = Ok hash ->
  site.sql_err env (2 + site.tick s)%nat = None ->
  site.users s !! id = None ->
  site.jwt_sign env (3 + site.tick s)%nat
    (site.mkClaims id (site.api.RegEmail req) role) = Ok token ->
  let r := site.api.Register env (Ok req) s in
  r.1 = site.api.mkReply 201
          (site.api.Fields
             [ ("token", site.api.JString token);
               ("user",
                site.api.JUser
                  (site.User.mk id (site.api.RegEmail req) "" role
                                (site.api.RegName req) "" "")) ]) /\
  site.users r.2 = <[id := user]> (site.users s) /\
  (site.api.RegRole req = "ADMIN" ->
     site.User.Role user = "ADMIN" /\
     forall c, site.api.RequireAdmin
                 (site.api.mkCtx (site.api.authorization c) (site.api.param c)
                    (site.api.query c) (Some id) (Some (site.User.Role user)))
               = site.api.Next
                   (site.api.mkCtx (site.api.authorization c)
                      (site.api.param c) (site.api.query c) (Some id)
                      (Some (site.User.Role user)))) /\
  (site.api.RegRole req <> "CREATOR" -> site.api.RegRole req <> "ADMIN" ->
     site.User.Role user = "USER").
Proof.
  intros role id user Hsql0 Hfree Hhash Hsql2 Hid Hsign r. subst r.
  unfold site.api.Register. rewrite site_bind_eq.
  unfold site.db.GetUserByEmail. rewrite Hsql0, Hfree. cbv beta iota zeta.
  rewrite site_bind_eq. unfold site.auth.HashPassword.
  rewrite tick_call. change (S (site.tick s)) with (1 + site.tick s)%nat.
  rewrite Hhash. cbv beta iota zeta.
  rewrite site_bind_eq. unfold site.api.newUUID. cbv beta iota zeta.
  rewrite !tick_call.
  change (S (S (site.tick s))) with (2 + site.tick s)%nat.
  fold role. fold id. fold user.
  rewrite site_bind_eq. unfold site.db.CreateUser.
  rewrite !tick_call.
  change (S (S (site.tick s))) with (2 + site.tick s)%nat.
  rewrite Hsql2. cbn [site.users site.call site.User.ID site.User.Email
                      site.User.Role user].
  rewrite Hid, Hfree. rewrite !bool_decide_eq_true_2 by reflexivity.
  assert (site.db.role_allowed role = true) as Hrole.
  { subst role. unfold site.db.role_allowed.
    destruct (decide (site.api.RegRole req = "CREATOR")) as [Hc|Hc].
    { rewrite (bool_decide_eq_true_2 _ Hc). cbn [orb]. rewrite Hc.
      reflexivity. }
    rewrite (bool_decide_eq_false_2 _ Hc). cbn [orb].
    destruct (decide (site.api.RegRole req = "ADMIN")) as [Ha|Ha].
    { rewrite (bool_decide_eq_true_2 _ Ha). rewrite Ha. reflexivity. }
    rewrite (bool_decide_eq_false_2 _ Ha). reflexivity. }
  change (site.db.role_allowed _) with (site.db.role_allowed role).
  rewrite Hrole. cbv beta iota zeta. cbn [andb].
  rewrite site_bind_eq. unfold site.auth.GenerateToken.
  rewrite !tick_call, tick_set_users, !tick_call.
  change (S (S (S (site.tick s)))) with (3 + site.tick s)%nat.
  cbn [site.User.ID site.User.Email site.User.Role user].
  change (site.jwt_sign env _ _)
    with (site.jwt_sign env (3 + site.tick s)%nat
            (site.mkClaims id (site.api.RegEmail req) role)).
  rewrite Hsign.
  cbv beta iota zeta. unfold site.ret.
  cbn [fst snd site.users site.call site.set_users].
  split; [reflexivity|]. split; [reflexivity|]. split.
  - intros Hadmin. subst role. cbn [site.User.Role user].
    rewrite Hadmin. cbn. split; [reflexivity|]. intros c. reflexivity.
  - intros Hc Ha. subst role. cbn [site.User.Role user].
    rewrite !bool_decide_eq_false_2 by assumption. reflexivity.
Qed.

Lemma Register_grants_the_role_asked_for_witness :
  let env := site.sample.env_ok in
  let s := site.sample.site_of (sample.world_no_job sample.film0) in
  let req := site.api.mkRegisterRequest "eve@example.org" "correct horse"
                                        "Eve" "ADMIN" in
  let user := site.User.mk sample.jid "eve@example.org" "$2a$10$correct horse"
                           "ADMIN" "Eve" "" "" in
  let r := site.api.Register env (Ok req) s in
  r.1 = site.api.mkReply 201
          (site.api.Fields
             [ ("token",
                site.api.JString
                  ("jwt." +:+ sample.jid +:+ "." +:+ "ADMIN"));
               ("user",
                site.api.JUser
                  (site.User.mk sample.jid "eve@example.org" "" "ADMIN"
                                "Eve" "" "")) ]) /\
  site.users r.2 = <[sample.jid := user]> (site.users s) /\
  (site.api.RegRole req = "ADMIN" ->
     site.User.Role user = "ADMIN" /\
     forall c, site.api.RequireAdmin
                 (site.api.mkCtx (site.api.authorization c) (site.api.param c)
                    (site.api.query c) (Some sample.jid)
                    (Some (site.User.Role user)))
               = site.api.Next
                   (site.api.mkCtx (site.api.authorization c)
                      (site.api.param c) (site.api.query c) (Some sample.jid)
                      (Some (site.User.Role user)))) /\
  (site.api.RegRole req <> "CREATOR" -> site.api.RegRole req <> "ADMIN" ->
     site.User.Role user = "USER").
Proof.
  apply (Register_grants_the_role_asked_for site.sample.env_ok
           (site.api.mkRegisterRequest "eve@example.org" "correct horse"
                                       "Eve" "ADMIN")
           (site.sample.site_of (sample.world_no_job sample.film0))
           "$2a$10$correct horse"
           ("jwt." +:+ sample.jid +:+ "." +:+ "ADMIN"));
    vm_compute; reflexivity.
Defined.

(** X23: [Login] answers 200 only when the database answered, a user
    has the email and bcrypt accepts the password against the stored hash;
    the answer then carries the token and the user with the hash blanked.
    An unknown email, a wrong password and a failure of the database all get
    the same 401 "invalid email or password".  [Login] changes no table. *)
Theorem Login_does_not_tell_which_part_was_wrong env req s :
  let r := site.api.Login env (Ok req) s in
  let found := site.db.user_with_email (site.users s) (site.api.LoginEmail req) in
  (site.api.status r.1 = 200 ->
     exists user token,
       site.sql_err env (site.tick s) = None /\
       found = Some user /\
       site.bcrypt_check env (site.User.PasswordHash user)
                         (site.api.LoginPassword req) = true /\
       r.1 = site.api.mkReply 200
               (site.api.Fields
                  [ ("token", site.api.JString token);
                    ("user", site.api.JUser (site.api.without_hash user)) ]) /\
       site.User.PasswordHash (site.api.without_hash user) = "") /\
  (site.sql_err env (site.tick s) <> None \/
   found = None \/
   (exists user, found = Some user /\
      site.bcrypt_check env (site.User.PasswordHash user)
                        (site.api.LoginPassword req) = false) ->
   r.1 = site.api.fail 401 "invalid email or password") /\
  site.users r.2 = site.users s /\ site.world r.2 = site.world s.
Proof.
  cbv zeta. unfold site.api.Login. rewrite site_bind_eq.
  unfold site.db.GetUserByEmail.
  destruct (site.sql_err env (site.tick s)) as [e|]; [site_done|].
  destruct (site.db.user_with_email (site.users s) (site.api.LoginEmail req))
    as [user|]; [|site_done].
  cbv beta iota zeta. unfold site.auth.CheckPassword.
  destruct (site.bcrypt_check env (site.User.PasswordHash user)
              (site.api.LoginPassword req)) eqn:Hcheck; [|site_done].
  rewrite site_bind_eq. unfold site.auth.GenerateToken.
  destruct (site.jwt_sign env _ _) as [token|e]; [|site_done].
  unfold site.ret. cbn. repeat split; intros.
  - exists user, token. repeat split; auto.
  - destruct H as [H | [H | (u & H & Hc)]]; [congruence|discriminate|].
    congruence.
Qed.

(** X24: GET /auth/me answers for the holder of the token.  With a
    valid bearer token the reply is the row of the user the token names, as
    it is in the table now, with the password hash blanked; when that row is
    gone, and also when the database fails, the reply is 404 "user not
    found".  Without a valid token the reply is a 401 of the middleware and
    the handler does not run.  The route writes nothing, and no reply
    carries a password hash. *)
Theorem me_route_answers_for_the_token_holder env c s :
  let r := site.server.me_route env c s in
  site.world r.2 = site.world s /\
  site.users r.2 = site.users s /\
  (forall token claims,
     site.api.authorization c = "Bearer " +:+ token ->
     occurs site.api.space token = false ->
     site.jwt_validate env (site.tick s) token = Some claims ->
     r.1 = match site.sql_err env (site.tick s),
                 site.users s !! site.UserID claims with
           | None, Some user =>
               site.api.mkReply 200
                 (site.api.Whole (site.api.JUser (site.api.without_hash user)))
           | _, _ => site.api.fail 404 "user not found"
           end) /\
  ((forall token claims,
      site.api.authorization c = "Bearer " +:+ token ->
      occurs site.api.space token = false ->
      site.jwt_validate env (site.tick s) token <> Some claims) ->
   r.2 = s /\ site.api.status r.1 = 401) /\
  (forall u, site.api.payload r.1 = site.api.Whole (site.api.JUser u) ->
     site.User.PasswordHash u = "" /\ site.api.status r.1 = 200).
Proof.
  cbv zeta. unfold site.server.me_route. rewrite site_bind_eq.
  destruct (AuthMiddleware_inv env c s) as (Hs & Hnext & Habort).
  destruct (site.api.AuthMiddleware env c s) as [st s1] eqn:Hrun.
  cbn [fst snd] in *. subst s1. destruct st as [reply|c'].
  - unfold site.ret. cbn [fst snd].
    split; [reflexivity|]. split; [reflexivity|]. split; [|split].
    + intros token claims Hh Hsp Hval.
      rewrite (AuthMiddleware_bearer env c s token claims Hh Hsp Hval) in Hrun.
      discriminate.
    + intros _. split; [reflexivity|].
      destruct (Habort reply eq_refl) as [-> | [-> | ->]]; reflexivity.
    + intros u Hu.
      destruct (Habort reply eq_refl) as [-> | [-> | ->]]; discriminate.
  - destruct (Hnext c' eq_refl) as (token & claims & Hh & Hsp & Hval & ->).
    unfold site.api.GetMe. cbn [site.api.user_id]. rewrite site_bind_eq.
    unfold site.db.GetUserByID.
    assert (forall token' claims',
              site.api.authorization c = "Bearer " +:+ token' ->
              site.jwt_validate env (site.tick s) token' = Some claims' ->
              claims' = claims) as Hsame.
    { intros token' claims' Hh' Hval'. rewrite Hh in Hh'.
      apply (inj (String.app "Bearer ")) in Hh'. subst token'. congruence. }
    destruct (site.sql_err env (site.tick s)) as [e|];
      [|destruct (site.users s !! site.UserID claims) as [user|] eqn:Hu];
      unfold site.ret; cbn [fst snd site.world site.users site.call];
      (split; [reflexivity|]); (split; [reflexivity|]); (split; [|split]).
    all: try (intros token' claims' Hh' _ Hval';
              pose proof (Hsame token' claims' Hh' Hval') as ->;
              rewrite ?Hu; reflexivity).
    all: try (intros Hnone; exfalso;
              exact (Hnone token claims Hh Hsp Hval)).
    all: intros u Hpay; cbn in Hpay; try discriminate.
    injection Hpay as <-. split; reflexivity.
Qed.
